(** * DailyNotes: token-based authentication and the e-mail notifier

    A shallow embedding of [app/auth_tokens.py] and of the sending path of
    [app/email_service.py], with the properties of the token life cycle,
    the rate limiter, the clean-up job, the e-mail look-up and the notifier.

    Conventions of the embedding.
    - In [app/auth_tokens.py] a Python [str] is a [string] of its code
      points; the embedding covers the code points below 256 (tokens and
      digests are ASCII), and [lower], [strip] and [encode] are Python's on
      that range.  In [app/email_service.py] a [str] is the list of its code
      points without a bound, since what the code does with a body depends
      on whether it holds a surrogate.
    - A call that may raise ends in an [Email.outcome]: the value returned
      or the exception raised, with the side of [Exception] its class is on.
    - A [datetime] is the number of microseconds since the epoch, in [Z];
      a [timedelta] is a number of microseconds.
    - The library calls the code makes ([hashlib.sha256],
      [secrets.token_urlsafe], [str.lower], [str.strip], [str.encode]) are
      written out, so that every definition evaluates.
    - The clock ([datetime.now]), the entropy ([secrets.token_bytes]) and the
      primary key the store gives a new row are arguments of the operation
      that reads them.
    - A table is the list of its rows in row order; [.first()] and [.all()]
      follow that order.
    - Calls to [logger] touch no table and are left out. *)

From Stdlib Require Import ZArith List String Ascii Bool Lia DecimalString.
Import ListNotations.

Local Open Scope string_scope.
Local Open Scope list_scope.
Local Open Scope Z_scope.

(** ** Python [str] methods *)

Module PyStr.

Definition code (c : ascii) : Z := Z.of_N (N_of_ascii c).
Definition chr (n : Z) : ascii := ascii_of_N (Z.to_N n).

(** [c.isupper()] for a code point below 256: A-Z, and the Latin-1 capitals
    U+00C0..U+00DE without the multiplication sign U+00D7. *)
Definition isupper (c : ascii) : bool :=
  let n := code c in
  ((65 <=? n) && (n <=? 90)) || ((192 <=? n) && (n <=? 222) && negb (n =? 215)).

Definition lower_char (c : ascii) : ascii :=
  if isupper c then chr (code c + 32) else c.

(** [s.lower()] *)
Fixpoint lower (s : string) : string :=
  match s with
  | EmptyString => EmptyString
  | String c s' => String (lower_char c) (lower s')
  end.

(** [c.isspace()] for a code point below 256. *)
Definition isspace (c : ascii) : bool :=
  let n := code c in
  ((9 <=? n) && (n <=? 13)) || ((28 <=? n) && (n <=? 32)) || (n =? 133) || (n =? 160).

Fixpoint lstrip_by (p : ascii -> bool) (s : string) : string :=
  match s with
  | EmptyString => EmptyString
  | String c s' => if p c then lstrip_by p s' else s
  end.

Fixpoint rstrip_by (p : ascii -> bool) (s : string) : string :=
  match s with
  | EmptyString => EmptyString
  | String c s' =>
      match rstrip_by p s' with
      | EmptyString => if p c then EmptyString else String c EmptyString
      | r => String c r
      end
  end.

(** [s.strip()] *)
Definition strip (s : string) : string := rstrip_by isspace (lstrip_by isspace s).

(** [s.encode()]: UTF-8; one byte below U+0080, two bytes from there to U+00FF. *)
Definition encode_char (c : ascii) : list Z :=
  let n := code c in
  if n <? 128 then [n]
  else [Z.lor 192 (Z.shiftr n 6); Z.lor 128 (Z.land n 63)].

Fixpoint encode (s : string) : list Z :=
  match s with
  | EmptyString => []
  | String c s' => encode_char c ++ encode s'
  end.

(** Truth value of a [str]: the empty string is false. *)
Definition truthy (s : string) : bool :=
  match s with EmptyString => false | _ => true end.

End PyStr.

(** ** [hashlib.sha256] (FIPS 180-4), on 32-bit words held in [Z] *)

Module SHA256.

Definition mask32 : Z := 0xffffffff.
Definition add32 (x y : Z) : Z := Z.land (x + y) mask32.
Definition rotr (n x : Z) : Z :=
  Z.lor (Z.shiftr x n) (Z.land (Z.shiftl x (32 - n)) mask32).

Definition Ch (x y z : Z) : Z := Z.lxor (Z.land x y) (Z.land (Z.lxor x mask32) z).
Definition Maj (x y z : Z) : Z :=
  Z.lxor (Z.lxor (Z.land x y) (Z.land x z)) (Z.land y z).
Definition Sum0 (x : Z) : Z := Z.lxor (Z.lxor (rotr 2 x) (rotr 13 x)) (rotr 22 x).
Definition Sum1 (x : Z) : Z := Z.lxor (Z.lxor (rotr 6 x) (rotr 11 x)) (rotr 25 x).
Definition sig0 (x : Z) : Z := Z.lxor (Z.lxor (rotr 7 x) (rotr 18 x)) (Z.shiftr x 3).
Definition sig1 (x : Z) : Z := Z.lxor (Z.lxor (rotr 17 x) (rotr 19 x)) (Z.shiftr x 10).

(** The round constants and the initial words are not tabulated but
    derived as FIPS 180-4 defines them: the first 32 bits of the fractional
    parts of the cube roots of the first 64 primes, and of the square roots
    of the first 8. *)
Definition is_prime (n : Z) : bool :=
  forallb (fun d => negb (n mod d =? 0)) (map Z.of_nat (seq 2 (Z.to_nat n - 2))).

Definition primes : list Z := filter is_prime (map Z.of_nat (seq 2 310)).

(** The integer cube root of [n], one bit at a time from bit [bits - 1] down. *)
Fixpoint cube_root (bits : nat) (n r : Z) : Z :=
  match bits with
  | O => r
  | S b =>
      let c := r + 2 ^ Z.of_nat b in
      cube_root b n (if c * c * c <=? n then c else r)
  end.

Definition K : list Z :=
  map (fun p => Z.land (cube_root 36 (p * 2 ^ 96) 0) mask32) primes.

(** The eight working words. *)
Record state : Type := mkState {
  ha : Z; hb : Z; hc : Z; hd : Z; he : Z; hf : Z; hg : Z; hh : Z }.

Definition frac_sqrt (i : nat) : Z :=
  Z.land (Z.sqrt (nth i primes 0 * 2 ^ 64)) mask32.

Definition init : state :=
  mkState (frac_sqrt 0) (frac_sqrt 1) (frac_sqrt 2) (frac_sqrt 3)
          (frac_sqrt 4) (frac_sqrt 5) (frac_sqrt 6) (frac_sqrt 7).

(** Padding: the byte 0x80, zero bytes up to 56 modulo 64, then the length
    in bits as a 64-bit big-endian integer. *)
Definition be_bytes (width : nat) (x : Z) : list Z :=
  map (fun i => Z.land (Z.shiftr x (8 * Z.of_nat i)) 255) (rev (seq 0 width)).

Definition pad (msg : list Z) : list Z :=
  let len := Z.of_nat (List.length msg) in
  msg ++ [128] ++ repeat 0 (Z.to_nat ((55 - len) mod 64)) ++ be_bytes 8 (8 * len).

Fixpoint be_words (n : nat) (bs : list Z) : list Z :=
  match n, bs with
  | S n', b0 :: b1 :: b2 :: b3 :: rest =>
      (Z.shiftl b0 24 + Z.shiftl b1 16 + Z.shiftl b2 8 + b3) :: be_words n' rest
  | _, _ => []
  end.

(** Message schedule, most recent word first: [w] holds W(t-1), W(t-2), ... *)
Definition next_word (w : list Z) : Z :=
  add32 (add32 (add32 (sig1 (nth 1 w 0)) (nth 6 w 0)) (sig0 (nth 14 w 0))) (nth 15 w 0).

Fixpoint extend (n : nat) (w : list Z) : list Z :=
  match n with
  | O => w
  | S n' => extend n' (next_word w :: w)
  end.

Definition schedule (block : list Z) : list Z :=
  rev (extend 48 (rev (be_words 16 block))).

Definition round (s : state) (kw : Z * Z) : state :=
  let t1 := add32 (add32 (add32 (add32 (hh s) (Sum1 (he s))) (Ch (he s) (hf s) (hg s)))
                         (fst kw)) (snd kw) in
  let t2 := add32 (Sum0 (ha s)) (Maj (ha s) (hb s) (hc s)) in
  mkState (add32 t1 t2) (ha s) (hb s) (hc s) (add32 (hd s) t1) (he s) (hf s) (hg s).

Definition compress (s : state) (block : list Z) : state :=
  let r := fold_left round (combine K (schedule block)) s in
  mkState (add32 (ha s) (ha r)) (add32 (hb s) (hb r)) (add32 (hc s) (hc r))
          (add32 (hd s) (hd r)) (add32 (he s) (he r)) (add32 (hf s) (hf r))
          (add32 (hg s) (hg r)) (add32 (hh s) (hh r)).

Fixpoint blocks (n : nat) (s : state) (bs : list Z) : state :=
  match n with
  | O => s
  | S n' => blocks n' (compress s (firstn 64 bs)) (skipn 64 bs)
  end.

Definition digest_of (s : state) : list Z :=
  be_bytes 4 (ha s) ++ be_bytes 4 (hb s) ++ be_bytes 4 (hc s) ++ be_bytes 4 (hd s) ++
  be_bytes 4 (he s) ++ be_bytes 4 (hf s) ++ be_bytes 4 (hg s) ++ be_bytes 4 (hh s).

(** [hashlib.sha256(msg).digest()] *)
Definition digest (msg : list Z) : list Z :=
  let p := pad msg in
  digest_of (blocks (List.length p / 64) init p).

Definition hex_digit (n : Z) : ascii :=
  nth (Z.to_nat n) (list_ascii_of_string "0123456789abcdef") "0"%char.

Fixpoint hex (bs : list Z) : string :=
  match bs with
  | [] => EmptyString
  | b :: rest => String (hex_digit (Z.shiftr b 4)) (String (hex_digit (Z.land b 15)) (hex rest))
  end.

(** [hashlib.sha256(msg).hexdigest()] *)
Definition hexdigest (msg : list Z) : string := hex (digest msg).

End SHA256.

(** ** [secrets.token_urlsafe]: URL-safe base64 without the padding *)

Module Base64.

Definition urlsafe_alphabet : list ascii :=
  list_ascii_of_string
    "ABCDEFGHIJKLMNOPQRSTUVWXYZabcdefghijklmnopqrstuvwxyz0123456789-_".

Definition sextet (n : Z) : ascii := nth (Z.to_nat n) urlsafe_alphabet "A"%char.

(** [base64.urlsafe_b64encode]: three bytes give four characters; a last
    group of one or two bytes is completed with "=". *)
Fixpoint urlsafe_b64encode (bs : list Z) : string :=
  match bs with
  | [] => EmptyString
  | [a] =>
      String (sextet (Z.shiftr a 2))
        (String (sextet (Z.shiftl (Z.land a 3) 4)) "==")
  | [a; b] =>
      String (sextet (Z.shiftr a 2))
        (String (sextet (Z.lor (Z.shiftl (Z.land a 3) 4) (Z.shiftr b 4)))
           (String (sextet (Z.shiftl (Z.land b 15) 2)) "="))
  | a :: b :: c :: rest =>
      String (sextet (Z.shiftr a 2))
        (String (sextet (Z.lor (Z.shiftl (Z.land a 3) 4) (Z.shiftr b 4)))
           (String (sextet (Z.lor (Z.shiftl (Z.land b 15) 2) (Z.shiftr c 6)))
              (String (sextet (Z.land c 63)) (urlsafe_b64encode rest))))
  end.

Definition is_pad (c : ascii) : bool := Ascii.eqb c "="%char.

(** [secrets.token_urlsafe(n)], given the [n] bytes [secrets.token_bytes(n)]
    drew: [base64.urlsafe_b64encode(tok).rstrip(b'=').decode('ascii')]. *)
Definition token_urlsafe (tok : list Z) : string :=
  PyStr.rstrip_by is_pad (urlsafe_b64encode tok).

End Base64.

(** ** The data model

    The tables of [migrations/versions/email_and_auth_tokens.py]; a column
    that is not declared [nullable=False] is an [option]. *)

Definition GUID : Type := N.
Bind Scope N_scope with GUID.
Definition datetime : Type := Z.
Definition timedelta : Type := Z.

Definition hours (n : Z) : timedelta := n * 3600000000.
Definition minutes (n : Z) : timedelta := n * 60000000.
Definition days (n : Z) : timedelta := n * 86400000000.

(** Modelled from the spec: the [User] entity of [app/models.py], of which
    this slice reads the primary key, the (decrypted) e-mail and the user
    name. *)
Record User : Type := mkUser {
  user_uuid : GUID;
  user_email : option string;
  user_username : string }.

Record AuthToken : Type := mkAuthToken {
  at_uuid : GUID;
  at_user_id : GUID;
  at_token_hash : string;
  at_token_type : string;
  at_created_at : option datetime;
  at_expires_at : datetime;
  at_used_at : option datetime }.

Record RateLimit : Type := mkRateLimit {
  rl_uuid : GUID;
  rl_identifier : string;
  rl_action_type : string;
  rl_timestamp : option datetime }.

(** The relational store: each table in row order. *)
Record Store : Type := mkStore {
  users : list User;
  auth_tokens : list AuthToken;
  rate_limits : list RateLimit }.

(** SQL comparisons of a nullable column with a value: never true on NULL. *)
Definition sql_lt (c : option datetime) (v : datetime) : bool :=
  match c with Some x => x <? v | None => false end.
Definition sql_gt (c : option datetime) (v : datetime) : bool :=
  match c with Some x => v <? x | None => false end.
Definition is_null {A : Type} (c : option A) : bool :=
  match c with Some _ => false | None => true end.

(** ** The session: a state monad over the store *)

Definition DB (A : Type) : Type := Store -> A * Store.

Definition ret {A : Type} (a : A) : DB A := fun s => (a, s).
Definition bind {A B : Type} (m : DB A) (k : A -> DB B) : DB B :=
  fun s => let (a, s') := m s in k a s'.

Notation "x <- m ;; k" := (bind m (fun x => k))
  (at level 61, m at next level, right associativity).
Notation "m ;;; k" := (bind m (fun _ => k))
  (at level 61, right associativity).

(** [Model.query.filter(p)] followed by [.first()], [.count()] or [.delete()],
    and [User.query.all()]; [.delete()] returns the number of rows it removed. *)
Definition auth_query_first (p : AuthToken -> bool) : DB (option AuthToken) :=
  fun s => (find p (auth_tokens s), s).
Definition auth_query_delete (p : AuthToken -> bool) : DB nat :=
  fun s => (List.length (filter p (auth_tokens s)),
            mkStore (users s) (filter (fun r => negb (p r)) (auth_tokens s)) (rate_limits s)).
Definition rate_query_count (p : RateLimit -> bool) : DB nat :=
  fun s => (List.length (filter p (rate_limits s)), s).
Definition rate_query_delete (p : RateLimit -> bool) : DB nat :=
  fun s => (List.length (filter p (rate_limits s)),
            mkStore (users s) (auth_tokens s) (filter (fun r => negb (p r)) (rate_limits s))).
Definition user_query_all : DB (list User) := fun s => (users s, s).
(** [User.query.get(pk)] *)
Definition user_query_get (pk : GUID) : DB (option User) :=
  fun s => (find (fun u => N.eqb (user_uuid u) pk) (users s), s).

(** [db.session.add] of a new row, and of a row already in the table (an
    UPDATE of the row with that primary key). *)
Definition add_auth (r : AuthToken) : DB unit :=
  fun s => (tt, mkStore (users s) (auth_tokens s ++ [r]) (rate_limits s)).
Definition add_rate (r : RateLimit) : DB unit :=
  fun s => (tt, mkStore (users s) (auth_tokens s) (rate_limits s ++ [r])).
Definition update_auth (r : AuthToken) : DB unit :=
  fun s => (tt, mkStore (users s)
                  (map (fun x => if N.eqb (at_uuid x) (at_uuid r) then r else x) (auth_tokens s))
                  (rate_limits s)).
(** [db.session.commit()]: every statement above already acts on the store. *)
Definition commit : DB unit := ret tt.

(** ** [app/auth_tokens.py] *)

Definition PASSWORD_RESET_EXPIRY : timedelta := hours 1.
Definition MAGIC_LINK_EXPIRY : timedelta := minutes 15.
Definition RATE_LIMIT_WINDOW : timedelta := hours 1.
Definition RATE_LIMIT_MAX_REQUESTS : nat := 3.

(** [token_bytes n] stands for [secrets.token_bytes(n)], the draw of [n]
    random bytes. *)
Definition generate_token (token_bytes : nat -> list Z) : string :=
  Base64.token_urlsafe (token_bytes 32%nat).

Definition hash_token (token : string) : string :=
  SHA256.hexdigest (PyStr.encode token).

Definition hash_email_for_rate_limit (email : string) : string :=
  SHA256.hexdigest (PyStr.encode (PyStr.strip (PyStr.lower email))).

(** The filter of [check_rate_limit]'s query. *)
Definition recent_request (identifier action_type : string) (cutoff : datetime)
    (r : RateLimit) : bool :=
  String.eqb (rl_identifier r) identifier
  && String.eqb (rl_action_type r) action_type
  && sql_gt (rl_timestamp r) cutoff.

Definition check_rate_limit (now : datetime) (email action_type : string) : DB bool :=
  let identifier := hash_email_for_rate_limit email in
  let cutoff := now - RATE_LIMIT_WINDOW in
  count <- rate_query_count (recent_request identifier action_type cutoff) ;;
  ret (count <? RATE_LIMIT_MAX_REQUESTS)%nat.

(** The store stamps the new row with its primary key [pk] and, by the
    column's default, with the current time. *)
Definition record_rate_limit (now : datetime) (pk : GUID) (email action_type : string)
    : DB unit :=
  let identifier := hash_email_for_rate_limit email in
  let rate_limit := mkRateLimit pk identifier action_type (Some now) in
  add_rate rate_limit ;;;
  commit.

(** The filter of [create_auth_token]'s delete. *)
Definition unused_of (user_id : GUID) (token_type : string) (r : AuthToken) : bool :=
  N.eqb (at_user_id r) user_id
  && String.eqb (at_token_type r) token_type
  && is_null (at_used_at r).

Definition create_auth_token (token_bytes : nat -> list Z) (now : datetime) (pk : GUID)
    (user : User) (token_type : string) : DB string :=
  auth_query_delete (unused_of (user_uuid user) token_type) ;;;
  commit ;;;
  let raw_token := generate_token token_bytes in
  let token_hash := hash_token raw_token in
  let expiry :=
    if String.eqb token_type "password_reset"
    then now + PASSWORD_RESET_EXPIRY
    else now + MAGIC_LINK_EXPIRY in
  let auth_token :=
    mkAuthToken pk (user_uuid user) token_hash token_type (Some now) expiry None in
  add_auth auth_token ;;;
  commit ;;;
  ret raw_token.

(** The filter of [validate_token]'s query. *)
Definition valid_for (token_hash token_type : string) (now : datetime) (r : AuthToken)
    : bool :=
  String.eqb (at_token_hash r) token_hash
  && String.eqb (at_token_type r) token_type
  && is_null (at_used_at r)
  && (now <? at_expires_at r).

Definition validate_token (now : datetime) (raw_token token_type : string)
    : DB (option User) :=
  let token_hash := hash_token raw_token in
  auth_token <- auth_query_first (valid_for token_hash token_type now) ;;
  match auth_token with
  | None => ret None
  | Some t => user_query_get (at_user_id t)
  end.

Definition set_used_at (t : AuthToken) (v : option datetime) : AuthToken :=
  mkAuthToken (at_uuid t) (at_user_id t) (at_token_hash t) (at_token_type t)
              (at_created_at t) (at_expires_at t) v.

Definition invalidate_token (now : datetime) (raw_token : string) : DB bool :=
  let token_hash := hash_token raw_token in
  auth_token <- auth_query_first (fun r => String.eqb (at_token_hash r) token_hash) ;;
  match auth_token with
  | Some t =>
      update_auth (set_used_at t (Some now)) ;;;
      commit ;;;
      ret true
  | None => ret false
  end.

(** The three filters of [cleanup_expired_tokens]. *)
Definition expired (cutoff : datetime) (r : AuthToken) : bool :=
  at_expires_at r <? cutoff.
Definition used_before (used_cutoff : datetime) (r : AuthToken) : bool :=
  negb (is_null (at_used_at r)) && sql_lt (at_used_at r) used_cutoff.
Definition stale (rate_cutoff : datetime) (r : RateLimit) : bool :=
  sql_lt (rl_timestamp r) rate_cutoff.

(** Returns the three counts the source writes to its log. *)
Definition cleanup_expired_tokens (now : datetime) : DB (nat * nat * nat) :=
  let cutoff := now in
  expired_count <- auth_query_delete (expired cutoff) ;;
  let used_cutoff := cutoff - days 1 in
  used_count <- auth_query_delete (used_before used_cutoff) ;;
  let rate_cutoff := cutoff - RATE_LIMIT_WINDOW in
  rate_count <- rate_query_delete (stale rate_cutoff) ;;
  commit ;;;
  ret (expired_count, used_count, rate_count).

(** The test of [get_user_by_email]'s loop. *)
Definition email_matches (email_normalized : string) (user : User) : bool :=
  match user_email user with
  | Some e => PyStr.truthy e && String.eqb (PyStr.lower e) email_normalized
  | None => false
  end.

Definition get_user_by_email (email : string) : DB (option User) :=
  if negb (PyStr.truthy email) then ret None
  else
    let email_normalized := PyStr.strip (PyStr.lower email) in
    all_users <- user_query_all ;;
    ret (find (email_matches email_normalized) all_users).

(** ** [app/email_service.py] *)

Module Email.

(** In this module a Python [str] is the list of its code points, whatever
    they are: a lone surrogate (U+D800 to U+DFFF) is a code point of a [str]
    like any other.  [lit] gives the [str] of a literal of this file. *)
Definition str : Type := list N.
Definition lit (s : string) : str := map N_of_ascii (list_ascii_of_string s).
Definition is_surrogate (c : N) : bool := ((55296 <=? c) && (c <=? 57343))%N.

(** Values held by [app.config]. *)
Inductive pyval : Type :=
| PNone
| PStr (s : str)
| PInt (z : Z)
| PBool (b : bool).

(** [bool(v)] *)
Definition truthy (v : pyval) : bool :=
  match v with
  | PNone => false
  | PStr s => match s with [] => false | _ :: _ => true end
  | PInt z => negb (z =? 0)
  | PBool b => b
  end.

(** [a and b], [a or b] *)
Definition py_and (a b : pyval) : pyval := if truthy a then b else a.
Definition py_or (a b : pyval) : pyval := if truthy a then a else b.

(** [app.config]: the keys that are set, with their values. *)
Definition Config : Type := list (string * pyval).

Fixpoint lookup (cfg : Config) (key : string) : option pyval :=
  match cfg with
  | [] => None
  | (k, v) :: rest => if String.eqb k key then Some v else lookup rest key
  end.

(** [app.config.get(key, default)]; the default is [None] when not given. *)
Definition config_get (cfg : Config) (key : string) (default : pyval) : pyval :=
  match lookup cfg key with Some v => v | None => default end.

Record EmailService : Type := mkEmailService {
  smtp_host : pyval;
  smtp_port : pyval;
  smtp_user : pyval;
  smtp_password : pyval;
  smtp_use_tls : pyval;
  from_email : pyval;
  from_name : pyval;
  app_url : pyval;
  enabled : bool }.

(** [EmailService.__init__] without an app. *)
Definition unconfigured : EmailService :=
  mkEmailService PNone PNone PNone PNone (PBool true) PNone
                 (PStr (lit "DailyNotes")) (PStr (lit "http://localhost:8000")) false.

Definition init_app (cfg : Config) : EmailService :=
  let host := config_get cfg "SMTP_HOST" PNone in
  let port := config_get cfg "SMTP_PORT" (PInt 587) in
  let user := config_get cfg "SMTP_USER" PNone in
  let password := config_get cfg "SMTP_PASSWORD" PNone in
  let use_tls := config_get cfg "SMTP_USE_TLS" (PBool true) in
  let from := py_or (config_get cfg "SMTP_FROM_EMAIL" PNone) user in
  let name := config_get cfg "SMTP_FROM_NAME" (PStr (lit "DailyNotes")) in
  let url := config_get cfg "APP_URL" (PStr (lit "http://localhost:8000")) in
  mkEmailService host port user password use_tls from name url
                 (truthy (py_and (py_and host user) password)).

Definition is_enabled (self : EmailService) : bool := enabled self.

(** A [MIMEMultipart("alternative")] message: its headers in the order
    they are set, and its parts as (subtype, text). *)
Record Message : Type := mkMessage {
  headers : list (string * str);
  parts : list (string * str) }.

(** The keyword arguments of [aiosmtplib.send]. *)
Record SendArgs : Type := mkSendArgs {
  hostname : pyval;
  port : pyval;
  username : pyval;
  password : pyval;
  start_tls : pyval }.

(** A raised exception, by its class.  [ExceptionInstance] is an instance
    of [Exception] or of a class derived from it (SMTPException, OSError,
    TimeoutError, ValueError, UnicodeEncodeError, ...).
    [BaseExceptionInstance] is an instance of a class that derives from
    [BaseException] and not from [Exception]: [asyncio.CancelledError],
    [KeyboardInterrupt], [SystemExit], [GeneratorExit].  The text of an
    exception is not modelled. *)
Inductive PyException : Type :=
| ExceptionInstance (class : string)
| BaseExceptionInstance (class : string).

(** [isinstance(e, Exception)] *)
Definition isinstance_Exception (e : PyException) : bool :=
  match e with
  | ExceptionInstance _ => true
  | BaseExceptionInstance _ => false
  end.

(** How a call ends: it returns a value or raises. *)
Inductive outcome (A : Type) : Type :=
| Returns (a : A)
| Raises (e : PyException).
Arguments Returns {A} a.
Arguments Raises {A} e.

(** One statement after another: what the first raises, the whole raises. *)
Definition and_then {A B : Type} (first : outcome A) (next : A -> outcome B) : outcome B :=
  match first with
  | Returns a => next a
  | Raises e => Raises e
  end.

(** [try: body  except Exception as e: handler(e)]: the handler runs for
    the instances of [Exception]; any other exception goes on to the
    caller. *)
Definition try_except_Exception {A : Type} (body : outcome A)
    (handler : PyException -> outcome A) : outcome A :=
  match body with
  | Returns a => Returns a
  | Raises e => if isinstance_Exception e then handler e else Raises e
  end.

(** [str(v)] for the values an f-string formats. *)
Definition py_str (v : pyval) : str :=
  match v with
  | PNone => lit "None"
  | PStr s => s
  | PInt z => lit (DecimalString.NilZero.string_of_int (Z.to_int z))
  | PBool true => lit "True"
  | PBool false => lit "False"
  end.

(** [MIMEText(text, subtype)]: the constructor encodes the text, as
    us-ascii when it can and as utf-8 otherwise, and the utf-8 codec raises
    UnicodeEncodeError on a surrogate ([email.mime.text] and
    [Message.set_payload] of CPython 3.11). *)
Definition MIMEText (text : str) (subtype : string) : outcome (string * str) :=
  if existsb is_surrogate text
  then Raises (ExceptionInstance "UnicodeEncodeError")
  else Returns (subtype, text).

(** The statements of [send_email] between the guard and the [try]:
    setting a header does not raise; [MIMEText] may. *)
Definition build_message (self : EmailService) (to_email subject html_body : str)
    (text_body : option str) : outcome Message :=
  let hs := [ ("Subject", subject);
              ("From", py_str (from_name self) ++ lit " <" ++ py_str (from_email self)
                       ++ lit ">");
              ("To", to_email) ] in
  and_then
    (match text_body with
     | Some (c :: t) => and_then (MIMEText (c :: t) "plain") (fun part => Returns [part])
     | _ => Returns []
     end)
    (fun text_part =>
       and_then (MIMEText html_body "html")
         (fun html_part => Returns (mkMessage hs (text_part ++ [html_part])))).

(** [transport] stands for the awaited [aiosmtplib.send]. *)
Definition send_email (transport : Message -> SendArgs -> outcome unit)
    (self : EmailService) (to_email subject html_body : str)
    (text_body : option str) : outcome bool :=
  if negb (enabled self) then Returns false
  else
    and_then (build_message self to_email subject html_body text_body)
      (fun msg =>
         try_except_Exception
           (and_then
              (transport msg (mkSendArgs (smtp_host self) (smtp_port self) (smtp_user self)
                                         (smtp_password self) (smtp_use_tls self)))
              (fun _ => Returns true))
           (fun _ => Returns false)).

End Email.

(** ** Vocabulary of the statements *)

(** A lower-case hexadecimal digit. *)
Definition is_lower_hex (c : ascii) : bool :=
  existsb (Ascii.eqb c) (list_ascii_of_string "0123456789abcdef").

(** The row [create_auth_token] inserts for the secret [raw_token]. *)
Definition issued_row (now : datetime) (pk : GUID) (user : User) (token_type raw_token : string)
    : AuthToken :=
  mkAuthToken pk (user_uuid user) (hash_token raw_token) token_type (Some now)
    (if String.eqb token_type "password_reset"
     then now + PASSWORD_RESET_EXPIRY else now + MAGIC_LINK_EXPIRY)
    None.

(** ** Sample data, for the instances the properties are shown at *)

Module Sample.

Definition alice : User := mkUser 1 (Some "alice@example.com") "alice".
Definition bob : User := mkUser 2 (Some " Bob@Example.org ") "bob".
Definition carol : User := mkUser 3 None "carol".

(** 2023-11-14 22:13:20 UTC, in microseconds. *)
Definition t0 : datetime := 1700000000000000.

(** A draw of [secrets.token_bytes]: the bytes 0, 1, 2, ... *)
Definition counting_bytes (n : nat) : list Z := map Z.of_nat (seq 0 n).

(** An unused password-reset token of alice, issued ten minutes before
    [t0]; a magic-link token of bob, consumed two days before [t0]. *)
Definition old_reset : AuthToken :=
  mkAuthToken 10 1 (hash_token "first-secret") "password_reset"
              (Some (t0 - minutes 10)) (t0 + minutes 50) None.
Definition old_magic : AuthToken :=
  mkAuthToken 11 2 (hash_token "second-secret") "magic_link"
              (Some (t0 - days 2 - minutes 5)) (t0 - days 2 + minutes 10)
              (Some (t0 - days 2)).

Definition store0 : Store := mkStore [alice; bob; carol] [old_reset; old_magic] [].

End Sample.

(** A row with its [token_hash] column blanked: what is left of the row
    when the hash is put aside. *)
Definition without_hash (r : AuthToken) : AuthToken :=
  mkAuthToken (at_uuid r) (at_user_id r) "" (at_token_type r)
              (at_created_at r) (at_expires_at r) (at_used_at r).

(** The rows [check_rate_limit] counts at time [now]. *)
Definition counted (now : datetime) (email action_type : string) (s : Store)
    : list RateLimit :=
  filter (recent_request (hash_email_for_rate_limit email) action_type
                         (now - RATE_LIMIT_WINDOW))
         (rate_limits s).

(** A caller recording one action per attempt, each at its time and with
    the key the store gives its row. *)
Fixpoint record_attempts (attempts : list (datetime * GUID)) (email action_type : string)
    : DB unit :=
  match attempts with
  | [] => ret tt
  | (t, pk) :: rest =>
      record_rate_limit t pk email action_type ;;;
      record_attempts rest email action_type
  end.

(** Four attempts of alice, a minute apart from [Sample.t0] on. *)
Definition four_attempts : list (datetime * GUID) :=
  [ (Sample.t0, 20%N); (Sample.t0 + minutes 1, 21%N);
    (Sample.t0 + minutes 2, 22%N); (Sample.t0 + minutes 3, 23%N) ].

(** A configuration key is present when it is set to a value that Python
    counts as true (not [None], not the empty string). *)
Definition present (cfg : Email.Config) (key : string) : Prop :=
  exists v : Email.pyval, Email.lookup cfg key = Some v /\ Email.truthy v = true.

(** A full configuration, one whose password is the empty string, a
    transport that refuses every message, one that accepts every message
    and one whose send is cancelled. *)
Definition smtp_config : Email.Config :=
  [ ("SMTP_HOST", Email.PStr (Email.lit "mail.example.com")); ("SMTP_PORT", Email.PInt 587);
    ("SMTP_USER", Email.PStr (Email.lit "notes"));
    ("SMTP_PASSWORD", Email.PStr (Email.lit "hunter2"));
    ("SMTP_USE_TLS", Email.PBool true); ("SMTP_FROM_EMAIL", Email.PNone) ].

Definition smtp_config_no_password : Email.Config :=
  [ ("SMTP_HOST", Email.PStr (Email.lit "mail.example.com"));
    ("SMTP_USER", Email.PStr (Email.lit "notes"));
    ("SMTP_PASSWORD", Email.PStr (Email.lit "")) ].

Definition refusing_transport (_ : Email.Message) (_ : Email.SendArgs)
    : Email.outcome unit :=
  Email.Raises (Email.ExceptionInstance "SMTPConnectError").

Definition accepting_transport (_ : Email.Message) (_ : Email.SendArgs)
    : Email.outcome unit :=
  Email.Returns tt.

Definition cancelled_transport (_ : Email.Message) (_ : Email.SendArgs)
    : Email.outcome unit :=
  Email.Raises (Email.BaseExceptionInstance "CancelledError").

(** A token row kept long past its use: it expires a week after [Sample.t0]
    and was consumed at [Sample.t0]. *)
Definition long_lived_used : AuthToken :=
  mkAuthToken 30 3 (hash_token "third-secret") "magic_link"
              (Some Sample.t0) (Sample.t0 + days 7) (Some Sample.t0).

Definition store_with_used : Store :=
  mkStore [Sample.alice; Sample.bob; Sample.carol]
          [Sample.old_reset; long_lived_used; Sample.old_magic]
          [ mkRateLimit 40 (hash_email_for_rate_limit "alice@example.com") "magic_link"
                        (Some (Sample.t0 + days 2 - minutes 30));
            mkRateLimit 41 (hash_email_for_rate_limit "alice@example.com") "magic_link"
                        (Some (Sample.t0 + days 2 - hours 2));
            mkRateLimit 42 (hash_email_for_rate_limit "bob@example.org") "password_reset"
                        None ].

(** A character of the URL-safe base64 alphabet. *)
Definition is_urlsafe (c : ascii) : bool :=
  existsb (Ascii.eqb c) Base64.urlsafe_alphabet.

Fixpoint string_forallb (p : ascii -> bool) (s : string) : bool :=
  match s with
  | EmptyString => true
  | String c s' => p c && string_forallb p s'
  end.

(** A row with its [used_at] column blanked. *)
Definition without_used_at (r : AuthToken) : AuthToken := set_used_at r None.

(** A second draw of [secrets.token_bytes]: the bytes 255, 254, 253, ... *)
Definition descending_bytes (n : nat) : list Z := map (fun i => 255 - Z.of_nat i) (seq 0 n).

(** ** [app/email_service.py]: the two notifications *)

Module Notifier.

(** The double quote, which a string of this file cannot hold. *)
Definition dq : Email.str := [34%N].

(** An f-string: its literal pieces and the values it formats, in order. *)
Definition fstring (parts : list Email.str) : Email.str := List.concat parts.

(** [EmailService(app)]: the defaults of [__init__], then [init_app] when
    an app is given. *)
Definition EmailService_init (app : option Email.Config) : Email.EmailService :=
  match app with
  | Some cfg => Email.init_app cfg
  | None => Email.unconfigured
  end.

(** The module's global instance, before the application initialises it. *)
Definition email_service : Email.EmailService := EmailService_init None.

Definition password_reset_html (reset_url : Email.str) : Email.str :=
  fstring [ Email.lit "
<!DOCTYPE html>
<html>
<head>
    <meta charset="; dq; Email.lit "utf-8"; dq; Email.lit ">
    <meta name="; dq; Email.lit "viewport"; dq; Email.lit " content="; dq; Email.lit "width=device-width, initial-scale=1.0"; dq; Email.lit ">
</head>
<body style="; dq; Email.lit "font-family: -apple-system, BlinkMacSystemFont, 'Segoe UI', Roboto, 'Helvetica Neue', Arial, sans-serif; margin: 0; padding: 20px; background-color: #f5f5f5;"; dq; Email.lit ">
    <div style="; dq; Email.lit "max-width: 600px; margin: 0 auto; background-color: #ffffff; border-radius: 8px; padding: 40px; box-shadow: 0 2px 4px rgba(0,0,0,0.1);"; dq; Email.lit ">
        <h1 style="; dq; Email.lit "color: #333; margin-top: 0; margin-bottom: 24px;"; dq; Email.lit ">Reset Your Password</h1>
        <p style="; dq; Email.lit "color: #555; line-height: 1.6; margin-bottom: 24px;"; dq; Email.lit ">
            You requested to reset your DailyNotes password. Click the button below to set a new password:
        </p>
        <p style="; dq; Email.lit "margin: 32px 0; text-align: center;"; dq; Email.lit ">
            <a href="; dq; reset_url; dq; Email.lit " style="; dq; Email.lit "background-color: #48c774; color: #ffffff; padding: 14px 32px; text-decoration: none; border-radius: 6px; display: inline-block; font-weight: 600; font-size: 16px;"; dq; Email.lit ">
                Reset Password
            </a>
        </p>
        <p style="; dq; Email.lit "color: #888; font-size: 14px; line-height: 1.5; margin-bottom: 8px;"; dq; Email.lit ">
            This link will expire in <strong>1 hour</strong>.
        </p>
        <p style="; dq; Email.lit "color: #888; font-size: 14px; line-height: 1.5;"; dq; Email.lit ">
            If you didn't request this, you can safely ignore this email. Your password will remain unchanged.
        </p>
        <hr style="; dq; Email.lit "border: none; border-top: 1px solid #eee; margin: 32px 0;"; dq; Email.lit ">
        <p style="; dq; Email.lit "color: #aaa; font-size: 12px; line-height: 1.5; margin-bottom: 0;"; dq; Email.lit ">
            If the button doesn't work, copy and paste this URL into your browser:<br>
            <a href="; dq; reset_url; dq; Email.lit " style="; dq; Email.lit "color: #48c774; word-break: break-all;"; dq; Email.lit ">"; reset_url; Email.lit "</a>
        </p>
    </div>
</body>
</html>
" ].

Definition password_reset_text (reset_url : Email.str) : Email.str :=
  fstring [ Email.lit "Reset Your Password

You requested to reset your DailyNotes password.
Visit this link to set a new password: "; reset_url; Email.lit "

This link will expire in 1 hour.

If you didn't request this, you can safely ignore this email.
Your password will remain unchanged.
" ].

Definition send_password_reset
    (transport : Email.Message -> Email.SendArgs -> Email.outcome unit)
    (self : Email.EmailService) (to_email token : Email.str) : Email.outcome bool :=
  let reset_url :=
    fstring [Email.py_str (Email.app_url self); Email.lit "/auth/reset-password?token=";
             token] in
  let subject := Email.lit "Reset Your DailyNotes Password" in
  let html_body := password_reset_html reset_url in
  let text_body := password_reset_text reset_url in
  Email.send_email transport self to_email subject html_body (Some text_body).

Definition magic_link_html (login_url : Email.str) : Email.str :=
  fstring [ Email.lit "
<!DOCTYPE html>
<html>
<head>
    <meta charset="; dq; Email.lit "utf-8"; dq; Email.lit ">
    <meta name="; dq; Email.lit "viewport"; dq; Email.lit " content="; dq; Email.lit "width=device-width, initial-scale=1.0"; dq; Email.lit ">
</head>
<body style="; dq; Email.lit "font-family: -apple-system, BlinkMacSystemFont, 'Segoe UI', Roboto, 'Helvetica Neue', Arial, sans-serif; margin: 0; padding: 20px; background-color: #f5f5f5;"; dq; Email.lit ">
    <div style="; dq; Email.lit "max-width: 600px; margin: 0 auto; background-color: #ffffff; border-radius: 8px; padding: 40px; box-shadow: 0 2px 4px rgba(0,0,0,0.1);"; dq; Email.lit ">
        <h1 style="; dq; Email.lit "color: #333; margin-top: 0; margin-bottom: 24px;"; dq; Email.lit ">Sign in to DailyNotes</h1>
        <p style="; dq; Email.lit "color: #555; line-height: 1.6; margin-bottom: 24px;"; dq; Email.lit ">
            Click the button below to sign in to your account:
        </p>
        <p style="; dq; Email.lit "margin: 32px 0; text-align: center;"; dq; Email.lit ">
            <a href="; dq; login_url; dq; Email.lit " style="; dq; Email.lit "background-color: #3273dc; color: #ffffff; padding: 14px 32px; text-decoration: none; border-radius: 6px; display: inline-block; font-weight: 600; font-size: 16px;"; dq; Email.lit ">
                Sign In
            </a>
        </p>
        <p style="; dq; Email.lit "color: #888; font-size: 14px; line-height: 1.5; margin-bottom: 8px;"; dq; Email.lit ">
            This link will expire in <strong>15 minutes</strong>.
        </p>
        <p style="; dq; Email.lit "color: #888; font-size: 14px; line-height: 1.5;"; dq; Email.lit ">
            If you didn't request this, you can safely ignore this email.
        </p>
        <hr style="; dq; Email.lit "border: none; border-top: 1px solid #eee; margin: 32px 0;"; dq; Email.lit ">
        <p style="; dq; Email.lit "color: #aaa; font-size: 12px; line-height: 1.5; margin-bottom: 0;"; dq; Email.lit ">
            If the button doesn't work, copy and paste this URL into your browser:<br>
            <a href="; dq; login_url; dq; Email.lit " style="; dq; Email.lit "color: #3273dc; word-break: break-all;"; dq; Email.lit ">"; login_url; Email.lit "</a>
        </p>
    </div>
</body>
</html>
" ].

Definition magic_link_text (login_url : Email.str) : Email.str :=
  fstring [ Email.lit "Sign in to DailyNotes

Click this link to sign in to your account: "; login_url; Email.lit "

This link will expire in 15 minutes.

If you didn't request this, you can safely ignore this email.
" ].

Definition send_magic_link
    (transport : Email.Message -> Email.SendArgs -> Email.outcome unit)
    (self : Email.EmailService) (to_email token : Email.str) : Email.outcome bool :=
  let login_url :=
    fstring [Email.py_str (Email.app_url self); Email.lit "/auth/verify-magic-link?token=";
             token] in
  let subject := Email.lit "Sign in to DailyNotes" in
  let html_body := magic_link_html login_url in
  let text_body := magic_link_text login_url in
  Email.send_email transport self to_email subject html_body (Some text_body).

End Notifier.

(** [needle] occurs in [hay]. *)
Definition occurs_in (needle hay : Email.str) : Prop :=
  exists before after : Email.str, hay = before ++ needle ++ after.

(** A [str] the utf-8 codec encodes: it holds no surrogate. *)
Definition encodable (s : Email.str) : Prop := existsb Email.is_surrogate s = false.

(** ** [migrations/versions]: the schema and the Alembic operations

    A migration script is the list of the operations it issues, in order;
    an operation the database rejects (a table or column that is missing or
    already there) makes the run fail. *)

Module Alembic.

Inductive sqltype : Type :=
| GUID
| String_ (length : nat)
| LargeBinary
| DateTime (timezone : bool)
| Boolean
| Text.

Inductive default : Type :=
| NoDefault
| DefaultText (text : string)
| DefaultNow.

(** [sa.Column(name, type, nullable=..., server_default=...)]; a column is
    nullable unless declared otherwise. *)
Record Column : Type := mkColumn {
  col_name : string;
  col_type : sqltype;
  col_nullable : bool;
  col_server_default : default }.

Inductive constraint : Type :=
| PrimaryKeyConstraint (columns : list string)
| ForeignKeyConstraint (columns refcolumns : list string) (ondelete : option string).

Record Table : Type := mkTable {
  tbl_name : string;
  tbl_columns : list Column;
  tbl_constraints : list constraint }.

Record Index : Type := mkIndex {
  ix_name : string;
  ix_table : string;
  ix_columns : list string;
  ix_unique : bool }.

Record Schema : Type := mkSchema {
  tables : list Table;
  indexes : list Index }.

Definition has_column (name : string) (t : Table) : bool :=
  existsb (fun c => String.eqb (col_name c) name) (tbl_columns t).

Definition find_table (name : string) (s : Schema) : option Table :=
  find (fun t => String.eqb (tbl_name t) name) (tables s).

Definition has_index (name : string) (s : Schema) : bool :=
  existsb (fun i => String.eqb (ix_name i) name) (indexes s).

(** Alters the table called [name]; fails when there is none or when the
    alteration fails. *)
Fixpoint alter (name : string) (f : Table -> option Table) (ts : list Table)
    : option (list Table) :=
  match ts with
  | [] => None
  | t :: rest =>
      if String.eqb (tbl_name t) name
      then option_map (fun t' => t' :: rest) (f t)
      else option_map (cons t) (alter name f rest)
  end.

Fixpoint remove_table (name : string) (ts : list Table) : option (list Table) :=
  match ts with
  | [] => None
  | t :: rest =>
      if String.eqb (tbl_name t) name then Some rest
      else option_map (cons t) (remove_table name rest)
  end.

Inductive operation : Type :=
| add_column (table : string) (column : Column)
| drop_column (table : string) (column : string)
| create_table (name : string) (columns : list Column) (constraints : list constraint)
| create_index (name table : string) (columns : list string) (unique : bool)
| drop_table (name : string).

Definition apply (o : operation) (s : Schema) : option Schema :=
  match o with
  | add_column table column =>
      option_map (fun ts => mkSchema ts (indexes s))
        (alter table
           (fun t => if has_column (col_name column) t then None
                     else Some (mkTable (tbl_name t) (tbl_columns t ++ [column])
                                        (tbl_constraints t)))
           (tables s))
  | drop_column table column =>
      option_map (fun ts => mkSchema ts (indexes s))
        (alter table
           (fun t => if has_column column t
                     then Some (mkTable (tbl_name t)
                                  (filter (fun c => negb (String.eqb (col_name c) column))
                                          (tbl_columns t))
                                  (tbl_constraints t))
                     else None)
           (tables s))
  | create_table name columns constraints =>
      match find_table name s with
      | Some _ => None
      | None => Some (mkSchema (tables s ++ [mkTable name columns constraints]) (indexes s))
      end
  | create_index name table columns unique =>
      match find_table table s with
      | Some t =>
          if has_index name s || negb (forallb (fun c => has_column c t) columns)
          then None
          else Some (mkSchema (tables s) (indexes s ++ [mkIndex name table columns unique]))
      | None => None
      end
  | drop_table name =>
      option_map
        (fun ts => mkSchema ts
                     (filter (fun i => negb (String.eqb (ix_table i) name)) (indexes s)))
        (remove_table name (tables s))
  end.

Fixpoint run (script : list operation) (s : Schema) : option Schema :=
  match script with
  | [] => Some s
  | o :: rest =>
      match apply o s with
      | Some s' => run rest s'
      | None => None
      end
  end.

Record Migration : Type := mkMigration {
  revision : string;
  down_revision : string;
  upgrade : list operation;
  downgrade : list operation }.

(** [week_start_monday_column.py] *)
Definition week_start_monday_column : Migration :=
  mkMigration "week_start_monday_001" "f1803e0263f1"
    [ add_column "user" (mkColumn "week_start_monday" Boolean true (DefaultText "0")) ]
    [ drop_column "user" "week_start_monday" ].

(** [email_and_auth_tokens.py] *)
Definition email_and_auth_tokens : Migration :=
  mkMigration "email_auth_tokens_001" "week_start_monday_001"
    [ add_column "user" (mkColumn "email" LargeBinary true NoDefault);
      create_table "auth_token"
        [ mkColumn "uuid" GUID false NoDefault;
          mkColumn "user_id" GUID false NoDefault;
          mkColumn "token_hash" (String_ 128) false NoDefault;
          mkColumn "token_type" (String_ 32) false NoDefault;
          mkColumn "created_at" (DateTime true) true DefaultNow;
          mkColumn "expires_at" (DateTime true) false NoDefault;
          mkColumn "used_at" (DateTime true) true NoDefault ]
        [ PrimaryKeyConstraint ["uuid"];
          ForeignKeyConstraint ["user_id"] ["user.uuid"] (Some "CASCADE") ];
      create_index "ix_auth_token_uuid" "auth_token" ["uuid"] true;
      create_index "ix_auth_token_token_hash" "auth_token" ["token_hash"] false;
      create_table "rate_limit"
        [ mkColumn "uuid" GUID false NoDefault;
          mkColumn "identifier" (String_ 256) false NoDefault;
          mkColumn "action_type" (String_ 32) false NoDefault;
          mkColumn "timestamp" (DateTime true) true DefaultNow ]
        [ PrimaryKeyConstraint ["uuid"] ];
      create_index "ix_rate_limit_uuid" "rate_limit" ["uuid"] true;
      create_index "ix_rate_limit_identifier" "rate_limit" ["identifier"] false ]
    [ drop_table "rate_limit";
      drop_table "auth_token";
      drop_column "user" "email" ].

(** [note_templates.py] *)
Definition note_templates : Migration :=
  mkMigration "note_templates_001" "email_auth_tokens_001"
    [ add_column "user" (mkColumn "daily_template" Text true NoDefault);
      add_column "user" (mkColumn "note_template" Text true NoDefault) ]
    [ drop_column "user" "note_template";
      drop_column "user" "daily_template" ].

(** The scripts of the directory, in the order of their file names. *)
Definition versions : list Migration :=
  [ email_and_auth_tokens; note_templates; week_start_monday_column ].

(** [alembic upgrade head]: from revision [current], apply the migration
    that revises it, then the one that revises that one, and so on; at most
    [steps] migrations.  Returns the revision reached and the schema. *)
Fixpoint upgrade_head (steps : nat) (current : string) (s : Schema)
    : option (string * Schema) :=
  match steps with
  | O => Some (current, s)
  | S n =>
      match find (fun m => String.eqb (down_revision m) current) versions with
      | None => Some (current, s)
      | Some m =>
          match run (upgrade m) s with
          | Some s' => upgrade_head n (revision m) s'
          | None => None
          end
      end
  end.

(** [alembic downgrade target]: undo the current revision's migration, then
    its predecessor's, until [target] is the current revision. *)
Fixpoint downgrade_to (steps : nat) (target current : string) (s : Schema)
    : option (string * Schema) :=
  match steps with
  | O => Some (current, s)
  | S n =>
      if String.eqb current target then Some (current, s)
      else
        match find (fun m => String.eqb (revision m) current) versions with
        | None => None
        | Some m =>
            match run (downgrade m) s with
            | Some s' => downgrade_to n target (down_revision m) s'
            | None => None
            end
        end
  end.

End Alembic.

(** A schema at revision f1803e0263f1: a user table, and a note table with
    an index. *)
Definition base_schema : Alembic.Schema :=
  Alembic.mkSchema
    [ Alembic.mkTable "user"
        [ Alembic.mkColumn "uuid" Alembic.GUID false Alembic.NoDefault;
          Alembic.mkColumn "username" (Alembic.String_ 64) false Alembic.NoDefault ]
        [ Alembic.PrimaryKeyConstraint ["uuid"] ];
      Alembic.mkTable "note"
        [ Alembic.mkColumn "uuid" Alembic.GUID false Alembic.NoDefault;
          Alembic.mkColumn "user_id" Alembic.GUID false Alembic.NoDefault ]
        [ Alembic.PrimaryKeyConstraint ["uuid"] ] ]
    [ Alembic.mkIndex "ix_note_uuid" "note" ["uuid"] true ].

(** The first table called [table] has a column called [column]. *)
Definition holds_column (table column : string) (ts : list Alembic.Table) : Prop :=
  exists t : Alembic.Table,
    find (fun x => String.eqb (Alembic.tbl_name x) table) ts = Some t
    /\ Alembic.has_column column t = true.

(** A value of a byte. *)
Definition is_byte (b : Z) : Prop := 0 <= b < 256.

(** The "=" that complete the encoding of [n] bytes. *)
Definition padding_of (n : nat) : string :=
  match (n mod 3)%nat with
  | 0%nat => ""
  | 1%nat => "=="
  | _ => "="
  end.

(** ** Sequences of calls

    A call of one of the functions of [app/auth_tokens.py], with its
    arguments and the readings (clock, entropy, primary key) it makes. *)
Inductive call : Type :=
| CheckRateLimit (now : datetime) (email action_type : string)
| RecordRateLimit (now : datetime) (pk : GUID) (email action_type : string)
| CreateAuthToken (token_bytes : nat -> list Z) (now : datetime) (pk : GUID)
                  (user : User) (token_type : string)
| ValidateToken (now : datetime) (raw_token token_type : string)
| InvalidateToken (now : datetime) (raw_token : string)
| CleanupExpiredTokens (now : datetime)
| GetUserByEmail (email : string).

(** The store a call leaves. *)
Definition perform (c : call) (s : Store) : Store :=
  match c with
  | CheckRateLimit now email action_type => snd (check_rate_limit now email action_type s)
  | RecordRateLimit now pk email action_type =>
      snd (record_rate_limit now pk email action_type s)
  | CreateAuthToken token_bytes now pk user token_type =>
      snd (create_auth_token token_bytes now pk user token_type s)
  | ValidateToken now raw_token token_type => snd (validate_token now raw_token token_type s)
  | InvalidateToken now raw_token => snd (invalidate_token now raw_token s)
  | CleanupExpiredTokens now => snd (cleanup_expired_tokens now s)
  | GetUserByEmail email => snd (get_user_by_email email s)
  end.

Definition perform_all (calls : list call) (s : Store) : Store :=
  fold_left (fun s' c => perform c s') calls s.

(** At most one unused token per user and type. *)
Definition one_unused_per_pair (s : Store) : Prop :=
  forall (user_id : GUID) (token_type : string),
    (List.length (filter (unused_of user_id token_type) (auth_tokens s)) <= 1)%nat.

(** A SHA-256 digest in hexadecimal: 64 lower-case hexadecimal digits. *)
Definition is_digest (h : string) : Prop :=
  String.length h = 64%nat /\ forallb is_lower_hex (list_ascii_of_string h) = true.

(** The store holds digests only, where it holds secrets or e-mails. *)
Definition digests_only (s : Store) : Prop :=
  Forall (fun r => is_digest (at_token_hash r)) (auth_tokens s)
  /\ Forall (fun r => is_digest (rl_identifier r)) (rate_limits s).

(** A session of alice: two magic links requested, the second one used,
    then a clean-up. *)
Definition alice_session : list call :=
  [ RecordRateLimit Sample.t0 20 "alice@example.com" "magic_link";
    CreateAuthToken Sample.counting_bytes Sample.t0 12 Sample.alice "magic_link";
    RecordRateLimit (Sample.t0 + minutes 1) 21 "Alice@Example.com" "magic_link";
    CreateAuthToken descending_bytes (Sample.t0 + minutes 1) 13 Sample.alice "magic_link";
    ValidateToken (Sample.t0 + minutes 2) (generate_token descending_bytes) "magic_link";
    InvalidateToken (Sample.t0 + minutes 2) (generate_token descending_bytes);
    CleanupExpiredTokens (Sample.t0 + minutes 10) ].

Definition empty_store : Store := mkStore [Sample.alice; Sample.bob; Sample.carol] [] [].

(** * Properties *)

(** ** The library functions agree with Python on known answers *)

Example py_str_methods :
  PyStr.lower "  Alice@EXAMPLE.com " = "  alice@example.com "
  /\ PyStr.strip (String (PyStr.chr 9) " a b " ++ String (PyStr.chr 10) "") = "a b"
  /\ PyStr.strip "   " = ""
  /\ PyStr.lower (String (PyStr.chr 201) "") = String (PyStr.chr 233) ""
  /\ PyStr.encode (String (PyStr.chr 233) "a") = [195; 169; 97].
Proof. vm_compute. repeat split. Qed.

Example sha256_constants :
  List.length SHA256.primes = 64%nat
  /\ nth 0 SHA256.K 0 = 0x428a2f98 /\ nth 63 SHA256.K 0 = 0xc67178f2
  /\ SHA256.ha SHA256.init = 0x6a09e667 /\ SHA256.hh SHA256.init = 0x5be0cd19.
Proof. vm_compute. repeat split. Qed.

Example sha256_abc :
  SHA256.hexdigest (PyStr.encode "abc")
  = "ba7816bf8f01cfea414140de5dae2223b00361a396177a9cb410ff61f20015ad".
Proof. vm_compute. reflexivity. Qed.

Example sha256_empty :
  SHA256.hexdigest (PyStr.encode "")
  = "e3b0c44298fc1c149afbf4c8996fb92427ae41e4649b934ca495991b7852b855".
Proof. vm_compute. reflexivity. Qed.

Example sha256_two_blocks :
  SHA256.hexdigest (repeat 97 56)
  = "b35439a4ac6f0948b6d6f9e3c6af0f5f590ce20f1bde7090ef7970686ec6738a".
Proof. vm_compute. reflexivity. Qed.

Example token_urlsafe_counting :
  Base64.token_urlsafe (map Z.of_nat (seq 0 32))
  = "AAECAwQFBgcICQoLDA0ODxAREhMUFRYXGBkaGxwdHh8".
Proof. vm_compute. reflexivity. Qed.

Example token_urlsafe_ones :
  Base64.token_urlsafe (repeat 255 32)
  = "__________________________________________8".
Proof. vm_compute. reflexivity. Qed.

(** ** The shape of tokens and digests *)

Lemma sextet_not_pad (n : Z) : Base64.is_pad (Base64.sextet n) = false.
Proof.
  unfold Base64.sextet.
  destruct (nth_in_or_default (Z.to_nat n) Base64.urlsafe_alphabet "A"%char) as [Hin | ->].
  - revert Hin. generalize (nth (Z.to_nat n) Base64.urlsafe_alphabet "A"%char).
    intros c Hin.
    assert (Hall : forallb (fun a => negb (Base64.is_pad a)) Base64.urlsafe_alphabet = true)
      by (vm_compute; reflexivity).
    rewrite forallb_forall in Hall. specialize (Hall c Hin).
    now apply negb_true_iff in Hall.
  - reflexivity.
Qed.

(** Thirty-two bytes encode to forty-three characters and one "=", which
    [rstrip] removes. *)
Lemma token_urlsafe_32 (tok : list Z) :
  List.length tok = 32%nat -> String.length (Base64.token_urlsafe tok) = 43%nat.
Proof.
  intros Hlen.
  do 32 (destruct tok as [| ? tok]; [discriminate Hlen |]).
  destruct tok; [| discriminate Hlen].
  unfold Base64.token_urlsafe.
  cbn [Base64.urlsafe_b64encode].
  repeat match goal with
         | |- context [Base64.sextet ?e] =>
             let c := fresh "c" in
             let Hc := fresh "Hc" in
             pose proof (sextet_not_pad e) as Hc;
             set (c := Base64.sextet e) in *; clearbody c
         end.
  cbn [PyStr.rstrip_by].
  change (Base64.is_pad "=") with true. cbn iota.
  match goal with H : Base64.is_pad _ = false |- _ => rewrite H end.
  reflexivity.
Qed.

Lemma generate_token_length (token_bytes : nat -> list Z) :
  List.length (token_bytes 32%nat) = 32%nat ->
  String.length (generate_token token_bytes) = 43%nat.
Proof. apply token_urlsafe_32. Qed.

Lemma hex_length (bs : list Z) : String.length (SHA256.hex bs) = (2 * List.length bs)%nat.
Proof.
  induction bs as [| b bs IH]; [reflexivity |].
  cbn [SHA256.hex String.length List.length]. rewrite IH. lia.
Qed.

Lemma digest_length (msg : list Z) : List.length (SHA256.digest msg) = 32%nat.
Proof.
  unfold SHA256.digest, SHA256.digest_of, SHA256.be_bytes.
  repeat rewrite length_app. repeat rewrite length_map. reflexivity.
Qed.

Lemma hash_token_length (token : string) : String.length (hash_token token) = 64%nat.
Proof.
  unfold hash_token, SHA256.hexdigest. rewrite hex_length, digest_length. reflexivity.
Qed.

Lemma hex_digit_lower (n : Z) : is_lower_hex (SHA256.hex_digit n) = true.
Proof.
  unfold SHA256.hex_digit.
  destruct (nth_in_or_default (Z.to_nat n) (list_ascii_of_string "0123456789abcdef") "0"%char)
    as [Hin | ->]; [| reflexivity].
  revert Hin. generalize (nth (Z.to_nat n) (list_ascii_of_string "0123456789abcdef") "0"%char).
  intros c Hin. unfold is_lower_hex. apply existsb_exists.
  exists c. split; [exact Hin | apply Ascii.eqb_refl].
Qed.

Lemma hex_lower (bs : list Z) :
  forallb is_lower_hex (list_ascii_of_string (SHA256.hex bs)) = true.
Proof.
  induction bs as [| b bs IH]; [reflexivity |].
  cbn [SHA256.hex list_ascii_of_string forallb].
  now rewrite !hex_digit_lower, IH.
Qed.

(** ** Running the session monad *)

Ltac run_db :=
  unfold create_auth_token, validate_token, invalidate_token, cleanup_expired_tokens,
    check_rate_limit, record_rate_limit, get_user_by_email,
    auth_query_first, auth_query_delete, rate_query_count,
    rate_query_delete, user_query_all, user_query_get, add_auth, add_rate, update_auth,
    commit, bind, ret in *;
  cbn [fst snd users auth_tokens rate_limits] in *.

(** Closes a goal from [H : a = b] for two closed strings that differ. *)
Ltac strings_differ H :=
  exfalso; refine (proj1 (String.eqb_neq _ _) _ H); vm_compute; reflexivity.

Lemma find_none_iff {A : Type} (p : A -> bool) (l : list A) :
  find p l = None <-> Forall (fun x => p x = false) l.
Proof.
  induction l as [| a l IH]; cbn.
  - split; [constructor | reflexivity].
  - destruct (p a) eqn:Ha.
    + split; [discriminate | intros H; inversion H; congruence].
    + rewrite IH. split; [now constructor | intros H; now inversion H].
Qed.

Lemma find_app_skip {A : Type} (p : A -> bool) (l1 l2 : list A) :
  Forall (fun x => p x = false) l1 -> find p (l1 ++ l2) = find p l2.
Proof.
  induction 1 as [| a l Ha _ IH]; cbn; [reflexivity |].
  now rewrite Ha.
Qed.

Lemma Forall_filter {A : Type} (P : A -> Prop) (f : A -> bool) (l : list A) :
  Forall P l -> Forall P (filter f l).
Proof.
  induction 1 as [| a l Ha _ IH]; cbn; [constructor |].
  destruct (f a); [now constructor | exact IH].
Qed.

Lemma valid_for_needs_hash (h tt : string) (now : datetime) (r : AuthToken) :
  at_token_hash r <> h -> valid_for h tt now r = false.
Proof.
  intros Hne. unfold valid_for.
  destruct (String.eqb_spec (at_token_hash r) h); [contradiction | reflexivity].
Qed.

Lemma valid_for_needs_unused (h tt : string) (now : datetime) (r : AuthToken) :
  at_used_at r <> None -> valid_for h tt now r = false.
Proof.
  intros Hu. unfold valid_for.
  destruct (at_used_at r); [| contradiction].
  cbn. now rewrite !andb_false_r.
Qed.

(** The store after [create_auth_token]. *)
Lemma create_auth_token_run (token_bytes : nat -> list Z) (now : datetime) (pk : GUID)
    (user : User) (token_type : string) (s : Store) :
  create_auth_token token_bytes now pk user token_type s
  = (generate_token token_bytes,
     mkStore (users s)
       (filter (fun r => negb (unused_of (user_uuid user) token_type r)) (auth_tokens s)
        ++ [issued_row now pk user token_type (generate_token token_bytes)])
       (rate_limits s)).
Proof. reflexivity. Qed.

(** What [validate_token] and [invalidate_token] compute, the session
    unfolded. *)
Lemma validate_token_run (now : datetime) (raw_token token_type : string) (s : Store) :
  validate_token now raw_token token_type s
  = (match find (valid_for (hash_token raw_token) token_type now) (auth_tokens s) with
     | Some t => find (fun u => N.eqb (user_uuid u) (at_user_id t)) (users s)
     | None => None
     end, s).
Proof. run_db. now destruct (find _ (auth_tokens s)). Qed.

Lemma invalidate_token_run (now : datetime) (raw_token : string) (s : Store) :
  invalidate_token now raw_token s
  = match find (fun r => String.eqb (at_token_hash r) (hash_token raw_token))
                (auth_tokens s) with
    | Some t =>
        (true,
         mkStore (users s)
           (map (fun x => if N.eqb (at_uuid x) (at_uuid t)
                          then set_used_at t (Some now) else x) (auth_tokens s))
           (rate_limits s))
    | None => (false, s)
    end.
Proof. run_db. now destruct (find _ (auth_tokens s)). Qed.

(** ** The life of a password-reset token *)

(** C1. Issuing a password-reset token for a stored user [U] yields a
    43-character secret [T]; validating [T] as a password-reset token before
    its expiry returns [U]; invalidating [T] then returns true; and from then
    on validating [T] returns nothing, at any time and however often (the
    validation leaves the store as it was).  The secret is fresh: the 32
    random bytes give a token whose hash is not already in the table. *)
Theorem password_reset_token_life
    (token_bytes : nat -> list Z) (s0 : Store) (U : User) (pk : GUID)
    (t_issue t_check t_use t_later : datetime) :
  List.length (token_bytes 32%nat) = 32%nat ->
  fst (user_query_get (user_uuid U) s0) = Some U ->
  Forall (fun r => at_token_hash r <> hash_token (generate_token token_bytes))
         (auth_tokens s0) ->
  t_check < t_issue + PASSWORD_RESET_EXPIRY ->
  let (T, s1) := create_auth_token token_bytes t_issue pk U "password_reset" s0 in
  let (found, s2) := validate_token t_check T "password_reset" s1 in
  let (done, s3) := invalidate_token t_use T s2 in
  let (again, s4) := validate_token t_later T "password_reset" s3 in
  String.length T = 43%nat /\ found = Some U /\ done = true /\ again = None /\ s4 = s3.
Proof.
  intros Hlen Huser Hfresh Hbefore.
  rewrite create_auth_token_run.
  set (T := generate_token token_bytes) in *.
  set (row := issued_row t_issue pk U "password_reset" T).
  set (kept := filter (fun r => negb (unused_of (user_uuid U) "password_reset" r))
                      (auth_tokens s0)).
  assert (Hkept : Forall (fun r => at_token_hash r <> hash_token T) kept)
    by (apply Forall_filter; exact Hfresh).
  assert (Hrow_valid : valid_for (hash_token T) "password_reset" t_check row = true).
  { unfold valid_for, row, issued_row.
    cbn [at_token_hash at_token_type at_used_at at_expires_at is_null].
    rewrite !String.eqb_refl. cbn [andb].
    apply Z.ltb_lt. exact Hbefore. }
  (* the validation finds the new row and resolves it to U *)
  rewrite validate_token_run. cbn [users auth_tokens rate_limits].
  rewrite find_app_skip
    by (eapply Forall_impl; [| exact Hkept]; intros r Hr; now apply valid_for_needs_hash).
  cbn [find]. rewrite Hrow_valid.
  change (at_user_id row) with (user_uuid U).
  unfold user_query_get in Huser; cbn [fst] in Huser. rewrite Huser.
  (* the invalidation finds the same row by its hash and stamps it *)
  rewrite invalidate_token_run. cbn [users auth_tokens rate_limits].
  rewrite find_app_skip
    by (eapply Forall_impl; [| exact Hkept]; intros r Hr; cbn beta;
        now apply String.eqb_neq).
  cbn [find]. change (at_token_hash row) with (hash_token T).
  rewrite String.eqb_refl.
  (* no row is valid for T any more *)
  rewrite validate_token_run. cbn [users auth_tokens rate_limits].
  match goal with
  | |- context [find ?p ?l] =>
      assert (Hnone : find p l = None)
  end.
  { apply find_none_iff. rewrite map_app. apply Forall_app. split.
    - apply Forall_forall. intros x Hx. apply in_map_iff in Hx.
      destruct Hx as [y [<- Hy]].
      destruct (N.eqb (at_uuid y) _).
      + now apply valid_for_needs_unused.
      + apply valid_for_needs_hash.
        rewrite Forall_forall in Hkept. now apply Hkept.
    - cbn [map]. rewrite N.eqb_refl. constructor; [| constructor].
      now apply valid_for_needs_unused. }
  rewrite Hnone.
  repeat split; try reflexivity.
  now apply generate_token_length.
Qed.

Lemma password_reset_token_life_witness :
  let (T, s1) :=
    create_auth_token Sample.counting_bytes Sample.t0 12 Sample.alice "password_reset"
                      Sample.store0 in
  let (found, s2) := validate_token (Sample.t0 + minutes 59) T "password_reset" s1 in
  let (done, s3) := invalidate_token (Sample.t0 + hours 2) T s2 in
  let (again, s4) := validate_token (Sample.t0 + minutes 30) T "password_reset" s3 in
  String.length T = 43%nat /\ found = Some Sample.alice /\ done = true /\ again = None
  /\ s4 = s3.
Proof.
  apply (password_reset_token_life Sample.counting_bytes Sample.store0 Sample.alice 12
           Sample.t0 (Sample.t0 + minutes 59) (Sample.t0 + hours 2)
           (Sample.t0 + minutes 30)).
  - reflexivity.
  - reflexivity.
  - repeat (constructor; [intro H; strings_differ H |]). constructor.
  - vm_compute. reflexivity.
Defined.

(** ** Validation is a read *)

(** C6. [validate_token] changes no stored state: for every secret, token
    type, time and store, whether or not a row matches, the store after the
    call is the store before it; in particular no [used_at] is set, and the
    user, token and rate-limit tables are what they were. *)
Theorem validate_token_reads_only
    (now : datetime) (raw_token token_type : string) (s : Store) :
  let s' := snd (validate_token now raw_token token_type s) in
  s' = s
  /\ map at_used_at (auth_tokens s') = map at_used_at (auth_tokens s)
  /\ users s' = users s /\ auth_tokens s' = auth_tokens s /\ rate_limits s' = rate_limits s.
Proof.
  rewrite validate_token_run. cbn [snd]. repeat split; reflexivity.
Qed.

(** ** Issuing a token *)

Lemma filter_complement {A : Type} (p : A -> bool) (l : list A) :
  filter p (filter (fun x => negb (p x)) l) = [].
Proof.
  induction l as [| a l IH]; [reflexivity |].
  cbn [filter]. destruct (p a) eqn:Ha; cbn [negb filter]; [exact IH |].
  now rewrite Ha.
Qed.

Lemma issued_row_unused (now : datetime) (pk : GUID) (user : User)
    (token_type raw_token : string) :
  unused_of (user_uuid user) token_type (issued_row now pk user token_type raw_token) = true.
Proof.
  unfold unused_of, issued_row. cbn [at_user_id at_token_type at_used_at is_null].
  now rewrite N.eqb_refl, String.eqb_refl.
Qed.

Lemma unused_after_create (token_bytes : nat -> list Z) (now : datetime) (pk : GUID)
    (user : User) (token_type : string) (s : Store) :
  filter (unused_of (user_uuid user) token_type)
         (auth_tokens (snd (create_auth_token token_bytes now pk user token_type s)))
  = [issued_row now pk user token_type (generate_token token_bytes)].
Proof.
  rewrite create_auth_token_run. cbn [snd auth_tokens].
  rewrite filter_app, filter_complement. cbn [filter app].
  now rewrite issued_row_unused.
Qed.

Lemma valid_for_true (h tt : string) (now : datetime) (r : AuthToken) :
  valid_for h tt now r = true ->
  at_token_hash r = h /\ at_token_type r = tt /\ at_used_at r = None /\ now < at_expires_at r.
Proof.
  unfold valid_for. rewrite !andb_true_iff.
  intros [[[Hh Ht] Hu] He].
  apply String.eqb_eq in Hh, Ht. apply Z.ltb_lt in He.
  destruct (at_used_at r); [discriminate | auto].
Qed.

(** C3. After [create_auth_token user token_type], whatever the table held
    before: the call has removed exactly the unused rows of that user and
    type and appended one new row; the unused rows of that user and type are
    that one row alone (so there is at most one); and a secret that still
    validates as [token_type] for that user is matched by that newest row. *)
Theorem create_auth_token_leaves_one_unused
    (token_bytes : nat -> list Z) (now : datetime) (pk : GUID) (user : User)
    (token_type : string) (s : Store) :
  let (T, s') := create_auth_token token_bytes now pk user token_type s in
  let newest := issued_row now pk user token_type T in
  auth_tokens s'
  = filter (fun r => negb (unused_of (user_uuid user) token_type r)) (auth_tokens s)
    ++ [newest]
  /\ filter (unused_of (user_uuid user) token_type) (auth_tokens s') = [newest]
  /\ (List.length (filter (unused_of (user_uuid user) token_type) (auth_tokens s')) <= 1)%nat
  /\ (forall (t : datetime) (raw : string) (r : AuthToken),
        fst (auth_query_first (valid_for (hash_token raw) token_type t) s') = Some r ->
        at_user_id r = user_uuid user -> r = newest)
  /\ (forall (t : datetime) (raw : string) (u : User),
        fst (validate_token t raw token_type s') = Some u ->
        user_uuid u = user_uuid user ->
        hash_token raw = hash_token T /\ t < at_expires_at newest).
Proof.
  pose proof (unused_after_create token_bytes now pk user token_type s) as Hone.
  rewrite create_auth_token_run in *. cbn [snd] in Hone.
  set (T := generate_token token_bytes) in *.
  set (newest := issued_row now pk user token_type T) in *.
  set (s' := mkStore _ _ _) in *.
  assert (Hsel : forall t raw r,
             find (valid_for (hash_token raw) token_type t) (auth_tokens s') = Some r ->
             at_user_id r = user_uuid user -> r = newest).
  { intros t raw r Hfind Hid.
    apply find_some in Hfind. destruct Hfind as [Hin Hvalid].
    apply valid_for_true in Hvalid. destruct Hvalid as (_ & Htt & Hunused & _).
    assert (Hr : In r (filter (unused_of (user_uuid user) token_type) (auth_tokens s'))).
    { apply filter_In. split; [exact Hin |].
      unfold unused_of. rewrite Hid, Htt, Hunused, N.eqb_refl, String.eqb_refl.
      reflexivity. }
    rewrite Hone in Hr. destruct Hr as [Hr | []]. now symmetry. }
  split; [reflexivity |].
  split; [exact Hone |].
  split; [rewrite Hone; cbn; lia |].
  split; [exact Hsel |].
  intros t raw u Hval Hu.
  rewrite validate_token_run in Hval. cbn [fst] in Hval.
  destruct (find (valid_for (hash_token raw) token_type t) (auth_tokens s')) as [r |] eqn:Hfind;
    [| discriminate].
  apply find_some in Hval. destruct Hval as [_ Hpk]. apply N.eqb_eq in Hpk.
  assert (Hr : r = newest) by (apply (Hsel t raw); [exact Hfind | congruence]).
  apply find_some in Hfind. destruct Hfind as [_ Hvalid].
  apply valid_for_true in Hvalid. destruct Hvalid as (Hh & _ & _ & He).
  subst r. split; [symmetry; exact Hh | exact He].
Qed.

(** C9. [create_auth_token] does not check [token_type]: for every type
    other than "password_reset", recognised or not, the new row is stored
    with that very type and expires fifteen minutes after the call. *)
Theorem create_auth_token_any_type
    (token_bytes : nat -> list Z) (now : datetime) (pk : GUID) (user : User)
    (token_type : string) (s : Store) :
  token_type <> "password_reset" ->
  let (T, s') := create_auth_token token_bytes now pk user token_type s in
  exists row : AuthToken,
    auth_tokens s'
    = filter (fun r => negb (unused_of (user_uuid user) token_type r)) (auth_tokens s)
      ++ [row]
    /\ row = mkAuthToken pk (user_uuid user) (hash_token T) token_type (Some now)
                         (now + MAGIC_LINK_EXPIRY) None
    /\ at_token_type row = token_type
    /\ at_expires_at row = now + minutes 15.
Proof.
  intros Hne. rewrite create_auth_token_run.
  eexists. split; [reflexivity |].
  unfold issued_row. apply String.eqb_neq in Hne. rewrite Hne.
  repeat split.
Qed.

Lemma create_auth_token_any_type_witness :
  "sudo" <> "password_reset"
  /\ auth_tokens (snd (create_auth_token Sample.counting_bytes Sample.t0 12 Sample.alice
                                          "sudo" Sample.store0))
     = [ Sample.old_reset; Sample.old_magic;
         mkAuthToken 12 1 (hash_token "AAECAwQFBgcICQoLDA0ODxAREhMUFRYXGBkaGxwdHh8")
                     "sudo" (Some Sample.t0) (Sample.t0 + minutes 15) None ].
Proof.
  assert (Hne : "sudo" <> "password_reset") by discriminate.
  split; [exact Hne |].
  pose proof (create_auth_token_any_type Sample.counting_bytes Sample.t0 12 Sample.alice
                "sudo" Sample.store0 Hne) as H.
  destruct (create_auth_token Sample.counting_bytes Sample.t0 12 Sample.alice "sudo"
              Sample.store0) as [T s'] eqn:Hrun.
  destruct H as [row [Htable [Hrow _]]].
  cbn [snd]. rewrite Htable, Hrow.
  rewrite create_auth_token_run in Hrun. injection Hrun as HT _. rewrite <- HT.
  reflexivity.
Defined.

Lemma create_auth_token_leaves_one_unused_witness :
  let s' := snd (create_auth_token Sample.counting_bytes Sample.t0 12 Sample.alice
                                   "password_reset" Sample.store0) in
  filter (unused_of 1 "password_reset") (auth_tokens Sample.store0) = [Sample.old_reset]
  /\ filter (unused_of 1 "password_reset") (auth_tokens s')
     = [issued_row Sample.t0 12 Sample.alice "password_reset"
                   "AAECAwQFBgcICQoLDA0ODxAREhMUFRYXGBkaGxwdHh8"]
  /\ fst (validate_token (Sample.t0 + minutes 1) "first-secret" "password_reset" s') = None.
Proof.
  pose proof (create_auth_token_leaves_one_unused Sample.counting_bytes Sample.t0 12
                Sample.alice "password_reset" Sample.store0) as H.
  rewrite create_auth_token_run in H. destruct H as (_ & Hone & _).
  rewrite create_auth_token_run. cbn [snd].
  split; [reflexivity |].
  split; [| vm_compute; reflexivity].
  replace "AAECAwQFBgcICQoLDA0ODxAREhMUFRYXGBkaGxwdHh8"
    with (generate_token Sample.counting_bytes) by (vm_compute; reflexivity).
  exact Hone.
Defined.

(** ** Only the hash of a secret is stored *)

(** C5. [create_auth_token] stores the hash and not the secret: the inserted
    row's [token_hash] is [hash_token] of the returned secret, which is the
    hexadecimal SHA-256 digest of the secret's UTF-8 bytes, 64 lower-case
    hexadecimal digits, and so not the 43-character secret; every other
    column of the row is an argument of the call fixed before the secret is
    drawn (key, user, type, time); and the whole store, hashes put aside, is
    the same whatever secret was drawn. *)
Theorem create_auth_token_stores_hash_only
    (token_bytes : nat -> list Z) (now : datetime) (pk : GUID) (user : User)
    (token_type : string) (s : Store) :
  List.length (token_bytes 32%nat) = 32%nat ->
  let (T, s') := create_auth_token token_bytes now pk user token_type s in
  exists row : AuthToken,
    auth_tokens s'
    = filter (fun r => negb (unused_of (user_uuid user) token_type r)) (auth_tokens s)
      ++ [row]
    /\ at_token_hash row = hash_token T
    /\ hash_token T = SHA256.hexdigest (PyStr.encode T)
    /\ String.length (at_token_hash row) = 64%nat
    /\ forallb is_lower_hex (list_ascii_of_string (at_token_hash row)) = true
    /\ at_token_hash row <> T
    /\ at_uuid row = pk
    /\ at_user_id row = user_uuid user
    /\ at_token_type row = token_type
    /\ at_created_at row = Some now
    /\ at_expires_at row = (if String.eqb token_type "password_reset"
                            then now + hours 1 else now + minutes 15)
    /\ at_used_at row = None
    /\ (forall other_bytes : nat -> list Z,
          let s'' := snd (create_auth_token other_bytes now pk user token_type s) in
          map without_hash (auth_tokens s'') = map without_hash (auth_tokens s')
          /\ users s'' = users s' /\ rate_limits s'' = rate_limits s').
Proof.
  intros Hlen. rewrite create_auth_token_run.
  set (T := generate_token token_bytes).
  exists (issued_row now pk user token_type T).
  split; [reflexivity |].
  split; [reflexivity |].
  split; [reflexivity |].
  split; [apply hash_token_length |].
  split; [apply hex_lower |].
  split.
  { intros Heq. apply (f_equal String.length) in Heq.
    cbn [at_token_hash issued_row] in Heq.
    rewrite hash_token_length in Heq.
    unfold T in Heq. rewrite (generate_token_length token_bytes Hlen) in Heq.
    discriminate Heq. }
  do 6 (split; [reflexivity |]).
  intros other_bytes. rewrite create_auth_token_run. cbn [snd users auth_tokens rate_limits].
  rewrite !map_app. repeat split.
Qed.

Lemma create_auth_token_stores_hash_only_witness :
  List.length (Sample.counting_bytes 32%nat) = 32%nat
  /\ fst (create_auth_token Sample.counting_bytes Sample.t0 12 Sample.alice "magic_link"
                            Sample.store0)
     = "AAECAwQFBgcICQoLDA0ODxAREhMUFRYXGBkaGxwdHh8"
  /\ map at_token_hash
       (auth_tokens (snd (create_auth_token Sample.counting_bytes Sample.t0 12 Sample.alice
                                            "magic_link" Sample.store0)))
     = [ hash_token "first-secret"; hash_token "second-secret";
         "ea866a757e4c38babfa8127cbe9a409d3e1f93a00ff1488ff735fcf917afffd0" ].
Proof.
  assert (Hlen : List.length (Sample.counting_bytes 32%nat) = 32%nat) by reflexivity.
  split; [exact Hlen |].
  pose proof (create_auth_token_stores_hash_only Sample.counting_bytes Sample.t0 12
                Sample.alice "magic_link" Sample.store0 Hlen) as H.
  destruct (create_auth_token Sample.counting_bytes Sample.t0 12 Sample.alice "magic_link"
              Sample.store0) as [T s'] eqn:Hrun.
  destruct H as [row (Htable & Hhash & _)].
  rewrite create_auth_token_run in Hrun. injection Hrun as HT _.
  cbn [fst snd].
  split; [rewrite <- HT; vm_compute; reflexivity |].
  rewrite Htable, map_app. cbn [map]. rewrite Hhash, <- HT.
  vm_compute. reflexivity.
Defined.

(** ** The rate limiter *)

Lemma check_rate_limit_run (now : datetime) (email action_type : string) (s : Store) :
  check_rate_limit now email action_type s
  = ((List.length (counted now email action_type s) <? 3)%nat, s).
Proof. reflexivity. Qed.

Lemma recent_request_true (identifier action_type : string) (cutoff : datetime)
    (r : RateLimit) :
  recent_request identifier action_type cutoff r = true <->
  rl_identifier r = identifier /\ rl_action_type r = action_type
  /\ exists t, rl_timestamp r = Some t /\ cutoff < t.
Proof.
  unfold recent_request, sql_gt. rewrite !andb_true_iff, !String.eqb_eq.
  destruct (rl_timestamp r) as [t |].
  - rewrite Z.ltb_lt. split.
    + intros [[Hi Ha] Ht]. eauto.
    + intros (Hi & Ha & t' & Ht' & Hlt). injection Ht' as ->. auto.
  - split.
    + intros [_ Hf]. discriminate Hf.
    + intros (_ & _ & t' & Ht' & _). discriminate Ht'.
Qed.

Lemma record_attempts_rows (attempts : list (datetime * GUID)) (email action_type : string)
    (s : Store) :
  snd (record_attempts attempts email action_type s)
  = mkStore (users s) (auth_tokens s)
      (rate_limits s
       ++ map (fun a => mkRateLimit (snd a) (hash_email_for_rate_limit email) action_type
                                    (Some (fst a)))
              attempts).
Proof.
  revert s. induction attempts as [| [t pk] rest IH]; intros s.
  - cbn. rewrite app_nil_r. now destruct s.
  - cbn [record_attempts]. unfold bind at 1.
    destruct (record_rate_limit t pk email action_type s) as [u s1] eqn:Hrec.
    rewrite IH. unfold record_rate_limit in Hrec. run_db.
    injection Hrec as _ <-. cbn [users auth_tokens rate_limits map fst snd].
    now rewrite <- app_assoc.
Qed.

(** C2. [check_rate_limit] writes nothing and answers true exactly when
    fewer than 3 rows are counted, a row being counted when its identifier
    is the SHA-256 hash of the lower-cased, trimmed e-mail, its action type
    is the one asked about and its timestamp is later than one hour before
    now.  So it answers false as soon as 3 such rows exist: with nothing
    counted before, it allows the first three attempts recorded within the
    window and refuses from the fourth on.  Rows not later than one hour ago
    are not counted: once all rows of the pair are that old the answer is
    true again. *)
Theorem check_rate_limit_counts_recent
    (now : datetime) (email action_type : string) (s : Store) :
  let allowed := fst (check_rate_limit now email action_type s) in
  snd (check_rate_limit now email action_type s) = s
  /\ (forall r : RateLimit,
        In r (counted now email action_type s) <->
        In r (rate_limits s)
        /\ rl_identifier r
           = SHA256.hexdigest (PyStr.encode (PyStr.strip (PyStr.lower email)))
        /\ rl_action_type r = action_type
        /\ exists t, rl_timestamp r = Some t /\ now - hours 1 < t)
  /\ (allowed = true <-> (List.length (counted now email action_type s) < 3)%nat)
  /\ (allowed = false <-> (3 <= List.length (counted now email action_type s))%nat)
  /\ (forall attempts : list (datetime * GUID),
        counted now email action_type s = [] ->
        Forall (fun a => now - hours 1 < fst a) attempts ->
        fst (check_rate_limit now email action_type
               (snd (record_attempts attempts email action_type s)))
        = (List.length attempts <? 3)%nat)
  /\ ((forall (r : RateLimit) (t : datetime),
         In r (rate_limits s) ->
         rl_identifier r = hash_email_for_rate_limit email ->
         rl_action_type r = action_type ->
         rl_timestamp r = Some t -> t <= now - hours 1) ->
      allowed = true).
Proof.
  cbv zeta. rewrite check_rate_limit_run. cbn [fst snd].
  split; [reflexivity |].
  split.
  { intros r. unfold counted. rewrite filter_In, recent_request_true. reflexivity. }
  split; [apply Nat.ltb_lt |].
  split; [rewrite Nat.ltb_ge; reflexivity |].
  split.
  - intros attempts Hnone Hin.
    rewrite check_rate_limit_run. cbn [fst]. f_equal.
    unfold counted in *. rewrite record_attempts_rows. cbn [rate_limits].
    rewrite filter_app, Hnone. cbn [app].
    induction Hin as [| a rest Ha _ IH]; [reflexivity |].
    cbn [map filter].
    replace (recent_request _ _ _ _) with true.
    + cbn [List.length]. now rewrite IH.
    + symmetry. apply recent_request_true. cbn. eauto.
  - intros Hold.
    replace (counted now email action_type s) with (@nil RateLimit); [reflexivity |].
    symmetry. unfold counted.
    induction (rate_limits s) as [| r l IH]; [reflexivity |].
    cbn [filter].
    destruct (recent_request _ _ _ r) eqn:Hr.
    + apply recent_request_true in Hr. destruct Hr as (Hi & Ha & t & Ht & Hlt).
      specialize (Hold r t (or_introl eq_refl) Hi Ha Ht).
      unfold RATE_LIMIT_WINDOW in Hlt. lia.
    + apply IH. intros r' t' Hin'. apply Hold. now right.
Qed.

Lemma check_rate_limit_counts_recent_witness :
  let email := " Alice@Example.com " in
  let after n := snd (record_attempts (firstn n four_attempts) email "magic_link"
                                      Sample.store0) in
  let check now n := fst (check_rate_limit now email "magic_link" (after n)) in
  check (Sample.t0 + minutes 5) 0%nat = true
  /\ check (Sample.t0 + minutes 5) 2%nat = true
  /\ check (Sample.t0 + minutes 5) 3%nat = false
  /\ check (Sample.t0 + minutes 5) 4%nat = false
  /\ check (Sample.t0 + hours 2) 4%nat = true
  /\ hash_email_for_rate_limit email
     = "ff8d9819fc0e12bf0d24892e45987e249a28dce836a85cad60e28eaaa8c6d976".
Proof.
  cbv zeta.
  pose proof (check_rate_limit_counts_recent (Sample.t0 + minutes 5) " Alice@Example.com "
                "magic_link" Sample.store0) as H.
  destruct H as (_ & _ & _ & _ & Hattempts & _).
  split; [apply (Hattempts (firstn 0 four_attempts) eq_refl); constructor |].
  split; [apply (Hattempts (firstn 2 four_attempts) eq_refl); repeat constructor |].
  split; [apply (Hattempts (firstn 3 four_attempts) eq_refl); repeat constructor |].
  split; [apply (Hattempts (firstn 4 four_attempts) eq_refl); repeat constructor |].
  split; [| vm_compute; reflexivity].
  pose proof (check_rate_limit_counts_recent (Sample.t0 + hours 2) " Alice@Example.com "
                "magic_link"
                (snd (record_attempts (firstn 4 four_attempts) " Alice@Example.com "
                                      "magic_link" Sample.store0))) as H2.
  destruct H2 as (_ & _ & _ & _ & _ & Helapsed).
  apply Helapsed. intros r t Hin _ _ Ht.
  rewrite record_attempts_rows in Hin. cbn [rate_limits Sample.store0 app] in Hin.
  destruct Hin as [<- | [<- | [<- | [<- | []]]]];
    injection Ht as <-; vm_compute; discriminate.
Defined.

(** ** The clean-up job *)

Lemma filter_twice {A : Type} (f g : A -> bool) (l : list A) :
  filter g (filter f l) = filter (fun x => f x && g x) l.
Proof.
  induction l as [| a l IH]; [reflexivity |].
  cbn [filter]. destruct (f a); cbn [andb filter]; [| exact IH].
  destruct (g a); now rewrite IH.
Qed.

Lemma cleanup_expired_tokens_run (now : datetime) (s : Store) :
  snd (cleanup_expired_tokens now s)
  = mkStore (users s)
      (filter (fun r => negb (expired now r) && negb (used_before (now - days 1) r))
              (auth_tokens s))
      (filter (fun r => negb (stale (now - RATE_LIMIT_WINDOW) r)) (rate_limits s)).
Proof.
  run_db. now rewrite filter_twice.
Qed.

(** C4. [cleanup_expired_tokens] removes exactly the token rows whose
    [expires_at] is before now, the token rows whose [used_at] is set and
    more than 24 hours before now, and the rate-limit rows whose timestamp is
    more than one hour before now (each comparison strict).  Every other
    token row and rate-limit row stays, unchanged and in its place, and the
    user table is untouched. *)
Theorem cleanup_removes_exactly (now : datetime) (s : Store) :
  let s' := snd (cleanup_expired_tokens now s) in
  let removed_token (r : AuthToken) : bool :=
    (at_expires_at r <? now)
    || match at_used_at r with Some u => u <? now - hours 24 | None => false end in
  let removed_rate (r : RateLimit) : bool :=
    match rl_timestamp r with Some t => t <? now - hours 1 | None => false end in
  auth_tokens s' = filter (fun r => negb (removed_token r)) (auth_tokens s)
  /\ rate_limits s' = filter (fun r => negb (removed_rate r)) (rate_limits s)
  /\ users s' = users s
  /\ (forall r : AuthToken,
        In r (auth_tokens s') <->
        In r (auth_tokens s)
        /\ ~ at_expires_at r < now
        /\ ~ (exists u, at_used_at r = Some u /\ u < now - hours 24))
  /\ (forall r : RateLimit,
        In r (rate_limits s') <->
        In r (rate_limits s)
        /\ ~ (exists t, rl_timestamp r = Some t /\ t < now - hours 1)).
Proof.
  cbv zeta. rewrite cleanup_expired_tokens_run. cbn [users auth_tokens rate_limits].
  assert (Htok : forall r,
             negb (expired now r) && negb (used_before (now - days 1) r)
             = negb ((at_expires_at r <? now)
                     || match at_used_at r with
                        | Some u => u <? now - hours 24
                        | None => false
                        end)).
  { intros r. unfold expired, used_before, sql_lt, is_null.
    rewrite negb_orb. destruct (at_used_at r); reflexivity. }
  assert (Hrate : forall r,
             negb (stale (now - RATE_LIMIT_WINDOW) r)
             = negb match rl_timestamp r with
                    | Some t => t <? now - hours 1
                    | None => false
                    end) by reflexivity.
  split; [apply filter_ext; exact Htok |].
  split; [apply filter_ext; exact Hrate |].
  split; [reflexivity |].
  split.
  - intros r. rewrite filter_In, Htok, negb_true_iff, orb_false_iff, Z.ltb_ge.
    split.
    + intros (Hin & Hexp & Hused). split; [exact Hin |]. split; [lia |].
      intros (u & Hu & Hlt). rewrite Hu in Hused. apply Z.ltb_ge in Hused. lia.
    + intros (Hin & Hexp & Hused). split; [exact Hin |]. split; [lia |].
      destruct (at_used_at r) as [u |]; [| reflexivity].
      apply Z.ltb_ge. destruct (Z.lt_ge_cases u (now - hours 24)); [| assumption].
      exfalso. apply Hused. eauto.
  - intros r. rewrite filter_In, Hrate, negb_true_iff.
    split.
    + intros (Hin & Hold). split; [exact Hin |].
      intros (t & Ht & Hlt). rewrite Ht in Hold. apply Z.ltb_ge in Hold. lia.
    + intros (Hin & Hold). split; [exact Hin |].
      destruct (rl_timestamp r) as [t |]; [| reflexivity].
      apply Z.ltb_ge. destruct (Z.lt_ge_cases t (now - hours 1)); [| assumption].
      exfalso. apply Hold. eauto.
Qed.

Lemma cleanup_removes_exactly_witness :
  let early := snd (cleanup_expired_tokens (Sample.t0 + minutes 10) store_with_used) in
  let late := snd (cleanup_expired_tokens (Sample.t0 + days 2 + minutes 1) store_with_used) in
  auth_tokens early = [Sample.old_reset; long_lived_used]
  /\ rate_limits early = rate_limits store_with_used
  /\ auth_tokens late = []
  /\ map rl_uuid (rate_limits late) = [40%N; 42%N]
  /\ users late = users store_with_used.
Proof.
  cbv zeta.
  destruct (cleanup_removes_exactly (Sample.t0 + minutes 10) store_with_used)
    as (Htok1 & Hrate1 & _).
  destruct (cleanup_removes_exactly (Sample.t0 + days 2 + minutes 1) store_with_used)
    as (Htok2 & Hrate2 & Husers2 & _).
  rewrite Htok1, Hrate1, Htok2, Hrate2, Husers2.
  repeat split.
Defined.

(** ** Looking a user up by e-mail *)

Lemma isspace_lower_char (c : ascii) :
  PyStr.isspace (PyStr.lower_char c) = PyStr.isspace c.
Proof. destruct c as [[] [] [] [] [] [] [] []]; reflexivity. Qed.

Lemma lstrip_lower (s : string) :
  PyStr.lstrip_by PyStr.isspace (PyStr.lower s)
  = PyStr.lower (PyStr.lstrip_by PyStr.isspace s).
Proof.
  induction s as [| c s IH]; [reflexivity |].
  cbn [PyStr.lower PyStr.lstrip_by]. rewrite isspace_lower_char.
  destruct (PyStr.isspace c); [exact IH | reflexivity].
Qed.

Lemma rstrip_lower (s : string) :
  PyStr.rstrip_by PyStr.isspace (PyStr.lower s)
  = PyStr.lower (PyStr.rstrip_by PyStr.isspace s).
Proof.
  induction s as [| c s IH]; [reflexivity |].
  cbn [PyStr.lower PyStr.rstrip_by]. rewrite IH, isspace_lower_char.
  destruct (PyStr.rstrip_by PyStr.isspace s); cbn [PyStr.lower]; [| reflexivity].
  destruct (PyStr.isspace c); reflexivity.
Qed.

(** Lower-casing and trimming commute. *)
Lemma strip_lower (s : string) :
  PyStr.strip (PyStr.lower s) = PyStr.lower (PyStr.strip s).
Proof. unfold PyStr.strip. now rewrite lstrip_lower, rstrip_lower. Qed.

Lemma truthy_true (s : string) : PyStr.truthy s = true <-> s <> "".
Proof. destruct s; cbn; split; congruence. Qed.

Lemma email_matches_true (q : string) (u : User) :
  email_matches q u = true <->
  exists e, user_email u = Some e /\ e <> "" /\ PyStr.lower e = q.
Proof.
  unfold email_matches. destruct (user_email u) as [e |].
  - rewrite andb_true_iff, truthy_true, String.eqb_eq. split.
    + intros [He Hq]. eauto.
    + intros (e' & He' & Hne & Hq). injection He' as ->. auto.
  - split; [discriminate | intros (e & He & _); discriminate He].
Qed.

Lemma find_first {A : Type} (p : A -> bool) (l : list A) (x : A) :
  find p l = Some x ->
  exists before after,
    l = before ++ x :: after /\ p x = true /\ Forall (fun y => p y = false) before.
Proof.
  induction l as [| a l IH]; cbn [find]; [discriminate |].
  destruct (p a) eqn:Ha.
  - intros [= ->]. exists [], l. auto.
  - intros Hx. destruct (IH Hx) as (before & after & -> & Hp & Hb).
    exists (a :: before), after. auto.
Qed.

(** C7, as the code has it.  The empty query finds nobody.  Otherwise the
    query is lower-cased and trimmed, each stored e-mail is lower-cased but
    not trimmed, and the first user in table order whose stored e-mail is
    not empty and agrees with the query under that comparison is returned;
    when there is none the result is nothing.  For a stored e-mail without
    surrounding whitespace this is agreement after lower-casing and trimming
    on both sides.  The store is not changed. *)
Theorem get_user_by_email_first_lowercase_match (email : string) (s : Store) :
  let result := fst (get_user_by_email email s) in
  let query := PyStr.strip (PyStr.lower email) in
  snd (get_user_by_email email s) = s
  /\ (email = "" -> result = None)
  /\ (forall u : User,
        result = Some u ->
        exists before after e,
          users s = before ++ u :: after
          /\ user_email u = Some e /\ e <> "" /\ PyStr.lower e = query
          /\ Forall (fun v => email_matches query v = false) before)
  /\ (forall (u : User) (e : string),
        email <> "" -> In u (users s) ->
        user_email u = Some e -> e <> "" -> PyStr.lower e = query ->
        exists u', result = Some u' /\ email_matches query u' = true)
  /\ (result = None <->
      email = "" \/ Forall (fun v => email_matches query v = false) (users s))
  /\ (forall e : string,
        PyStr.strip e = e ->
        (PyStr.lower e = query <->
         PyStr.strip (PyStr.lower e) = PyStr.strip (PyStr.lower email))).
Proof.
  cbv zeta.
  assert (Hbridge : forall e : string,
             PyStr.strip e = e ->
             (PyStr.lower e = PyStr.strip (PyStr.lower email) <->
              PyStr.strip (PyStr.lower e) = PyStr.strip (PyStr.lower email)))
    by (intros e He; rewrite (strip_lower e), He; reflexivity).
  revert Hbridge. unfold get_user_by_email.
  destruct email as [| c rest]; intros Hbridge.
  - cbn [PyStr.truthy negb ret fst snd].
    split; [reflexivity |].
    split; [reflexivity |].
    split; [discriminate |].
    split; [intros u e Hne; now contradiction Hne |].
    split; [tauto | exact Hbridge].
  - cbn [PyStr.truthy negb]. run_db.
    set (query := PyStr.strip (PyStr.lower (String c rest))) in *.
    split; [reflexivity |].
    split; [discriminate |].
    split.
    { intros u Hfind. apply find_first in Hfind.
      destruct Hfind as (before & after & Husers & Hm & Hb).
      apply email_matches_true in Hm. destruct Hm as (e & He & Hne & Hq).
      exists before, after, e. auto. }
    split.
    { intros u e _ Hin He Hne Hq.
      destruct (find (email_matches query) (users s)) as [u' |] eqn:Hfind.
      - exists u'. split; [reflexivity |]. now apply find_some in Hfind.
      - exfalso. apply find_none_iff in Hfind. rewrite Forall_forall in Hfind.
        specialize (Hfind u Hin).
        assert (Hm : email_matches query u = true)
          by (apply email_matches_true; eauto).
        congruence. }
    split.
    { rewrite find_none_iff. split; [auto | intros [H | H]; [discriminate | exact H]]. }
    exact Hbridge.
Qed.

(** C7, as the claim has it, fails: bob's stored e-mail carries surrounding
    whitespace; it agrees with the query after lower-casing and trimming
    both, and yet the look-up returns nobody. *)
Lemma get_user_by_email_stored_not_trimmed :
  In Sample.bob (users Sample.store0)
  /\ user_email Sample.bob = Some " Bob@Example.org "
  /\ PyStr.strip (PyStr.lower " Bob@Example.org ")
     = PyStr.strip (PyStr.lower "bob@example.org")
  /\ fst (get_user_by_email "bob@example.org" Sample.store0) = None
  /\ fst (get_user_by_email "bob@example.org" Sample.store0) <> Some Sample.bob.
Proof.
  split; [right; left; reflexivity |].
  split; [reflexivity |].
  split; [reflexivity |].
  split; [reflexivity | discriminate].
Qed.

Lemma get_user_by_email_first_lowercase_match_witness :
  let email := "  ALICE@Example.COM " in
  (exists u', fst (get_user_by_email email Sample.store0) = Some u'
              /\ email_matches (PyStr.strip (PyStr.lower email)) u' = true)
  /\ fst (get_user_by_email email Sample.store0) = Some Sample.alice.
Proof.
  cbv zeta.
  pose proof (get_user_by_email_first_lowercase_match "  ALICE@Example.COM "
                Sample.store0) as H.
  destruct H as (_ & _ & _ & Hsome & _).
  split; [| reflexivity].
  apply (Hsome Sample.alice "alice@example.com").
  - discriminate.
  - left. reflexivity.
  - reflexivity.
  - discriminate.
  - reflexivity.
Defined.

(** ** The notifier *)

Lemma truthy_py_and (a b : Email.pyval) :
  Email.truthy (Email.py_and a b) = Email.truthy a && Email.truthy b.
Proof. unfold Email.py_and. destruct (Email.truthy a) eqn:Ha; [reflexivity | exact Ha]. Qed.

Lemma truthy_config_get (cfg : Email.Config) (key : string) :
  Email.truthy (Email.config_get cfg key Email.PNone) = true <-> present cfg key.
Proof.
  unfold Email.config_get, present. destruct (Email.lookup cfg key) as [v |].
  - split.
    + intros Hv. exists v. auto.
    + intros (v' & Hv' & Ht). now injection Hv' as ->.
  - cbn. split; [discriminate | intros (v & Hv & _); discriminate Hv].
Qed.

(** A literal of this file holds code points below 256, so no surrogate. *)
Lemma lit_encodable (s : string) : encodable (Email.lit s).
Proof.
  unfold encodable, Email.lit.
  induction s as [| a s IH]; [reflexivity |].
  cbn [list_ascii_of_string map existsb]. rewrite IH, orb_false_r.
  unfold Email.is_surrogate.
  pose proof (N_ascii_bounded a) as Ha.
  apply andb_false_iff. left. apply N.leb_gt. lia.
Qed.

(** [send_email], one case after the other: the guard, the message built
    outside the [try], the delivery inside it. *)
Lemma send_email_cases
    (transport : Email.Message -> Email.SendArgs -> Email.outcome unit)
    (self : Email.EmailService) (to_email subject html_body : Email.str)
    (text_body : option Email.str) :
  Email.send_email transport self to_email subject html_body text_body =
  if Email.enabled self then
    match Email.build_message self to_email subject html_body text_body with
    | Email.Raises e => Email.Raises e
    | Email.Returns msg =>
        match transport msg (Email.mkSendArgs (Email.smtp_host self) (Email.smtp_port self)
                                              (Email.smtp_user self) (Email.smtp_password self)
                                              (Email.smtp_use_tls self)) with
        | Email.Returns _ => Email.Returns true
        | Email.Raises e =>
            if Email.isinstance_Exception e then Email.Returns false else Email.Raises e
        end
    end
  else Email.Returns false.
Proof.
  unfold Email.send_email. destruct (Email.enabled self); cbn [negb]; [| reflexivity].
  destruct (Email.build_message _ _ _ _ _) as [msg | e]; cbn [Email.and_then]; [| reflexivity].
  destruct (transport _ _) as [u | e]; cbn [Email.and_then Email.try_except_Exception];
    reflexivity.
Qed.

(** The message of encodable bodies: three headers, the plain part when a
    non-empty text is given, and the HTML part last. *)
Lemma build_message_encodable (self : Email.EmailService)
    (to_email subject html_body : Email.str) (text_body : option Email.str) :
  encodable html_body ->
  (forall t, text_body = Some t -> encodable t) ->
  Email.build_message self to_email subject html_body text_body =
  Email.Returns
    (Email.mkMessage
       [ ("Subject", subject);
         ("From", Email.py_str (Email.from_name self) ++ Email.lit " <"
                  ++ Email.py_str (Email.from_email self) ++ Email.lit ">");
         ("To", to_email) ]
       (match text_body with
        | Some (c :: t) => [("plain", c :: t)]
        | _ => []
        end ++ [("html", html_body)])).
Proof.
  intros Hhtml Htext. unfold Email.build_message.
  assert (Hpart : Email.MIMEText html_body "html" = Email.Returns ("html", html_body)).
  { unfold Email.MIMEText. rewrite Hhtml. reflexivity. }
  destruct text_body as [[| c t] |]; cbn [Email.and_then]; rewrite ?Hpart;
    cbn [Email.and_then]; try reflexivity.
  unfold Email.MIMEText at 1. rewrite (Htext (c :: t) eq_refl). reflexivity.
Qed.

(** A body that holds a surrogate stops [send_email] before the [try]. *)
Lemma build_message_html_surrogate (self : Email.EmailService)
    (to_email subject html_body : Email.str) (text_body : option Email.str) :
  existsb Email.is_surrogate html_body = true ->
  Email.build_message self to_email subject html_body text_body =
  Email.Raises (Email.ExceptionInstance "UnicodeEncodeError").
Proof.
  intros Hhtml. unfold Email.build_message.
  destruct text_body as [[| c t] |]; cbn [Email.and_then].
  - unfold Email.MIMEText. rewrite Hhtml. reflexivity.
  - unfold Email.MIMEText at 1. destruct (existsb Email.is_surrogate (c :: t));
      cbn [Email.and_then]; [reflexivity |].
    unfold Email.MIMEText. rewrite Hhtml. reflexivity.
  - unfold Email.MIMEText. rewrite Hhtml. reflexivity.
Qed.

(** C8, as stated, fails at a concrete input: an enabled service whose
    send is cancelled lets [asyncio.CancelledError], raised inside the
    awaited delivery, through to the caller, since [CancelledError] is no
    [Exception]; and an HTML body that holds the lone surrogate U+D800 makes
    [MIMEText] raise [UnicodeEncodeError] before the [try] is entered, with
    a transport that would have accepted the message. *)
Lemma send_email_propagates_cancellation :
  Email.enabled (Email.init_app smtp_config) = true
  /\ Email.send_email cancelled_transport (Email.init_app smtp_config)
       (Email.lit "alice@example.com") (Email.lit "Reset Your DailyNotes Password")
       (Email.lit "<p>reset</p>") (Some (Email.lit "reset"))
     = Email.Raises (Email.BaseExceptionInstance "CancelledError")
  /\ Email.send_email accepting_transport (Email.init_app smtp_config)
       (Email.lit "alice@example.com") (Email.lit "Reset Your DailyNotes Password")
       (Email.lit "<p>" ++ [55296%N] ++ Email.lit "</p>") None
     = Email.Raises (Email.ExceptionInstance "UnicodeEncodeError").
Proof. split; [reflexivity | split; reflexivity]. Qed.

(** C8, amended.  The service is enabled exactly when the SMTP host, user
    and password are all present in the configuration.  A service that is
    not enabled answers false to [send_email] whatever the bodies and the
    transport are, and contacts no transport.  An enabled one, given bodies
    that hold no surrogate, builds the message and hands it to the
    transport: it answers true when the transport returns, false when the
    transport raises an instance of [Exception], and lets any other
    exception the transport raises go on to the caller. *)
Theorem send_email_catches_exceptions
    (cfg : Email.Config) (self : Email.EmailService)
    (transport : Email.Message -> Email.SendArgs -> Email.outcome unit)
    (to_email subject html_body : Email.str) (text_body : option Email.str) :
  let sent := Email.send_email transport self to_email subject html_body text_body in
  let args := Email.mkSendArgs (Email.smtp_host self) (Email.smtp_port self)
                               (Email.smtp_user self) (Email.smtp_password self)
                               (Email.smtp_use_tls self) in
  (Email.enabled (Email.init_app cfg) = true <->
   present cfg "SMTP_HOST" /\ present cfg "SMTP_USER" /\ present cfg "SMTP_PASSWORD")
  /\ (Email.enabled self = false -> sent = Email.Returns false)
  /\ (Email.enabled self = true ->
      encodable html_body ->
      (forall t, text_body = Some t -> encodable t) ->
      exists msg : Email.Message,
        Email.build_message self to_email subject html_body text_body = Email.Returns msg
        /\ Email.headers msg =
           [ ("Subject", subject);
             ("From", Email.py_str (Email.from_name self) ++ Email.lit " <"
                      ++ Email.py_str (Email.from_email self) ++ Email.lit ">");
             ("To", to_email) ]
        /\ Email.parts msg =
           match text_body with
           | Some (c :: t) => [("plain", c :: t)]
           | _ => []
           end ++ [("html", html_body)]
        /\ (forall u, transport msg args = Email.Returns u -> sent = Email.Returns true)
        /\ (forall e, transport msg args = Email.Raises e ->
                      Email.isinstance_Exception e = true -> sent = Email.Returns false)
        /\ (forall e, transport msg args = Email.Raises e ->
                      Email.isinstance_Exception e = false -> sent = Email.Raises e)
        /\ ((forall e, transport msg args = Email.Raises e ->
                       Email.isinstance_Exception e = true) ->
            exists b : bool, sent = Email.Returns b)).
Proof.
  cbv zeta. rewrite send_email_cases.
  split.
  { unfold Email.init_app. cbn [Email.enabled].
    rewrite !truthy_py_and, !andb_true_iff, !truthy_config_get. tauto. }
  split.
  { intros ->. reflexivity. }
  intros -> Hhtml Htext.
  rewrite (build_message_encodable self to_email subject html_body text_body Hhtml Htext).
  eexists. split; [reflexivity |].
  split; [reflexivity |]. split; [reflexivity |].
  destruct (transport _ _) as [u | e].
  - split; [reflexivity |].
    split; [discriminate |]. split; [discriminate |]. intros _. eauto.
  - split; [discriminate |].
    split; [intros e' [= <-] ->; reflexivity |].
    split; [intros e' [= <-] ->; reflexivity |].
    intros Hall. rewrite (Hall e eq_refl). eauto.
Qed.

Lemma send_email_catches_exceptions_witness :
  Email.enabled (Email.init_app smtp_config) = true
  /\ Email.enabled (Email.init_app smtp_config_no_password) = false
  /\ Email.send_email accepting_transport (Email.init_app smtp_config_no_password)
       (Email.lit "alice@example.com") (Email.lit "Reset Your DailyNotes Password")
       (Email.lit "<p>reset</p>") None
     = Email.Returns false
  /\ (exists msg : Email.Message,
        Email.parts msg = [("plain", Email.lit "reset"); ("html", Email.lit "<p>reset</p>")]
        /\ (Email.send_email refusing_transport (Email.init_app smtp_config)
              (Email.lit "alice@example.com") (Email.lit "Reset Your DailyNotes Password")
              (Email.lit "<p>reset</p>") (Some (Email.lit "reset"))
            = Email.Returns false))
  /\ (exists msg : Email.Message,
        Email.parts msg = [("plain", Email.lit "reset"); ("html", Email.lit "<p>reset</p>")]
        /\ (Email.send_email accepting_transport (Email.init_app smtp_config)
              (Email.lit "alice@example.com") (Email.lit "Reset Your DailyNotes Password")
              (Email.lit "<p>reset</p>") (Some (Email.lit "reset"))
            = Email.Returns true)).
Proof.
  assert (Hon : Email.enabled (Email.init_app smtp_config) = true).
  { apply (send_email_catches_exceptions smtp_config Email.unconfigured accepting_transport
             [] [] [] None).
    repeat split; eexists; (split; [reflexivity | reflexivity]). }
  assert (Hoff : Email.enabled (Email.init_app smtp_config_no_password) = false)
    by reflexivity.
  assert (Htext : forall t, Some (Email.lit "reset") = Some t -> encodable t).
  { intros t [= <-]. reflexivity. }
  split; [exact Hon |].
  split; [exact Hoff |].
  split.
  { apply (send_email_catches_exceptions smtp_config_no_password
             (Email.init_app smtp_config_no_password) accepting_transport).
    exact Hoff. }
  split.
  - destruct (proj2 (proj2 (send_email_catches_exceptions smtp_config
             (Email.init_app smtp_config) refusing_transport
             (Email.lit "alice@example.com") (Email.lit "Reset Your DailyNotes Password")
             (Email.lit "<p>reset</p>") (Some (Email.lit "reset")))) Hon eq_refl Htext)
      as (msg & _ & _ & Hparts & _ & Hexc & _).
    exists msg. split; [exact Hparts |].
    exact (Hexc _ eq_refl eq_refl).
  - destruct (proj2 (proj2 (send_email_catches_exceptions smtp_config
             (Email.init_app smtp_config) accepting_transport
             (Email.lit "alice@example.com") (Email.lit "Reset Your DailyNotes Password")
             (Email.lit "<p>reset</p>") (Some (Email.lit "reset")))) Hon eq_refl Htext)
      as (msg & _ & _ & Hparts & Hret & _).
    exists msg. split; [exact Hparts |].
    exact (Hret tt eq_refl).
Defined.

(** ** Consuming a token *)

Lemma NoDup_map_eq {A B : Type} (f : A -> B) (l : list A) (x y : A) :
  NoDup (map f l) -> In x l -> In y l -> f x = f y -> x = y.
Proof.
  induction l as [| a l IH]; cbn [map]; [intros _ [] |].
  intros Hnd Hx Hy Hf. inversion Hnd as [| ? ? Hnotin Hnd']; subst.
  destruct Hx as [-> | Hx], Hy as [-> | Hy].
  - reflexivity.
  - exfalso. apply Hnotin. rewrite Hf. now apply in_map.
  - exfalso. apply Hnotin. rewrite <- Hf. now apply in_map.
  - now apply IH.
Qed.

Lemma used_before_stamped (cutoff now : datetime) (t : AuthToken) :
  used_before cutoff (set_used_at t (Some now)) = (now <? cutoff).
Proof. reflexivity. Qed.

(** C10. [invalidate_token] looks a row up by its hash and by nothing else:
    whenever some stored row carries the hash of the secret, be it already
    consumed or expired, the call returns true and the row the look-up
    selects (the matching row itself, hashes being distinct from row to row)
    has its [used_at] overwritten with the current time.  The 24 hours that
    [cleanup_expired_tokens] keeps a consumed row are then counted from this
    last call: the row falls under the clean-up's consumed-rows filter only
    once the clean-up runs more than 24 hours after it, and a row that has
    not expired is kept by any clean-up run until then. *)
Theorem invalidate_token_by_hash_alone
    (now : datetime) (raw_token : string) (s : Store) (r : AuthToken) :
  In r (auth_tokens s) ->
  at_token_hash r = hash_token raw_token ->
  let (done, s') := invalidate_token now raw_token s in
  done = true
  /\ exists hit : AuthToken,
       fst (auth_query_first
              (fun x => String.eqb (at_token_hash x) (hash_token raw_token)) s) = Some hit
       /\ In hit (auth_tokens s)
       /\ at_token_hash hit = hash_token raw_token
       /\ (NoDup (map at_token_hash (auth_tokens s)) -> hit = r)
       /\ In (set_used_at hit (Some now)) (auth_tokens s')
       /\ (forall x, In x (auth_tokens s') -> at_uuid x = at_uuid hit ->
                     at_used_at x = Some now)
       /\ (forall cleanup_time : datetime,
             used_before (cleanup_time - days 1) (set_used_at hit (Some now)) = true
             <-> now + hours 24 < cleanup_time)
       /\ (forall cleanup_time : datetime,
             cleanup_time <= at_expires_at hit ->
             cleanup_time <= now + hours 24 ->
             In (set_used_at hit (Some now))
                (auth_tokens (snd (cleanup_expired_tokens cleanup_time s')))).
Proof.
  intros Hin Hhash. rewrite invalidate_token_run.
  destruct (find _ (auth_tokens s)) as [hit |] eqn:Hfind.
  - split; [reflexivity |].
    exists hit. unfold auth_query_first. cbn [fst].
    split; [exact Hfind |].
    apply find_some in Hfind. destruct Hfind as [Hhit Heq]. apply String.eqb_eq in Heq.
    assert (Hstamped : In (set_used_at hit (Some now))
                          (map (fun x => if N.eqb (at_uuid x) (at_uuid hit)
                                         then set_used_at hit (Some now) else x)
                               (auth_tokens s))).
    { apply in_map_iff. exists hit. now rewrite N.eqb_refl. }
    split; [exact Hhit |].
    split; [exact Heq |].
    split.
    { intros Hnd. apply (NoDup_map_eq at_token_hash (auth_tokens s)); congruence. }
    cbn [auth_tokens].
    split; [exact Hstamped |].
    split.
    { intros x Hx Hpk. apply in_map_iff in Hx. destruct Hx as (y & Hy & _).
      destruct (N.eqb_spec (at_uuid y) (at_uuid hit)) as [_ | Hne].
      - now subst x.
      - subst x. contradiction. }
    split.
    { intros c. rewrite used_before_stamped, Z.ltb_lt. unfold days, hours. lia. }
    intros c Hexp Hkeep.
    rewrite cleanup_expired_tokens_run. cbn [auth_tokens].
    apply filter_In. split; [exact Hstamped |].
    rewrite used_before_stamped. unfold expired. cbn [at_expires_at set_used_at].
    apply andb_true_iff. split; apply negb_true_iff, Z.ltb_ge; unfold days, hours in *; lia.
  - exfalso. apply find_none_iff in Hfind. rewrite Forall_forall in Hfind.
    specialize (Hfind r Hin). cbn beta in Hfind.
    rewrite Hhash, String.eqb_refl in Hfind. discriminate Hfind.
Qed.

Lemma invalidate_token_by_hash_alone_witness :
  let s' := snd (invalidate_token (Sample.t0 + days 2) "third-secret" store_with_used) in
  In long_lived_used (auth_tokens store_with_used)
  /\ at_used_at long_lived_used = Some Sample.t0
  /\ fst (invalidate_token (Sample.t0 + days 2) "third-secret" store_with_used) = true
  /\ In (set_used_at long_lived_used (Some (Sample.t0 + days 2))) (auth_tokens s')
  /\ ~ In long_lived_used
          (auth_tokens (snd (cleanup_expired_tokens (Sample.t0 + days 2 + minutes 1)
                                                    store_with_used)))
  /\ In (set_used_at long_lived_used (Some (Sample.t0 + days 2)))
        (auth_tokens (snd (cleanup_expired_tokens (Sample.t0 + days 2 + minutes 1) s'))).
Proof.
  cbv zeta.
  assert (Hin : In long_lived_used (auth_tokens store_with_used))
    by (right; left; reflexivity).
  pose proof (invalidate_token_by_hash_alone (Sample.t0 + days 2) "third-secret"
                store_with_used long_lived_used Hin eq_refl) as H.
  destruct (invalidate_token (Sample.t0 + days 2) "third-secret" store_with_used)
    as [done s'] eqn:Hrun.
  destruct H as (Hdone & hit & _ & _ & _ & Hsame & Hstamped & _ & _ & Hkept).
  assert (Hhit : hit = long_lived_used).
  { apply Hsame. vm_compute.
    repeat (constructor; [intro Hx; cbn in Hx; intuition discriminate |]).
    constructor. }
  subst hit. cbn [fst snd].
  split; [exact Hin |].
  split; [reflexivity |].
  split; [exact Hdone |].
  split; [exact Hstamped |].
  split.
  - rewrite cleanup_expired_tokens_run. cbn [auth_tokens]. intros Habs.
    apply filter_In in Habs. destruct Habs as [_ Habs]. vm_compute in Habs.
    discriminate Habs.
  - apply Hkept; vm_compute; discriminate.
Defined.

(** * Further properties of the code *)

(** ** The shape of a token, for any number of bytes *)

Lemma list_ind3 {A : Type} (P : list A -> Prop) :
  P [] -> (forall a, P [a]) -> (forall a b, P [a; b]) ->
  (forall a b c l, P l -> P (a :: b :: c :: l)) ->
  forall l, P l.
Proof.
  intros H0 H1 H2 H3. fix IH 1.
  intros [| a [| b [| c l]]]; [exact H0 | apply H1 | apply H2 | apply H3, IH].
Qed.

Lemma sextet_urlsafe (n : Z) : is_urlsafe (Base64.sextet n) = true.
Proof.
  unfold Base64.sextet, is_urlsafe.
  destruct (nth_in_or_default (Z.to_nat n) Base64.urlsafe_alphabet "A"%char) as [Hin | ->];
    [| reflexivity].
  apply existsb_exists. eexists. split; [exact Hin | apply Ascii.eqb_refl].
Qed.

Lemma string_forallb_app (p : ascii -> bool) (s t : string) :
  string_forallb p (s ++ t)%string = string_forallb p s && string_forallb p t.
Proof.
  induction s as [| c s IH]; [reflexivity |].
  cbn [append string_forallb]. now rewrite IH, andb_assoc.
Qed.

(** [rstrip] removes a suffix of strippable characters and keeps a string
    that has none. *)
Lemma rstrip_by_none (p : ascii -> bool) (s : string) :
  string_forallb (fun c => negb (p c)) s = true -> PyStr.rstrip_by p s = s.
Proof.
  induction s as [| c s IH]; [reflexivity |].
  cbn [string_forallb PyStr.rstrip_by]. intros H.
  apply andb_true_iff in H. destruct H as [Hc Hs]. rewrite (IH Hs).
  apply negb_true_iff in Hc. rewrite Hc. now destruct s.
Qed.

Lemma rstrip_by_all (p : ascii -> bool) (t : string) :
  string_forallb p t = true -> PyStr.rstrip_by p t = "".
Proof.
  induction t as [| c t IH]; [reflexivity |].
  cbn [string_forallb PyStr.rstrip_by]. intros H.
  apply andb_true_iff in H. destruct H as [Hc Ht]. now rewrite (IH Ht), Hc.
Qed.

Lemma rstrip_by_suffix (p : ascii -> bool) (s t : string) :
  string_forallb (fun c => negb (p c)) s = true ->
  string_forallb p t = true ->
  PyStr.rstrip_by p (s ++ t)%string = s.
Proof.
  intros Hs Ht. induction s as [| c s IH].
  - now apply rstrip_by_all.
  - cbn [string_forallb] in Hs. apply andb_true_iff in Hs. destruct Hs as [Hc Hs].
    cbn [append PyStr.rstrip_by]. rewrite (IH Hs).
    apply negb_true_iff in Hc. rewrite Hc. now destruct s.
Qed.

Lemma string_length_app (s t : string) :
  String.length (s ++ t)%string = (String.length s + String.length t)%nat.
Proof. induction s as [| c s IH]; cbn; [reflexivity | now rewrite IH]. Qed.

(** What [urlsafe_b64encode] produces: alphabet characters, then the "="
    that complete the last group. *)
Lemma urlsafe_b64encode_shape (bs : list Z) :
  exists body pad : string,
    Base64.urlsafe_b64encode bs = (body ++ pad)%string
    /\ string_forallb is_urlsafe body = true
    /\ string_forallb Base64.is_pad pad = true
    /\ String.length body = ((4 * List.length bs + 2) / 3)%nat.
Proof.
  induction bs as [| a | a b | a b c l IH] using list_ind3.
  - exists "", "". repeat split.
  - eexists (String _ (String _ "")), "==".
    cbn [Base64.urlsafe_b64encode append string_forallb]. rewrite !sextet_urlsafe.
    repeat split.
  - eexists (String _ (String _ (String _ ""))), "=".
    cbn [Base64.urlsafe_b64encode append string_forallb]. rewrite !sextet_urlsafe.
    repeat split.
  - destruct IH as (body & pad & Henc & Hbody & Hpad & Hlen).
    eexists (String _ (String _ (String _ (String _ body)))), pad.
    cbn [Base64.urlsafe_b64encode append string_forallb]. rewrite !sextet_urlsafe, Henc.
    split; [reflexivity |]. split; [exact Hbody |]. split; [exact Hpad |].
    cbn [String.length List.length]. rewrite Hlen.
    replace (4 * S (S (S (List.length l))) + 2)%nat
      with (4 * List.length l + 2 + 4 * 3)%nat by lia.
    rewrite Nat.div_add by lia. lia.
Qed.

Lemma urlsafe_not_pad (c : ascii) : is_urlsafe c = true -> Base64.is_pad c = false.
Proof.
  unfold is_urlsafe. intros H. apply existsb_exists in H.
  destruct H as (a & Hin & Heq). apply Ascii.eqb_eq in Heq. subst a.
  assert (Hall : forallb (fun a => negb (Base64.is_pad a)) Base64.urlsafe_alphabet = true)
    by (vm_compute; reflexivity).
  rewrite forallb_forall in Hall. now apply negb_true_iff, Hall.
Qed.

Lemma string_forallb_impl (p q : ascii -> bool) (s : string) :
  (forall c, p c = true -> q c = true) ->
  string_forallb p s = true -> string_forallb q s = true.
Proof.
  intros Hpq. induction s as [| c s IH]; [reflexivity |].
  cbn [string_forallb]. rewrite !andb_true_iff. intros [Hc Hs]. auto.
Qed.

(** X1. Whatever bytes are drawn, the token is made of characters of the
    URL-safe alphabet only (letters, digits, "-" and "_": no "=" is left),
    and [n] bytes give the integer part of [(4 n + 2) / 3] characters. *)
Theorem generate_token_urlsafe (token_bytes : nat -> list Z) :
  string_forallb is_urlsafe (generate_token token_bytes) = true
  /\ String.length (generate_token token_bytes)
     = ((4 * List.length (token_bytes 32%nat) + 2) / 3)%nat.
Proof.
  unfold generate_token, Base64.token_urlsafe.
  destruct (urlsafe_b64encode_shape (token_bytes 32%nat))
    as (body & pad & -> & Hbody & Hpad & Hlen).
  rewrite rstrip_by_suffix.
  - split; [exact Hbody | exact Hlen].
  - apply (string_forallb_impl is_urlsafe); [| exact Hbody].
    intros c Hc. now rewrite (urlsafe_not_pad c Hc).
  - exact Hpad.
Qed.

(** ** What a successful validation means *)

(** X2. [validate_token] is sound: when it returns a user, that user is in
    the user table and is the owner of a stored row that carries the hash of
    the secret and the type asked for, has not been consumed and expires
    later than now. *)
Theorem validate_token_sound
    (now : datetime) (raw_token token_type : string) (s : Store) (u : User) :
  fst (validate_token now raw_token token_type s) = Some u ->
  In u (users s)
  /\ exists r : AuthToken,
       In r (auth_tokens s)
       /\ at_user_id r = user_uuid u
       /\ at_token_hash r = hash_token raw_token
       /\ at_token_type r = token_type
       /\ at_used_at r = None
       /\ now < at_expires_at r.
Proof.
  rewrite validate_token_run. cbn [fst].
  destruct (find _ (auth_tokens s)) as [r |] eqn:Hfind; [| discriminate].
  intros Hu. apply find_some in Hu. destruct Hu as [Hin Hpk]. apply N.eqb_eq in Hpk.
  apply find_some in Hfind. destruct Hfind as [Hr Hvalid].
  apply valid_for_true in Hvalid. destruct Hvalid as (Hh & Ht & Hn & He).
  split; [exact Hin |]. exists r. repeat split; auto.
Qed.

Lemma validate_token_sound_witness :
  fst (validate_token (Sample.t0 + minutes 20) "first-secret" "password_reset" Sample.store0)
  = Some Sample.alice
  /\ In Sample.alice (users Sample.store0).
Proof.
  assert (H : fst (validate_token (Sample.t0 + minutes 20) "first-secret" "password_reset"
                                  Sample.store0) = Some Sample.alice)
    by (vm_compute; reflexivity).
  split; [exact H |].
  exact (proj1 (validate_token_sound _ _ _ _ _ H)).
Defined.

(** ** When an issued token validates *)

Lemma find_filter_keep {A : Type} (p q : A -> bool) (l : list A) (r : A) :
  find p l = Some r -> q r = true -> find p (filter q l) = Some r.
Proof.
  induction l as [| a l IH]; cbn [find filter]; [discriminate |].
  destruct (p a) eqn:Hp.
  - intros [= ->] Hq. rewrite Hq. cbn [find]. now rewrite Hp.
  - intros Hr Hq. destruct (q a); [cbn [find]; rewrite Hp |]; now apply IH.
Qed.

Lemma find_app_found {A : Type} (p : A -> bool) (l1 l2 : list A) (r : A) :
  find p l1 = Some r -> find p (l1 ++ l2) = Some r.
Proof.
  induction l1 as [| a l IH]; cbn [find app]; [discriminate |].
  destruct (p a); [trivial | exact IH].
Qed.

(** X3. The window of an issued token, of any type.  After
    [create_auth_token] for a stored user with a fresh secret, the secret
    validates, to that user, exactly under the type it was issued for and
    strictly before its expiry (one hour after issue for "password_reset",
    fifteen minutes for every other type): under another type, or from the
    expiry on, validation returns nothing. *)
Theorem issued_token_window
    (token_bytes : nat -> list Z) (s0 : Store) (U : User) (pk : GUID)
    (issued_as asked_as : string) (t_issue t_check : datetime) :
  fst (user_query_get (user_uuid U) s0) = Some U ->
  Forall (fun r => at_token_hash r <> hash_token (generate_token token_bytes))
         (auth_tokens s0) ->
  let (T, s1) := create_auth_token token_bytes t_issue pk U issued_as s0 in
  let expiry :=
    t_issue + (if String.eqb issued_as "password_reset" then hours 1 else minutes 15) in
  fst (validate_token t_check T asked_as s1)
  = if String.eqb asked_as issued_as && (t_check <? expiry) then Some U else None.
Proof.
  intros Huser Hfresh. rewrite create_auth_token_run.
  set (T := generate_token token_bytes) in *.
  set (row := issued_row t_issue pk U issued_as T).
  rewrite validate_token_run. cbn [fst users auth_tokens].
  rewrite find_app_skip.
  2:{ apply Forall_filter. eapply Forall_impl; [| exact Hfresh].
      intros r Hr. now apply valid_for_needs_hash. }
  cbn [find].
  assert (Hrow : valid_for (hash_token T) asked_as t_check row
                 = String.eqb asked_as issued_as
                   && (t_check <? t_issue + (if String.eqb issued_as "password_reset"
                                             then hours 1 else minutes 15))).
  { unfold valid_for, row, issued_row.
    cbn [at_token_hash at_token_type at_used_at at_expires_at is_null].
    rewrite String.eqb_refl, (String.eqb_sym issued_as asked_as). cbn [andb].
    rewrite andb_true_r.
    now destruct (String.eqb issued_as "password_reset"). }
  rewrite Hrow.
  destruct (String.eqb asked_as issued_as && _); [| reflexivity].
  exact Huser.
Qed.

Lemma issued_token_window_witness :
  let s1 := snd (create_auth_token Sample.counting_bytes Sample.t0 12 Sample.bob
                                   "magic_link" Sample.store0) in
  let T := "AAECAwQFBgcICQoLDA0ODxAREhMUFRYXGBkaGxwdHh8" in
  fst (validate_token (Sample.t0 + minutes 15 - 1) T "magic_link" s1) = Some Sample.bob
  /\ fst (validate_token (Sample.t0 + minutes 15) T "magic_link" s1) = None
  /\ fst (validate_token (Sample.t0 + minutes 1) T "password_reset" s1) = None.
Proof.
  cbv zeta.
  assert (Huser : fst (user_query_get (user_uuid Sample.bob) Sample.store0) = Some Sample.bob)
    by reflexivity.
  assert (Hfresh : Forall (fun r => at_token_hash r
                                    <> hash_token (generate_token Sample.counting_bytes))
                          (auth_tokens Sample.store0))
    by (repeat (constructor; [intro H; strings_differ H |]); constructor).
  pose proof (fun asked t =>
                issued_token_window Sample.counting_bytes Sample.store0 Sample.bob 12
                  "magic_link" asked Sample.t0 t Huser Hfresh) as H.
  rewrite create_auth_token_run in H. rewrite create_auth_token_run. cbn [snd].
  replace "AAECAwQFBgcICQoLDA0ODxAREhMUFRYXGBkaGxwdHh8"
    with (generate_token Sample.counting_bytes) by (vm_compute; reflexivity).
  split; [exact (H "magic_link" (Sample.t0 + minutes 15 - 1)) |].
  split; [exact (H "magic_link" (Sample.t0 + minutes 15)) |].
  exact (H "password_reset" (Sample.t0 + minutes 1)).
Defined.

(** X4. Issuing a token leaves the tokens of other users and of other types
    as they were: a secret that validated through a row of another user, or
    under another type, validates to the same user after [create_auth_token],
    whatever secret is drawn. *)
Theorem create_auth_token_keeps_other_tokens
    (token_bytes : nat -> list Z) (now : datetime) (pk : GUID) (user : User)
    (token_type : string) (s : Store)
    (t : datetime) (raw other_type : string) (r : AuthToken) :
  fst (auth_query_first (valid_for (hash_token raw) other_type t) s) = Some r ->
  at_user_id r <> user_uuid user \/ other_type <> token_type ->
  fst (validate_token t raw other_type
         (snd (create_auth_token token_bytes now pk user token_type s)))
  = fst (validate_token t raw other_type s).
Proof.
  unfold auth_query_first. cbn [fst]. intros Hfind Hother.
  rewrite create_auth_token_run, !validate_token_run. cbn [fst snd users auth_tokens].
  rewrite Hfind.
  erewrite find_app_found; [reflexivity |].
  apply find_filter_keep; [exact Hfind |].
  apply find_some in Hfind. destruct Hfind as [_ Hvalid].
  apply valid_for_true in Hvalid. destruct Hvalid as (_ & Htype & _ & _).
  apply negb_true_iff. unfold unused_of.
  destruct Hother as [Hu | Ht].
  - apply N.eqb_neq in Hu. now rewrite Hu.
  - rewrite Htype. apply String.eqb_neq in Ht. rewrite Ht. now rewrite andb_false_r.
Qed.

Lemma create_auth_token_keeps_other_tokens_witness :
  fst (validate_token (Sample.t0 + minutes 20) "first-secret" "password_reset"
         (snd (create_auth_token Sample.counting_bytes Sample.t0 12 Sample.alice
                                 "magic_link" Sample.store0)))
  = Some Sample.alice.
Proof.
  rewrite (create_auth_token_keeps_other_tokens Sample.counting_bytes Sample.t0 12
             Sample.alice "magic_link" Sample.store0 (Sample.t0 + minutes 20)
             "first-secret" "password_reset" Sample.old_reset).
  - vm_compute. reflexivity.
  - vm_compute. reflexivity.
  - right. discriminate.
Defined.

(** X5. Issuing again revokes the token issued before.  When a user is
    issued a token and then, for the same type, another one with a different
    hash, the first secret no longer validates, at any time and under any
    type, while the second validates until its expiry. *)
Theorem reissue_revokes_previous
    (first_bytes second_bytes : nat -> list Z) (s0 : Store) (U : User) (pk1 pk2 : GUID)
    (token_type asked_as : string) (t1 t2 t : datetime) :
  fst (user_query_get (user_uuid U) s0) = Some U ->
  Forall (fun r => at_token_hash r <> hash_token (generate_token first_bytes))
         (auth_tokens s0) ->
  Forall (fun r => at_token_hash r <> hash_token (generate_token second_bytes))
         (auth_tokens s0) ->
  hash_token (generate_token first_bytes) <> hash_token (generate_token second_bytes) ->
  let (T1, s1) := create_auth_token first_bytes t1 pk1 U token_type s0 in
  let (T2, s2) := create_auth_token second_bytes t2 pk2 U token_type s1 in
  fst (validate_token t T1 asked_as s2) = None
  /\ (t < at_expires_at (issued_row t2 pk2 U token_type T2) ->
      fst (validate_token t T2 token_type s2) = Some U).
Proof.
  intros Huser Hfresh1 Hfresh2 Hdiff.
  rewrite !create_auth_token_run. cbn [users auth_tokens rate_limits].
  set (T1 := generate_token first_bytes) in *.
  set (T2 := generate_token second_bytes) in *.
  rewrite filter_app. cbn [filter]. rewrite issued_row_unused. cbn [negb].
  rewrite app_nil_r, filter_twice.
  set (kept := filter _ (auth_tokens s0)).
  assert (Hkept1 : Forall (fun r => at_token_hash r <> hash_token T1) kept)
    by (apply Forall_filter; exact Hfresh1).
  assert (Hkept2 : Forall (fun r => at_token_hash r <> hash_token T2) kept)
    by (apply Forall_filter; exact Hfresh2).
  rewrite !validate_token_run. cbn [fst users auth_tokens]. split.
  - rewrite find_app_skip
      by (eapply Forall_impl; [| exact Hkept1]; intros r Hr; now apply valid_for_needs_hash).
    cbn [find]. rewrite valid_for_needs_hash; [reflexivity |].
    cbn [at_token_hash issued_row]. congruence.
  - intros Hbefore.
    rewrite find_app_skip
      by (eapply Forall_impl; [| exact Hkept2]; intros r Hr; now apply valid_for_needs_hash).
    cbn [find].
    replace (valid_for (hash_token T2) token_type t (issued_row t2 pk2 U token_type T2))
      with true; [exact Huser |].
    symmetry. unfold valid_for.
    cbn [at_token_hash at_token_type at_used_at issued_row is_null] in *.
    rewrite !String.eqb_refl. cbn [andb]. now apply Z.ltb_lt.
Qed.

Lemma reissue_revokes_previous_witness :
  let s1 := snd (create_auth_token Sample.counting_bytes Sample.t0 12 Sample.alice
                                   "magic_link" Sample.store0) in
  let s2 := snd (create_auth_token descending_bytes (Sample.t0 + minutes 1) 13 Sample.alice
                                   "magic_link" s1) in
  fst (validate_token (Sample.t0 + minutes 2)
                      (generate_token Sample.counting_bytes) "magic_link" s2) = None
  /\ fst (validate_token (Sample.t0 + minutes 2)
                         (generate_token descending_bytes) "magic_link" s2)
     = Some Sample.alice.
Proof.
  cbv zeta.
  assert (Hfresh : forall tb,
             hash_token "first-secret" <> hash_token (generate_token tb) ->
             hash_token "second-secret" <> hash_token (generate_token tb) ->
             Forall (fun r => at_token_hash r <> hash_token (generate_token tb))
                    (auth_tokens Sample.store0))
    by (intros tb H1 H2; apply Forall_cons; [exact H1 | apply Forall_cons; [exact H2 | apply Forall_nil]]).
  pose proof (reissue_revokes_previous Sample.counting_bytes descending_bytes
                Sample.store0 Sample.alice 12 13 "magic_link" "magic_link"
                Sample.t0 (Sample.t0 + minutes 1) (Sample.t0 + minutes 2) eq_refl) as H.
  rewrite !create_auth_token_run in H. rewrite !create_auth_token_run. cbn [snd].
  destruct H as [Hold Hnew].
  - apply Hfresh; intro H; strings_differ H.
  - apply Hfresh; intro H; strings_differ H.
  - intro H; strings_differ H.
  - split; [exact Hold |]. apply Hnew. vm_compute. reflexivity.
Defined.

(** ** Consuming a token, continued *)

(** X6. A token is single-use.  In a table whose rows carry distinct hashes,
    once [invalidate_token] has been called with a secret, that secret
    validates no more, at any time and under any type. *)
Theorem invalidated_token_never_validates
    (now t : datetime) (raw_token token_type : string) (s : Store) :
  NoDup (map at_token_hash (auth_tokens s)) ->
  fst (validate_token t raw_token token_type (snd (invalidate_token now raw_token s))) = None.
Proof.
  intros Hnd. rewrite invalidate_token_run, validate_token_run. cbn [fst].
  destruct (find _ (auth_tokens s)) as [hit |] eqn:Hfind; cbn [snd].
  - apply find_some in Hfind. destruct Hfind as [Hhit Heq]. apply String.eqb_eq in Heq.
    replace (find (valid_for (hash_token raw_token) token_type t) _) with (@None AuthToken);
      [reflexivity |].
    symmetry. apply find_none_iff. cbn [auth_tokens].
    apply Forall_forall. intros x Hx. apply in_map_iff in Hx. destruct Hx as (y & <- & Hy).
    destruct (N.eqb_spec (at_uuid y) (at_uuid hit)) as [Hpk | Hpk].
    + now apply valid_for_needs_unused.
    + apply valid_for_needs_hash. intros Hh. apply Hpk. f_equal.
      apply (NoDup_map_eq at_token_hash (auth_tokens s)); congruence.
  - apply find_none_iff in Hfind.
    replace (find (valid_for (hash_token raw_token) token_type t) _) with (@None AuthToken);
      [reflexivity |].
    symmetry. apply find_none_iff. eapply Forall_impl; [| exact Hfind].
    intros r Hr. cbn beta in Hr. apply valid_for_needs_hash. now apply String.eqb_neq.
Qed.

Lemma invalidated_token_never_validates_witness :
  fst (validate_token (Sample.t0 + minutes 20) "first-secret" "password_reset" Sample.store0)
  = Some Sample.alice
  /\ fst (validate_token (Sample.t0 + minutes 20) "first-secret" "password_reset"
            (snd (invalidate_token (Sample.t0 + minutes 5) "first-secret" Sample.store0)))
     = None.
Proof.
  split; [vm_compute; reflexivity |].
  apply invalidated_token_never_validates.
  vm_compute. repeat (constructor; [intro Hx; cbn in Hx; intuition discriminate |]).
  constructor.
Defined.

(** X7. An unknown secret consumes nothing: when no stored row carries the
    hash of the secret, [invalidate_token] returns false and leaves the store
    as it was. *)
Theorem invalidate_token_unknown (now : datetime) (raw_token : string) (s : Store) :
  Forall (fun r => at_token_hash r <> hash_token raw_token) (auth_tokens s) ->
  invalidate_token now raw_token s = (false, s).
Proof.
  intros Hnone. rewrite invalidate_token_run.
  replace (find _ (auth_tokens s)) with (@None AuthToken); [reflexivity |].
  symmetry. apply find_none_iff. eapply Forall_impl; [| exact Hnone].
  intros r Hr. now apply String.eqb_neq.
Qed.

Lemma invalidate_token_unknown_witness :
  invalidate_token Sample.t0 "never-issued" Sample.store0 = (false, Sample.store0).
Proof.
  apply invalidate_token_unknown.
  repeat (constructor; [intro H; strings_differ H |]). constructor.
Defined.

Lemma map_replace_by_key {A : Type} (key : A -> N) (f : A -> A) (hit : A)
    (before after : list A) :
  NoDup (map key (before ++ hit :: after)) ->
  map (fun x => if N.eqb (key x) (key hit) then f hit else x) (before ++ hit :: after)
  = before ++ f hit :: after.
Proof.
  intros Hnd.
  assert (Hother : forall x, In x before \/ In x after -> N.eqb (key x) (key hit) = false).
  { intros x Hx. apply N.eqb_neq. intros Heq.
    rewrite map_app in Hnd. cbn [map] in Hnd.
    apply NoDup_remove_2 in Hnd. apply Hnd. rewrite <- Heq.
    apply in_or_app. destruct Hx as [Hx | Hx]; [left | right]; now apply in_map. }
  rewrite map_app. cbn [map]. rewrite N.eqb_refl. f_equal; [| f_equal].
  - rewrite <- (map_id before) at 2. apply map_ext_in. intros x Hx.
    now rewrite Hother by (now left).
  - rewrite <- (map_id after) at 2. apply map_ext_in. intros x Hx.
    now rewrite Hother by (now right).
Qed.

(** X8. [invalidate_token] changes one column of one row.  In a table with
    distinct primary keys, a call that returns true replaces the selected row
    by itself with [used_at] set to now, in place; every other token row,
    every user and every rate-limit row is as before, and no row is added or
    removed. *)
Theorem invalidate_token_touches_one_row (now : datetime) (raw_token : string) (s : Store) :
  NoDup (map at_uuid (auth_tokens s)) ->
  fst (invalidate_token now raw_token s) = true ->
  let s' := snd (invalidate_token now raw_token s) in
  users s' = users s
  /\ rate_limits s' = rate_limits s
  /\ exists before hit after,
       auth_tokens s = before ++ hit :: after
       /\ auth_tokens s' = before ++ set_used_at hit (Some now) :: after
       /\ at_token_hash hit = hash_token raw_token
       /\ Forall (fun r => at_token_hash r <> hash_token raw_token) before.
Proof.
  intros Hnd. rewrite invalidate_token_run.
  destruct (find _ (auth_tokens s)) as [hit |] eqn:Hfind; cbn [fst snd]; [| discriminate].
  intros _. cbn [users rate_limits auth_tokens].
  split; [reflexivity |]. split; [reflexivity |].
  destruct (find_first _ _ _ Hfind) as (before & after & Hl & Hhit & Hbefore).
  apply String.eqb_eq in Hhit.
  exists before, hit, after. split; [exact Hl |].
  split.
  - rewrite Hl in *.
    apply (map_replace_by_key at_uuid (fun h => set_used_at h (Some now)) hit before after
             Hnd).
  - split; [exact Hhit |].
    eapply Forall_impl; [| exact Hbefore]. intros r Hr. now apply String.eqb_neq.
Qed.

Lemma invalidate_token_touches_one_row_witness :
  auth_tokens (snd (invalidate_token (Sample.t0 + minutes 5) "first-secret" Sample.store0))
  = [set_used_at Sample.old_reset (Some (Sample.t0 + minutes 5)); Sample.old_magic].
Proof.
  assert (Hnd : NoDup (map at_uuid (auth_tokens Sample.store0))).
  { cbn. repeat (constructor; [intro Hx; cbn in Hx; intuition discriminate |]).
    constructor. }
  assert (Hdone : fst (invalidate_token (Sample.t0 + minutes 5) "first-secret"
                                        Sample.store0) = true)
    by (vm_compute; reflexivity).
  destruct (invalidate_token_touches_one_row (Sample.t0 + minutes 5) "first-secret"
              Sample.store0 Hnd Hdone)
    as (_ & _ & before & hit & after & Hold & Hnew & Hhash & Hbefore).
  rewrite Hnew.
  destruct before as [| x before].
  - cbn [app] in Hold. injection Hold as <- <-. reflexivity.
  - exfalso. cbn [app] in Hold. injection Hold as <- _.
    inversion Hbefore as [| ? ? Hx _]. now apply Hx.
Defined.

(** ** The clean-up job, continued *)

Lemma find_filter_all {A : Type} (p q : A -> bool) (l : list A) :
  (forall x, p x = true -> q x = true) -> find p (filter q l) = find p l.
Proof.
  intros Hpq. induction l as [| a l IH]; [reflexivity |].
  cbn [filter find]. destruct (p a) eqn:Hp.
  - rewrite (Hpq a Hp). cbn [find]. now rewrite Hp.
  - destruct (q a); [cbn [find]; rewrite Hp |]; exact IH.
Qed.

Lemma filter_filter_all {A : Type} (p q : A -> bool) (l : list A) :
  (forall x, p x = true -> q x = true) -> filter p (filter q l) = filter p l.
Proof.
  intros Hpq. induction l as [| a l IH]; [reflexivity |].
  cbn [filter]. destruct (p a) eqn:Hp.
  - rewrite (Hpq a Hp). cbn [filter]. now rewrite Hp, IH.
  - destruct (q a); [cbn [filter]; rewrite Hp |]; exact IH.
Qed.

Lemma valid_survives_cleanup (h tt : string) (t c : datetime) (r : AuthToken) :
  c <= t -> valid_for h tt t r = true ->
  negb (expired c r) && negb (used_before (c - days 1) r) = true.
Proof.
  intros Hct Hvalid. apply valid_for_true in Hvalid.
  destruct Hvalid as (_ & _ & Hunused & Hexp).
  unfold expired, used_before. rewrite Hunused. cbn [is_null negb andb].
  rewrite andb_true_r. apply negb_true_iff, Z.ltb_ge. lia.
Qed.

(** X9. The clean-up changes no answer of [validate_token]: after a
    clean-up run at some time, every validation at that time or later gives
    what it would have given without the clean-up. *)
Theorem cleanup_keeps_validation
    (cleanup_time now : datetime) (raw_token token_type : string) (s : Store) :
  cleanup_time <= now ->
  fst (validate_token now raw_token token_type (snd (cleanup_expired_tokens cleanup_time s)))
  = fst (validate_token now raw_token token_type s).
Proof.
  intros Hle. rewrite !validate_token_run, cleanup_expired_tokens_run.
  cbn [fst users auth_tokens].
  rewrite find_filter_all; [reflexivity |].
  intros r Hr. now apply (valid_survives_cleanup (hash_token raw_token) token_type now).
Qed.

Lemma cleanup_keeps_validation_witness :
  fst (validate_token (Sample.t0 + minutes 20) "first-secret" "password_reset"
         (snd (cleanup_expired_tokens (Sample.t0 + minutes 10) store_with_used)))
  = Some Sample.alice.
Proof.
  rewrite cleanup_keeps_validation.
  - vm_compute. reflexivity.
  - vm_compute. discriminate.
Defined.

(** X10. The clean-up changes no answer of [check_rate_limit] either: the
    rows it removes are older than the window of every check made at the
    clean-up time or later. *)
Theorem cleanup_keeps_rate_limit
    (cleanup_time now : datetime) (email action_type : string) (s : Store) :
  cleanup_time <= now ->
  fst (check_rate_limit now email action_type (snd (cleanup_expired_tokens cleanup_time s)))
  = fst (check_rate_limit now email action_type s).
Proof.
  intros Hle. rewrite !check_rate_limit_run, cleanup_expired_tokens_run.
  cbn [fst]. unfold counted. cbn [rate_limits].
  rewrite filter_filter_all; [reflexivity |].
  intros r Hr. apply recent_request_true in Hr. destruct Hr as (_ & _ & ts & Hts & Hlt).
  unfold stale, sql_lt. rewrite Hts. apply negb_true_iff, Z.ltb_ge. lia.
Qed.

Lemma cleanup_keeps_rate_limit_witness :
  let s := snd (record_attempts four_attempts "alice@example.com" "magic_link"
                                Sample.store0) in
  fst (check_rate_limit (Sample.t0 + minutes 30) "alice@example.com" "magic_link"
         (snd (cleanup_expired_tokens (Sample.t0 + minutes 20) s)))
  = false.
Proof.
  cbv zeta. rewrite cleanup_keeps_rate_limit.
  - vm_compute. reflexivity.
  - vm_compute. discriminate.
Defined.

(** X11. A clean-up absorbs every earlier one: running the clean-up and then
    running it again at the same or a later time leaves the store that the
    later run alone would leave.  In particular the clean-up is idempotent. *)
Theorem cleanup_absorbs_earlier (earlier later : datetime) (s : Store) :
  earlier <= later ->
  snd (cleanup_expired_tokens later (snd (cleanup_expired_tokens earlier s)))
  = snd (cleanup_expired_tokens later s).
Proof.
  intros Hle. rewrite !cleanup_expired_tokens_run. cbn [users auth_tokens rate_limits].
  f_equal.
  - apply filter_filter_all. intros r Hr.
    apply andb_true_iff in Hr. destruct Hr as [He Hu].
    apply negb_true_iff in He, Hu. unfold expired, used_before, sql_lt in *.
    apply Z.ltb_ge in He.
    apply andb_true_iff. split; apply negb_true_iff.
    + apply Z.ltb_ge. lia.
    + destruct (at_used_at r) as [u |]; [| reflexivity].
      cbn [is_null negb andb] in *. apply Z.ltb_ge in Hu. apply Z.ltb_ge. lia.
  - apply filter_filter_all. intros r Hr.
    apply negb_true_iff in Hr. apply negb_true_iff. unfold stale, sql_lt in *.
    destruct (rl_timestamp r) as [ts |]; [| reflexivity].
    apply Z.ltb_ge in Hr. apply Z.ltb_ge. lia.
Qed.

Lemma cleanup_absorbs_earlier_witness :
  snd (cleanup_expired_tokens (Sample.t0 + days 1)
         (snd (cleanup_expired_tokens (Sample.t0 + minutes 10) store_with_used)))
  = snd (cleanup_expired_tokens (Sample.t0 + days 1) store_with_used)
  /\ snd (cleanup_expired_tokens Sample.t0 (snd (cleanup_expired_tokens Sample.t0
                                                   store_with_used)))
     = snd (cleanup_expired_tokens Sample.t0 store_with_used).
Proof.
  split; apply cleanup_absorbs_earlier; vm_compute; discriminate.
Defined.

Lemma filter_partition_length {A : Type} (p : A -> bool) (l : list A) :
  (List.length (filter p l) + List.length (filter (fun x => negb (p x)) l))%nat
  = List.length l.
Proof.
  induction l as [| a l IH]; [reflexivity |].
  cbn [filter]. destruct (p a); cbn [negb List.length]; lia.
Qed.

(** X12. The three counts the clean-up reports account for every row it
    removed: expired tokens, plus consumed tokens among those not expired,
    plus the token rows left, is the number of token rows before; removed
    rate-limit rows plus those left is the number before. *)
Theorem cleanup_counts_add_up (now : datetime) (s : Store) :
  let '(expired_count, used_count, rate_count, s') := cleanup_expired_tokens now s in
  (expired_count + used_count + List.length (auth_tokens s'))%nat
  = List.length (auth_tokens s)
  /\ (rate_count + List.length (rate_limits s'))%nat = List.length (rate_limits s)
  /\ expired_count = List.length (filter (expired now) (auth_tokens s))
  /\ used_count
     = List.length (filter (fun r => negb (expired now r) && used_before (now - days 1) r)
                           (auth_tokens s)).
Proof.
  run_db.
  pose proof (filter_partition_length (expired now) (auth_tokens s)) as H1.
  pose proof (filter_partition_length (used_before (now - days 1))
                (filter (fun r => negb (expired now r)) (auth_tokens s))) as H2.
  pose proof (filter_partition_length (stale (now - RATE_LIMIT_WINDOW)) (rate_limits s))
    as H3.
  repeat split; try lia.
  now rewrite filter_twice.
Qed.

(** ** The rate limiter, continued *)

Lemma lower_app (s t : string) :
  PyStr.lower (s ++ t)%string = (PyStr.lower s ++ PyStr.lower t)%string.
Proof. induction s as [| c s IH]; cbn; [reflexivity | now rewrite IH]. Qed.

Lemma isspace_lower (s : string) :
  string_forallb PyStr.isspace (PyStr.lower s) = string_forallb PyStr.isspace s.
Proof.
  induction s as [| c s IH]; [reflexivity |].
  cbn [PyStr.lower string_forallb]. now rewrite isspace_lower_char, IH.
Qed.

Lemma lstrip_by_app (p : ascii -> bool) (s t : string) :
  PyStr.lstrip_by p (s ++ t)%string
  = if string_forallb p s then PyStr.lstrip_by p t
    else (PyStr.lstrip_by p s ++ t)%string.
Proof.
  induction s as [| c s IH]; [reflexivity |].
  cbn [append PyStr.lstrip_by string_forallb].
  destruct (p c); [exact IH | reflexivity].
Qed.

Lemma lstrip_by_all (p : ascii -> bool) (s : string) :
  string_forallb p s = true -> PyStr.lstrip_by p s = "".
Proof.
  induction s as [| c s IH]; [reflexivity |].
  cbn [string_forallb PyStr.lstrip_by]. intros H. apply andb_true_iff in H.
  destruct H as [-> Hs]. now apply IH.
Qed.

Lemma rstrip_by_app_all (p : ascii -> bool) (s t : string) :
  string_forallb p t = true ->
  PyStr.rstrip_by p (s ++ t)%string = PyStr.rstrip_by p s.
Proof.
  intros Ht. induction s as [| c s IH].
  - cbn [append PyStr.rstrip_by]. now apply rstrip_by_all.
  - cbn [append PyStr.rstrip_by]. now rewrite IH.
Qed.

(** Whitespace around a string does not survive [strip]. *)
Lemma strip_padding (ws1 ws2 s : string) :
  string_forallb PyStr.isspace ws1 = true ->
  string_forallb PyStr.isspace ws2 = true ->
  PyStr.strip (ws1 ++ s ++ ws2)%string = PyStr.strip s.
Proof.
  intros H1 H2. unfold PyStr.strip.
  rewrite lstrip_by_app, H1, lstrip_by_app.
  destruct (string_forallb PyStr.isspace s) eqn:Hs.
  - rewrite (lstrip_by_all _ ws2 H2), (lstrip_by_all _ s Hs). reflexivity.
  - now apply rstrip_by_app_all.
Qed.

(** X13. The rate-limit bucket of an e-mail ignores its spelling: two
    e-mails that agree up to letter case, each with any whitespace around
    it, hash to the same identifier, so an attempt recorded under one
    spelling is counted against the other. *)
Theorem rate_limit_bucket_ignores_spelling
    (email1 email2 ws1 ws2 ws3 ws4 : string) :
  PyStr.lower email1 = PyStr.lower email2 ->
  string_forallb PyStr.isspace ws1 = true ->
  string_forallb PyStr.isspace ws2 = true ->
  string_forallb PyStr.isspace ws3 = true ->
  string_forallb PyStr.isspace ws4 = true ->
  let spelled1 := (ws1 ++ email1 ++ ws2)%string in
  let spelled2 := (ws3 ++ email2 ++ ws4)%string in
  hash_email_for_rate_limit spelled1 = hash_email_for_rate_limit spelled2
  /\ (forall now pk action_type s,
        record_rate_limit now pk spelled1 action_type s
        = record_rate_limit now pk spelled2 action_type s)
  /\ (forall now action_type s,
        check_rate_limit now spelled1 action_type s
        = check_rate_limit now spelled2 action_type s).
Proof.
  intros Hcase H1 H2 H3 H4. cbv zeta.
  assert (Hhash : hash_email_for_rate_limit (ws1 ++ email1 ++ ws2)
                  = hash_email_for_rate_limit (ws3 ++ email2 ++ ws4)).
  { unfold hash_email_for_rate_limit. rewrite !lower_app.
    rewrite !strip_padding by (now rewrite isspace_lower).
    now rewrite Hcase. }
  split; [exact Hhash |].
  unfold record_rate_limit, check_rate_limit. rewrite Hhash. split; reflexivity.
Qed.

Lemma rate_limit_bucket_ignores_spelling_witness :
  hash_email_for_rate_limit "  Alice@Example.COM "
  = hash_email_for_rate_limit "alice@example.com"
  /\ fst (check_rate_limit (Sample.t0 + minutes 5) "alice@example.com" "magic_link"
            (snd (record_attempts four_attempts "  Alice@Example.COM " "magic_link"
                                  Sample.store0)))
     = false.
Proof.
  assert (H : hash_email_for_rate_limit "  Alice@Example.COM "
              = hash_email_for_rate_limit "alice@example.com").
  { apply (rate_limit_bucket_ignores_spelling "Alice@Example.COM" "alice@example.com"
             "  " " " "" ""); reflexivity. }
  split; [exact H |].
  rewrite check_rate_limit_run. cbn [fst]. unfold counted.
  rewrite record_attempts_rows. cbn [rate_limits]. rewrite H.
  vm_compute. reflexivity.
Defined.

(** X14. Buckets are independent: recording an attempt for one e-mail and
    action type changes no answer of [check_rate_limit] for another action
    type or for an e-mail with another identifier, and touches neither the
    users nor the tokens. *)
Theorem record_rate_limit_other_bucket
    (t now : datetime) (pk : GUID) (email action_type other_email other_action : string)
    (s : Store) :
  other_action <> action_type
  \/ hash_email_for_rate_limit other_email <> hash_email_for_rate_limit email ->
  let s' := snd (record_rate_limit t pk email action_type s) in
  fst (check_rate_limit now other_email other_action s')
  = fst (check_rate_limit now other_email other_action s)
  /\ users s' = users s /\ auth_tokens s' = auth_tokens s
  /\ List.length (rate_limits s') = S (List.length (rate_limits s)).
Proof.
  intros Hother. cbv zeta. rewrite !check_rate_limit_run. cbn [fst].
  unfold counted, record_rate_limit. run_db.
  rewrite filter_app, !length_app. cbn [filter].
  replace (recent_request _ _ _ _) with false.
  - cbn [List.length]. rewrite Nat.add_0_r.
    split; [reflexivity |]. split; [reflexivity |]. split; [reflexivity | lia].
  - symmetry. unfold recent_request. cbn [rl_identifier rl_action_type rl_timestamp].
    destruct Hother as [Ha | Hi].
    + apply not_eq_sym, String.eqb_neq in Ha. rewrite Ha. now rewrite andb_false_r.
    + apply not_eq_sym, String.eqb_neq in Hi. now rewrite Hi.
Qed.

Lemma record_rate_limit_other_bucket_witness :
  let s := snd (record_attempts four_attempts "alice@example.com" "magic_link"
                                Sample.store0) in
  fst (check_rate_limit (Sample.t0 + minutes 5) "alice@example.com" "magic_link" s) = false
  /\ fst (check_rate_limit (Sample.t0 + minutes 5) "alice@example.com" "password_reset"
            (snd (record_rate_limit (Sample.t0 + minutes 4) 24 "alice@example.com"
                                    "magic_link" s)))
     = true.
Proof.
  cbv zeta. split; [vm_compute; reflexivity |].
  destruct (record_rate_limit_other_bucket (Sample.t0 + minutes 4) (Sample.t0 + minutes 5)
              24 "alice@example.com" "magic_link" "alice@example.com" "password_reset"
              (snd (record_attempts four_attempts "alice@example.com" "magic_link"
                                    Sample.store0)))
    as [H _].
  - left. discriminate.
  - rewrite H. vm_compute. reflexivity.
Defined.

Lemma filter_length_le {A : Type} (p q : A -> bool) (l : list A) :
  (forall x, p x = true -> q x = true) ->
  (List.length (filter p l) <= List.length (filter q l))%nat.
Proof.
  intros Hpq. induction l as [| a l IH]; [constructor |].
  cbn [filter]. destruct (p a) eqn:Hp.
  - rewrite (Hpq a Hp). cbn [List.length]. lia.
  - destruct (q a); cbn [List.length]; lia.
Qed.

(** X15. Waiting never gets a caller refused: with the rate-limit rows
    unchanged, a request that [check_rate_limit] allows at some time is
    allowed at every later time. *)
Theorem check_rate_limit_monotone
    (now later : datetime) (email action_type : string) (s : Store) :
  now <= later ->
  fst (check_rate_limit now email action_type s) = true ->
  fst (check_rate_limit later email action_type s) = true.
Proof.
  intros Hle. rewrite !check_rate_limit_run. cbn [fst]. rewrite !Nat.ltb_lt.
  intros Hnow. eapply Nat.le_lt_trans; [| exact Hnow].
  unfold counted. apply filter_length_le. intros r Hr.
  apply recent_request_true in Hr. destruct Hr as (Hi & Ha & ts & Hts & Hlt).
  apply recent_request_true. repeat split; try assumption.
  exists ts. split; [exact Hts | lia].
Qed.

Lemma check_rate_limit_monotone_witness :
  let s := snd (record_attempts (firstn 2 four_attempts) "alice@example.com" "magic_link"
                                Sample.store0) in
  fst (check_rate_limit (Sample.t0 + minutes 5) "alice@example.com" "magic_link" s) = true
  /\ fst (check_rate_limit (Sample.t0 + days 1) "alice@example.com" "magic_link" s) = true.
Proof.
  cbv zeta.
  assert (H : fst (check_rate_limit (Sample.t0 + minutes 5) "alice@example.com" "magic_link"
                     (snd (record_attempts (firstn 2 four_attempts) "alice@example.com"
                                           "magic_link" Sample.store0))) = true)
    by (vm_compute; reflexivity).
  split; [exact H |].
  apply (check_rate_limit_monotone (Sample.t0 + minutes 5)); [| exact H].
  vm_compute. discriminate.
Defined.

(** ** Looking a user up by e-mail, continued *)

Lemma lower_empty (s : string) : PyStr.lower s = "" -> s = "".
Proof. destruct s; [reflexivity | discriminate]. Qed.

(** X16. A blank query finds nobody: for a query that is empty or made of
    whitespace only, [get_user_by_email] returns nothing, whatever the user
    table holds (a user whose stored e-mail is empty is not matched by it). *)
Theorem get_user_by_email_blank (email : string) (s : Store) :
  string_forallb PyStr.isspace email = true ->
  get_user_by_email email s = (None, s).
Proof.
  intros Hblank. unfold get_user_by_email.
  destruct (PyStr.truthy email); cbn [negb]; [| reflexivity].
  run_db. f_equal.
  replace (PyStr.strip (PyStr.lower email)) with "".
  - apply find_none_iff. apply Forall_forall. intros u _.
    unfold email_matches. destruct (user_email u) as [e |]; [| reflexivity].
    destruct (PyStr.truthy e) eqn:He; [| reflexivity]. cbn [andb].
    apply String.eqb_neq. intros Hl. apply lower_empty in Hl. subst e. discriminate He.
  - symmetry. unfold PyStr.strip. rewrite lstrip_by_all; [reflexivity |].
    now rewrite isspace_lower.
Qed.

Lemma get_user_by_email_blank_witness :
  get_user_by_email "   "
    (mkStore [mkUser 7 (Some "") "dave"; mkUser 8 (Some "   ") "erin"] [] [])
  = (None, mkStore [mkUser 7 (Some "") "dave"; mkUser 8 (Some "   ") "erin"] [] []).
Proof. apply get_user_by_email_blank. reflexivity. Defined.

(** ** The two notifications *)

(** The four templates, rendered by Python for one URL and hashed: the
    renderings are ASCII, so their utf-8 bytes are their code points. *)
Example templates_known_answers :
  let url := Email.lit "https://notes.example/x?token=abc" in
  SHA256.hexdigest (map Z.of_N (Notifier.password_reset_html url))
  = "1e5843b2eeca718f5004ea2ee539db1b8698028c52cb7974e240cdf153c8aaec"
  /\ SHA256.hexdigest (map Z.of_N (Notifier.password_reset_text url))
     = "aae1b447d5e92383430b83ca4b27a9407249fba8a2b8502ff96a32f39edfcae4"
  /\ SHA256.hexdigest (map Z.of_N (Notifier.magic_link_html url))
     = "0455ec7b0e709f3c32f4f0d4aa23c280b5cb9b5c2b981f491dd8e4afddbd1788"
  /\ SHA256.hexdigest (map Z.of_N (Notifier.magic_link_text url))
     = "2aac9f1163a0cd1a73483d36900d2ad4ddf8667232ab4cb8deb61a7a6361ab67".
Proof. vm_compute. repeat split. Qed.

Lemma occurs_in_here (x : Email.str) (rest : list Email.str) :
  occurs_in x (Notifier.fstring (x :: rest)).
Proof. exists [], (Notifier.fstring rest). reflexivity. Qed.

Lemma occurs_in_later (x a : Email.str) (rest : list Email.str) :
  occurs_in x (Notifier.fstring rest) -> occurs_in x (Notifier.fstring (a :: rest)).
Proof.
  intros (before & after & H). exists (a ++ before), after.
  unfold Notifier.fstring in *. cbn [List.concat]. rewrite H. now rewrite app_assoc.
Qed.

Ltac find_occurrence :=
  repeat first [ apply occurs_in_here | apply occurs_in_later ].

Lemma fstring_three (a b c : Email.str) :
  Notifier.fstring [a; b; c] = a ++ b ++ c.
Proof. unfold Notifier.fstring. cbn [List.concat]. now rewrite app_nil_r. Qed.

(** An f-string holds a surrogate exactly when one of its pieces does. *)
Lemma fstring_surrogates (parts : list Email.str) :
  existsb Email.is_surrogate (Notifier.fstring parts)
  = existsb (existsb Email.is_surrogate) parts.
Proof.
  unfold Notifier.fstring.
  induction parts as [| p parts IH]; [reflexivity |].
  cbn [List.concat existsb]. now rewrite existsb_app, IH.
Qed.

Lemma lit_surrogates (s : string) : existsb Email.is_surrogate (Email.lit s) = false.
Proof. exact (lit_encodable s). Qed.

Ltac template_surrogates :=
  rewrite fstring_surrogates; cbn [existsb];
  rewrite ?lit_surrogates;
  change (existsb Email.is_surrogate Notifier.dq) with false;
  cbn [orb]; rewrite ?orb_false_r;
  match goal with
  | |- context [existsb Email.is_surrogate ?u] =>
      destruct (existsb Email.is_surrogate u); reflexivity
  end.

Lemma password_reset_html_surrogates (reset_url : Email.str) :
  existsb Email.is_surrogate (Notifier.password_reset_html reset_url) = existsb Email.is_surrogate reset_url.
Proof. unfold Notifier.password_reset_html. template_surrogates. Qed.

Lemma password_reset_html_nonempty (reset_url : Email.str) :
  exists c t, Notifier.password_reset_html reset_url = c :: t.
Proof. eexists. eexists. reflexivity. Qed.

Lemma password_reset_text_surrogates (reset_url : Email.str) :
  existsb Email.is_surrogate (Notifier.password_reset_text reset_url) = existsb Email.is_surrogate reset_url.
Proof. unfold Notifier.password_reset_text. template_surrogates. Qed.

Lemma password_reset_text_nonempty (reset_url : Email.str) :
  exists c t, Notifier.password_reset_text reset_url = c :: t.
Proof. eexists. eexists. reflexivity. Qed.

Lemma magic_link_html_surrogates (login_url : Email.str) :
  existsb Email.is_surrogate (Notifier.magic_link_html login_url) = existsb Email.is_surrogate login_url.
Proof. unfold Notifier.magic_link_html. template_surrogates. Qed.

Lemma magic_link_html_nonempty (login_url : Email.str) :
  exists c t, Notifier.magic_link_html login_url = c :: t.
Proof. eexists. eexists. reflexivity. Qed.

Lemma magic_link_text_surrogates (login_url : Email.str) :
  existsb Email.is_surrogate (Notifier.magic_link_text login_url) = existsb Email.is_surrogate login_url.
Proof. unfold Notifier.magic_link_text. template_surrogates. Qed.

Lemma magic_link_text_nonempty (login_url : Email.str) :
  exists c t, Notifier.magic_link_text login_url = c :: t.
Proof. eexists. eexists. reflexivity. Qed.

(** X17. [send_password_reset] mails the reset link.  The URL is made of
    the application URL, "/auth/reset-password?token=" and the token.  A
    service that is not enabled answers false and contacts no transport.  An
    enabled one raises UnicodeEncodeError, before any transport is contacted,
    when the URL holds a surrogate.  When the URL holds none, the message
    handed to the transport has the subject "Reset Your DailyNotes
    Password", the recipient as "To", a plain-text part followed by an HTML
    part, and both parts contain the URL verbatim; the call answers true when
    the transport returns, false when it raises an instance of [Exception],
    and lets any other exception of the transport through. *)
Theorem send_password_reset_mails_link
    (self : Email.EmailService) (to_email token : Email.str) :
  let reset_url :=
    Email.py_str (Email.app_url self) ++ Email.lit "/auth/reset-password?token=" ++ token in
  (Email.enabled self = false ->
   forall transport : Email.Message -> Email.SendArgs -> Email.outcome unit,
     Notifier.send_password_reset transport self to_email token = Email.Returns false)
  /\ (Email.enabled self = true ->
      existsb Email.is_surrogate reset_url = true ->
      forall transport : Email.Message -> Email.SendArgs -> Email.outcome unit,
        Notifier.send_password_reset transport self to_email token
        = Email.Raises (Email.ExceptionInstance "UnicodeEncodeError"))
  /\ (encodable reset_url ->
      exists (msg : Email.Message) (text html : Email.str),
        Email.headers msg
        = [ ("Subject", Email.lit "Reset Your DailyNotes Password");
            ("From", Email.py_str (Email.from_name self) ++ Email.lit " <"
                     ++ Email.py_str (Email.from_email self) ++ Email.lit ">");
            ("To", to_email) ]
        /\ Email.parts msg = [("plain", text); ("html", html)]
        /\ occurs_in reset_url text
        /\ occurs_in reset_url html
        /\ forall transport : Email.Message -> Email.SendArgs -> Email.outcome unit,
             Notifier.send_password_reset transport self to_email token
             = if Email.enabled self
               then match transport msg
                            (Email.mkSendArgs (Email.smtp_host self) (Email.smtp_port self)
                               (Email.smtp_user self) (Email.smtp_password self)
                               (Email.smtp_use_tls self)) with
                    | Email.Returns _ => Email.Returns true
                    | Email.Raises e =>
                        if Email.isinstance_Exception e
                        then Email.Returns false
                        else Email.Raises e
                    end
               else Email.Returns false).
Proof.
  cbv zeta.
  rewrite <- (fstring_three (Email.py_str (Email.app_url self))
                (Email.lit "/auth/reset-password?token=") token).
  unfold Notifier.send_password_reset.
  set (url := Notifier.fstring _).
  split.
  { intros Hoff transport. rewrite send_email_cases, Hoff. reflexivity. }
  split.
  { intros Hon Hurl transport. rewrite send_email_cases, Hon.
    unfold Email.build_message.
    destruct (password_reset_text_nonempty url) as (c & t & E).
    pose proof (password_reset_text_surrogates url) as Htext. rewrite Hurl, E in Htext.
    rewrite E. unfold Email.MIMEText at 1. rewrite Htext. reflexivity. }
  intros Hurl.
  exists (Email.mkMessage
            [ ("Subject", Email.lit "Reset Your DailyNotes Password");
              ("From", Email.py_str (Email.from_name self) ++ Email.lit " <"
                       ++ Email.py_str (Email.from_email self) ++ Email.lit ">");
              ("To", to_email) ]
            [("plain", Notifier.password_reset_text url); ("html", Notifier.password_reset_html url)]),
         (Notifier.password_reset_text url), (Notifier.password_reset_html url).
  split; [reflexivity |].
  split; [reflexivity |].
  split; [unfold Notifier.password_reset_text; find_occurrence |].
  split; [unfold Notifier.password_reset_html; find_occurrence |].
  intros transport. rewrite send_email_cases.
  rewrite build_message_encodable.
  - destruct (password_reset_text_nonempty url) as (c & t & E). rewrite E. reflexivity.
  - unfold encodable. rewrite password_reset_html_surrogates. exact Hurl.
  - intros t [= <-]. unfold encodable. rewrite password_reset_text_surrogates. exact Hurl.
Qed.

Lemma send_password_reset_mails_link_witness :
  Notifier.send_password_reset accepting_transport (Email.init_app smtp_config)
    (Email.lit "alice@example.com") (Email.lit "abc") = Email.Returns true
  /\ Notifier.send_password_reset refusing_transport (Email.init_app smtp_config)
       (Email.lit "alice@example.com") (Email.lit "abc") = Email.Returns false
  /\ Notifier.send_password_reset cancelled_transport (Email.init_app smtp_config)
       (Email.lit "alice@example.com") (Email.lit "abc")
     = Email.Raises (Email.BaseExceptionInstance "CancelledError")
  /\ Notifier.send_password_reset accepting_transport (Email.init_app smtp_config)
       (Email.lit "alice@example.com") [55296%N]
     = Email.Raises (Email.ExceptionInstance "UnicodeEncodeError")
  /\ Notifier.send_password_reset accepting_transport (Email.init_app smtp_config_no_password)
       (Email.lit "alice@example.com") (Email.lit "abc") = Email.Returns false.
Proof.
  destruct (proj2 (proj2 (send_password_reset_mails_link (Email.init_app smtp_config)
              (Email.lit "alice@example.com") (Email.lit "abc"))) eq_refl)
    as (msg & text & html & _ & _ & _ & _ & Hsent).
  split; [exact (Hsent accepting_transport) |].
  split; [exact (Hsent refusing_transport) |].
  split; [exact (Hsent cancelled_transport) |].
  split.
  - exact (proj1 (proj2 (send_password_reset_mails_link (Email.init_app smtp_config)
              (Email.lit "alice@example.com") [55296%N])) eq_refl eq_refl
             accepting_transport).
  - exact (proj1 (send_password_reset_mails_link (Email.init_app smtp_config_no_password)
              (Email.lit "alice@example.com") (Email.lit "abc")) eq_refl
             accepting_transport).
Defined.

(** X18. [send_magic_link] mails the sign-in link: the same as for the
    password reset, with the subject "Sign in to DailyNotes" and the URL made
    of the application URL, "/auth/verify-magic-link?token=" and the token. *)
Theorem send_magic_link_mails_link
    (self : Email.EmailService) (to_email token : Email.str) :
  let login_url :=
    Email.py_str (Email.app_url self) ++ Email.lit "/auth/verify-magic-link?token=" ++ token in
  (Email.enabled self = false ->
   forall transport : Email.Message -> Email.SendArgs -> Email.outcome unit,
     Notifier.send_magic_link transport self to_email token = Email.Returns false)
  /\ (Email.enabled self = true ->
      existsb Email.is_surrogate login_url = true ->
      forall transport : Email.Message -> Email.SendArgs -> Email.outcome unit,
        Notifier.send_magic_link transport self to_email token
        = Email.Raises (Email.ExceptionInstance "UnicodeEncodeError"))
  /\ (encodable login_url ->
      exists (msg : Email.Message) (text html : Email.str),
        Email.headers msg
        = [ ("Subject", Email.lit "Sign in to DailyNotes");
            ("From", Email.py_str (Email.from_name self) ++ Email.lit " <"
                     ++ Email.py_str (Email.from_email self) ++ Email.lit ">");
            ("To", to_email) ]
        /\ Email.parts msg = [("plain", text); ("html", html)]
        /\ occurs_in login_url text
        /\ occurs_in login_url html
        /\ forall transport : Email.Message -> Email.SendArgs -> Email.outcome unit,
             Notifier.send_magic_link transport self to_email token
             = if Email.enabled self
               then match transport msg
                            (Email.mkSendArgs (Email.smtp_host self) (Email.smtp_port self)
                               (Email.smtp_user self) (Email.smtp_password self)
                               (Email.smtp_use_tls self)) with
                    | Email.Returns _ => Email.Returns true
                    | Email.Raises e =>
                        if Email.isinstance_Exception e
                        then Email.Returns false
                        else Email.Raises e
                    end
               else Email.Returns false).
Proof.
  cbv zeta.
  rewrite <- (fstring_three (Email.py_str (Email.app_url self))
                (Email.lit "/auth/verify-magic-link?token=") token).
  unfold Notifier.send_magic_link.
  set (url := Notifier.fstring _).
  split.
  { intros Hoff transport. rewrite send_email_cases, Hoff. reflexivity. }
  split.
  { intros Hon Hurl transport. rewrite send_email_cases, Hon.
    unfold Email.build_message.
    destruct (magic_link_text_nonempty url) as (c & t & E).
    pose proof (magic_link_text_surrogates url) as Htext. rewrite Hurl, E in Htext.
    rewrite E. unfold Email.MIMEText at 1. rewrite Htext. reflexivity. }
  intros Hurl.
  exists (Email.mkMessage
            [ ("Subject", Email.lit "Sign in to DailyNotes");
              ("From", Email.py_str (Email.from_name self) ++ Email.lit " <"
                       ++ Email.py_str (Email.from_email self) ++ Email.lit ">");
              ("To", to_email) ]
            [("plain", Notifier.magic_link_text url); ("html", Notifier.magic_link_html url)]),
         (Notifier.magic_link_text url), (Notifier.magic_link_html url).
  split; [reflexivity |].
  split; [reflexivity |].
  split; [unfold Notifier.magic_link_text; find_occurrence |].
  split; [unfold Notifier.magic_link_html; find_occurrence |].
  intros transport. rewrite send_email_cases.
  rewrite build_message_encodable.
  - destruct (magic_link_text_nonempty url) as (c & t & E). rewrite E. reflexivity.
  - unfold encodable. rewrite magic_link_html_surrogates. exact Hurl.
  - intros t [= <-]. unfold encodable. rewrite magic_link_text_surrogates. exact Hurl.
Qed.

Lemma send_magic_link_mails_link_witness :
  Notifier.send_magic_link accepting_transport (Email.init_app smtp_config)
    (Email.lit "alice@example.com") (Email.lit "abc") = Email.Returns true
  /\ Notifier.send_magic_link refusing_transport (Email.init_app smtp_config)
       (Email.lit "alice@example.com") (Email.lit "abc") = Email.Returns false
  /\ Notifier.send_magic_link cancelled_transport (Email.init_app smtp_config)
       (Email.lit "alice@example.com") (Email.lit "abc")
     = Email.Raises (Email.BaseExceptionInstance "CancelledError")
  /\ Notifier.send_magic_link accepting_transport (Email.init_app smtp_config)
       (Email.lit "alice@example.com") [55296%N]
     = Email.Raises (Email.ExceptionInstance "UnicodeEncodeError")
  /\ Notifier.send_magic_link accepting_transport (Email.init_app smtp_config_no_password)
       (Email.lit "alice@example.com") (Email.lit "abc") = Email.Returns false.
Proof.
  destruct (proj2 (proj2 (send_magic_link_mails_link (Email.init_app smtp_config)
              (Email.lit "alice@example.com") (Email.lit "abc"))) eq_refl)
    as (msg & text & html & _ & _ & _ & _ & Hsent).
  split; [exact (Hsent accepting_transport) |].
  split; [exact (Hsent refusing_transport) |].
  split; [exact (Hsent cancelled_transport) |].
  split.
  - exact (proj1 (proj2 (send_magic_link_mails_link (Email.init_app smtp_config)
              (Email.lit "alice@example.com") [55296%N])) eq_refl eq_refl
             accepting_transport).
  - exact (proj1 (send_magic_link_mails_link (Email.init_app smtp_config_no_password)
              (Email.lit "alice@example.com") (Email.lit "abc")) eq_refl
             accepting_transport).
Defined.

(** ** The migrations *)

Lemma filter_all_kept {A : Type} (p : A -> bool) (l : list A) :
  Forall (fun x => p x = true) l -> filter p l = l.
Proof.
  induction 1 as [| a l Ha _ IH]; [reflexivity |].
  cbn [filter]. now rewrite Ha, IH.
Qed.

Lemma has_column_false (name : string) (cols : list Alembic.Column) :
  existsb (fun c => String.eqb (Alembic.col_name c) name) cols = false ->
  Forall (fun c => negb (String.eqb (Alembic.col_name c) name) = true) cols.
Proof.
  induction cols as [| c cols IH]; [constructor |].
  cbn [existsb]. intros H. apply orb_false_iff in H. destruct H as [Hc Hrest].
  constructor; [now rewrite Hc | now apply IH].
Qed.

(** Dropping the column that was just added gives the tables back. *)
Lemma alter_add_then_drop (table : string) (column : Alembic.Column)
    (ts ts1 : list Alembic.Table) :
  Alembic.alter table
    (fun t => if Alembic.has_column (Alembic.col_name column) t then None
              else Some (Alembic.mkTable (Alembic.tbl_name t)
                           (Alembic.tbl_columns t ++ [column]) (Alembic.tbl_constraints t)))
    ts = Some ts1 ->
  Alembic.alter table
    (fun t => if Alembic.has_column (Alembic.col_name column) t
              then Some (Alembic.mkTable (Alembic.tbl_name t)
                           (filter (fun c => negb (String.eqb (Alembic.col_name c)
                                                              (Alembic.col_name column)))
                                   (Alembic.tbl_columns t))
                           (Alembic.tbl_constraints t))
              else None)
    ts1 = Some ts.
Proof.
  revert ts1. induction ts as [| t rest IH]; intros ts1; cbn [Alembic.alter];
    [discriminate |].
  destruct (String.eqb (Alembic.tbl_name t) table) eqn:Hname.
  - destruct (Alembic.has_column (Alembic.col_name column) t) eqn:Hcol; cbn [option_map];
      [discriminate |].
    intros [= <-]. cbn [Alembic.alter Alembic.tbl_name]. rewrite Hname.
    unfold Alembic.has_column at 1. cbn [Alembic.tbl_columns].
    rewrite existsb_app. cbn [existsb]. rewrite String.eqb_refl, orb_true_r.
    cbn [option_map Alembic.tbl_name Alembic.tbl_columns Alembic.tbl_constraints].
    rewrite filter_app. cbn [filter]. rewrite String.eqb_refl. cbn [negb].
    rewrite app_nil_r, filter_all_kept by (now apply has_column_false).
    now destruct t.
  - destruct (Alembic.alter table _ rest) as [rest1 |] eqn:Hrest; cbn [option_map];
      [| discriminate].
    intros [= <-]. cbn [Alembic.alter]. rewrite Hname, (IH rest1 eq_refl). reflexivity.
Qed.

Lemma apply_add_then_drop (table : string) (column : Alembic.Column)
    (s s1 : Alembic.Schema) :
  Alembic.apply (Alembic.add_column table column) s = Some s1 ->
  Alembic.apply (Alembic.drop_column table (Alembic.col_name column)) s1 = Some s.
Proof.
  cbn [Alembic.apply].
  destruct (Alembic.alter table _ (Alembic.tables s)) as [ts1 |] eqn:Halter;
    cbn [option_map]; [| discriminate].
  intros [= <-]. cbn [Alembic.tables Alembic.indexes].
  rewrite (alter_add_then_drop _ _ _ _ Halter). cbn [option_map]. now destruct s.
Qed.

Lemma alter_names (table : string) (f : Alembic.Table -> option Alembic.Table)
    (ts ts1 : list Alembic.Table) :
  (forall t t', f t = Some t' -> Alembic.tbl_name t' = Alembic.tbl_name t) ->
  Alembic.alter table f ts = Some ts1 ->
  map Alembic.tbl_name ts1 = map Alembic.tbl_name ts.
Proof.
  intros Hf. revert ts1. induction ts as [| t rest IH]; intros ts1; cbn [Alembic.alter];
    [discriminate |].
  destruct (String.eqb (Alembic.tbl_name t) table).
  - destruct (f t) as [t' |] eqn:Ht; cbn [option_map]; [| discriminate].
    intros [= <-]. cbn [map]. now rewrite (Hf t t' Ht).
  - destruct (Alembic.alter table f rest) as [rest1 |]; cbn [option_map]; [| discriminate].
    intros [= <-]. cbn [map]. now rewrite (IH rest1 eq_refl).
Qed.

Lemma find_table_by_names (name : string) (ts ts' : list Alembic.Table) :
  map Alembic.tbl_name ts = map Alembic.tbl_name ts' ->
  find (fun t => String.eqb (Alembic.tbl_name t) name) ts = None ->
  find (fun t => String.eqb (Alembic.tbl_name t) name) ts' = None.
Proof.
  revert ts'. induction ts as [| t rest IH]; intros [| t' rest']; cbn [map find];
    try discriminate; [reflexivity |].
  intros [= Hname Hrest]. rewrite <- Hname.
  destruct (String.eqb (Alembic.tbl_name t) name); [discriminate | now apply IH].
Qed.

(** Dropping the table that was appended gives the tables back. *)
Lemma remove_table_last (name : string) (ts : list Alembic.Table) (t : Alembic.Table) :
  find (fun x => String.eqb (Alembic.tbl_name x) name) ts = None ->
  Alembic.tbl_name t = name ->
  Alembic.remove_table name (ts ++ [t]) = Some ts.
Proof.
  intros Hnone Hname. induction ts as [| x rest IH]; cbn [app Alembic.remove_table].
  - now rewrite Hname, String.eqb_refl.
  - cbn [find] in Hnone. destruct (String.eqb (Alembic.tbl_name x) name); [discriminate |].
    now rewrite (IH Hnone).
Qed.

Lemma create_table_inv (name : string) (cols : list Alembic.Column)
    (cons : list Alembic.constraint) (s s' : Alembic.Schema) :
  Alembic.apply (Alembic.create_table name cols cons) s = Some s' ->
  find (fun t => String.eqb (Alembic.tbl_name t) name) (Alembic.tables s) = None
  /\ s' = Alembic.mkSchema (Alembic.tables s ++ [Alembic.mkTable name cols cons])
                           (Alembic.indexes s).
Proof.
  cbn [Alembic.apply]. unfold Alembic.find_table.
  destruct (find _ (Alembic.tables s)); [discriminate |]. intros [= <-]. auto.
Qed.

Lemma create_index_inv (name table : string) (cols : list string) (unique : bool)
    (s s' : Alembic.Schema) :
  Alembic.apply (Alembic.create_index name table cols unique) s = Some s' ->
  s' = Alembic.mkSchema (Alembic.tables s)
         (Alembic.indexes s ++ [Alembic.mkIndex name table cols unique]).
Proof.
  cbn [Alembic.apply]. destruct (Alembic.find_table table s); [| discriminate].
  destruct (_ || _); [discriminate |]. now intros [= <-].
Qed.

Lemma add_column_inv (table : string) (column : Alembic.Column) (s s' : Alembic.Schema) :
  Alembic.apply (Alembic.add_column table column) s = Some s' ->
  Alembic.indexes s' = Alembic.indexes s
  /\ map Alembic.tbl_name (Alembic.tables s') = map Alembic.tbl_name (Alembic.tables s).
Proof.
  cbn [Alembic.apply].
  destruct (Alembic.alter table _ (Alembic.tables s)) as [ts |] eqn:Halter;
    cbn [option_map]; [| discriminate].
  intros [= <-]. split; [reflexivity |]. cbn [Alembic.tables].
  refine (alter_names _ _ _ _ _ Halter). intros t t'. cbn beta.
  destruct (Alembic.has_column _ t); [discriminate | now intros [= <-]].
Qed.

Ltac invert_run H :=
  cbn [Alembic.run] in H;
  match type of H with
  | match Alembic.apply ?o ?s with _ => _ end = Some _ =>
      let s' := fresh "s" in
      let Hs := fresh "Hstep" in
      destruct (Alembic.apply o s) as [s' |] eqn:Hs; [| discriminate H]
  end.

Lemma email_and_auth_tokens_round_trip (s s1 : Alembic.Schema) :
  Forall (fun i => Alembic.ix_table i <> "auth_token" /\ Alembic.ix_table i <> "rate_limit")
         (Alembic.indexes s) ->
  Alembic.run (Alembic.upgrade Alembic.email_and_auth_tokens) s = Some s1 ->
  Alembic.run (Alembic.downgrade Alembic.email_and_auth_tokens) s1 = Some s.
Proof.
  intros Hix Hup. cbn [Alembic.upgrade Alembic.email_and_auth_tokens] in Hup.
  do 7 invert_run Hup. cbn [Alembic.run] in Hup. injection Hup as <-.
  destruct (add_column_inv _ _ _ _ Hstep) as [Hixs _].
  apply create_table_inv in Hstep0. destruct Hstep0 as [Hno_at ->].
  apply create_index_inv in Hstep1. subst s3.
  apply create_index_inv in Hstep2. subst s4.
  apply create_table_inv in Hstep3. destruct Hstep3 as [Hno_rl ->].
  apply create_index_inv in Hstep4. subst s6.
  apply create_index_inv in Hstep5. subst s7.
  cbn [Alembic.tables Alembic.indexes] in *.
  assert (Hkeep_rl : Forall (fun i => negb (String.eqb (Alembic.ix_table i) "rate_limit")
                                      = true) (Alembic.indexes s0)).
  { rewrite Hixs. eapply Forall_impl; [| exact Hix]. intros i [_ Hi].
    now apply negb_true_iff, String.eqb_neq. }
  assert (Hkeep_at : Forall (fun i => negb (String.eqb (Alembic.ix_table i) "auth_token")
                                      = true) (Alembic.indexes s0)).
  { rewrite Hixs. eapply Forall_impl; [| exact Hix]. intros i [Hi _].
    now apply negb_true_iff, String.eqb_neq. }
  cbn [Alembic.downgrade Alembic.email_and_auth_tokens Alembic.run Alembic.apply
       Alembic.tables Alembic.indexes].
  rewrite (remove_table_last "rate_limit") by first [exact Hno_rl | reflexivity].
  cbn [option_map].
  rewrite !filter_app, (filter_all_kept _ _ Hkeep_rl). cbn [filter Alembic.ix_table].
  change (String.eqb "auth_token" "rate_limit") with false.
  change (String.eqb "rate_limit" "rate_limit") with true. cbn [negb app].
  rewrite !app_nil_r.
  cbn [Alembic.tables Alembic.indexes].
  rewrite (remove_table_last "auth_token") by first [exact Hno_at | reflexivity].
  cbn [option_map].
  rewrite !filter_app, (filter_all_kept _ _ Hkeep_at). cbn [filter Alembic.ix_table].
  change (String.eqb "auth_token" "auth_token") with true. cbn [negb app].
  rewrite !app_nil_r.
  pose proof (apply_add_then_drop _ _ _ _ Hstep) as Hdrop.
  cbn [Alembic.apply Alembic.col_name] in Hdrop.
  destruct (option_map _ _) as [s' |]; [exact Hdrop | discriminate Hdrop].
Qed.

Lemma column_migrations_round_trip (s s1 : Alembic.Schema) :
  (Alembic.run (Alembic.upgrade Alembic.week_start_monday_column) s = Some s1 ->
   Alembic.run (Alembic.downgrade Alembic.week_start_monday_column) s1 = Some s)
  /\ (Alembic.run (Alembic.upgrade Alembic.note_templates) s = Some s1 ->
      Alembic.run (Alembic.downgrade Alembic.note_templates) s1 = Some s).
Proof.
  split; intros Hup.
  - cbn [Alembic.upgrade Alembic.week_start_monday_column] in Hup.
    invert_run Hup. cbn [Alembic.run] in Hup. injection Hup as <-.
    cbn [Alembic.downgrade Alembic.week_start_monday_column Alembic.run].
    pose proof (apply_add_then_drop _ _ _ _ Hstep) as Hdrop.
    cbn [Alembic.col_name] in Hdrop. now rewrite Hdrop.
  - cbn [Alembic.upgrade Alembic.note_templates] in Hup.
    do 2 invert_run Hup. cbn [Alembic.run] in Hup. injection Hup as <-.
    cbn [Alembic.downgrade Alembic.note_templates Alembic.run].
    pose proof (apply_add_then_drop _ _ _ _ Hstep0) as Hdrop0.
    pose proof (apply_add_then_drop _ _ _ _ Hstep) as Hdrop.
    cbn [Alembic.col_name] in Hdrop0, Hdrop. now rewrite Hdrop0, Hdrop.
Qed.

(** X19. Every migration can be undone: when the upgrade of one of the
    three scripts succeeds on a schema (whose indexes, if any, are not on the
    two tables the scripts create), its downgrade succeeds on the result and
    gives back the schema the upgrade started from, with every table, column
    and index as it was and in its place. *)
Theorem migration_downgrade_undoes_upgrade
    (m : Alembic.Migration) (s s1 : Alembic.Schema) :
  In m Alembic.versions ->
  Forall (fun i => Alembic.ix_table i <> "auth_token" /\ Alembic.ix_table i <> "rate_limit")
         (Alembic.indexes s) ->
  Alembic.run (Alembic.upgrade m) s = Some s1 ->
  Alembic.run (Alembic.downgrade m) s1 = Some s.
Proof.
  intros [<- | [<- | [<- | []]]] Hix Hup.
  - now apply email_and_auth_tokens_round_trip.
  - now apply (proj2 (column_migrations_round_trip s s1)).
  - now apply (proj1 (column_migrations_round_trip s s1)).
Qed.

Lemma migration_downgrade_undoes_upgrade_witness :
  exists s1 : Alembic.Schema,
    Alembic.run (Alembic.upgrade Alembic.email_and_auth_tokens) base_schema = Some s1
    /\ map Alembic.tbl_name (Alembic.tables s1) = ["user"; "note"; "auth_token"; "rate_limit"]
    /\ List.length (Alembic.indexes s1) = 5%nat
    /\ Alembic.run (Alembic.downgrade Alembic.email_and_auth_tokens) s1 = Some base_schema.
Proof.
  destruct (Alembic.run (Alembic.upgrade Alembic.email_and_auth_tokens) base_schema)
    as [s1 |] eqn:Hup; [| vm_compute in Hup; discriminate Hup].
  exists s1. split; [reflexivity |].
  assert (Hs1 : Some s1 = Alembic.run (Alembic.upgrade Alembic.email_and_auth_tokens)
                                      base_schema) by (now rewrite Hup).
  vm_compute in Hs1. injection Hs1 as Hs1.
  split; [now rewrite Hs1 |]. split; [now rewrite Hs1 |].
  apply (migration_downgrade_undoes_upgrade Alembic.email_and_auth_tokens base_schema s1).
  - left. reflexivity.
  - repeat constructor; discriminate.
  - exact Hup.
Defined.

Lemma alter_add_holds (table : string) (column : Alembic.Column)
    (ts ts1 : list Alembic.Table) :
  Alembic.alter table
    (fun t => if Alembic.has_column (Alembic.col_name column) t then None
              else Some (Alembic.mkTable (Alembic.tbl_name t)
                           (Alembic.tbl_columns t ++ [column]) (Alembic.tbl_constraints t)))
    ts = Some ts1 ->
  holds_column table (Alembic.col_name column) ts1
  /\ forall other, holds_column table other ts -> holds_column table other ts1.
Proof.
  revert ts1. induction ts as [| t rest IH]; intros ts1; cbn [Alembic.alter];
    [discriminate |].
  destruct (String.eqb (Alembic.tbl_name t) table) eqn:Hname.
  - destruct (Alembic.has_column (Alembic.col_name column) t); cbn [option_map];
      [discriminate |].
    intros [= <-]. split.
    + eexists. cbn [find Alembic.tbl_name]. rewrite Hname. split; [reflexivity |].
      unfold Alembic.has_column. cbn [Alembic.tbl_columns]. rewrite existsb_app.
      cbn [existsb]. now rewrite String.eqb_refl, orb_true_r.
    + intros other (t0 & Hfind & Hcol). cbn [find] in Hfind. rewrite Hname in Hfind.
      injection Hfind as <-.
      eexists. cbn [find Alembic.tbl_name]. rewrite Hname. split; [reflexivity |].
      unfold Alembic.has_column in *. cbn [Alembic.tbl_columns]. rewrite existsb_app.
      now rewrite Hcol.
  - destruct (Alembic.alter table _ rest) as [rest1 |] eqn:Hrest; cbn [option_map];
      [| discriminate].
    intros [= <-]. destruct (IH rest1 eq_refl) as [Hnew Hkeep]. split.
    + destruct Hnew as (t0 & Hfind & Hcol). exists t0. cbn [find]. now rewrite Hname.
    + intros other (t0 & Hfind & Hcol). cbn [find] in Hfind. rewrite Hname in Hfind.
      destruct (Hkeep other (ex_intro _ t0 (conj Hfind Hcol))) as (t1 & Hfind1 & Hcol1).
      exists t1. cbn [find]. now rewrite Hname.
Qed.

Lemma alter_add_rejected (table : string) (column : Alembic.Column)
    (ts : list Alembic.Table) :
  holds_column table (Alembic.col_name column) ts ->
  Alembic.alter table
    (fun t => if Alembic.has_column (Alembic.col_name column) t then None
              else Some (Alembic.mkTable (Alembic.tbl_name t)
                           (Alembic.tbl_columns t ++ [column]) (Alembic.tbl_constraints t)))
    ts = None.
Proof.
  intros (t0 & Hfind & Hcol). induction ts as [| t rest IH]; [discriminate Hfind |].
  cbn [find] in Hfind. cbn [Alembic.alter].
  destruct (String.eqb (Alembic.tbl_name t) table).
  - injection Hfind as ->. now rewrite Hcol.
  - now rewrite (IH Hfind).
Qed.

Lemma holds_column_app (table column : string) (ts more : list Alembic.Table) :
  holds_column table column ts -> holds_column table column (ts ++ more).
Proof.
  intros (t0 & Hfind & Hcol). exists t0. split; [| exact Hcol].
  now apply find_app_found.
Qed.

Lemma add_column_holds (table : string) (column : Alembic.Column)
    (s s1 : Alembic.Schema) :
  Alembic.apply (Alembic.add_column table column) s = Some s1 ->
  holds_column table (Alembic.col_name column) (Alembic.tables s1)
  /\ forall other, holds_column table other (Alembic.tables s) ->
                   holds_column table other (Alembic.tables s1).
Proof.
  cbn [Alembic.apply].
  destruct (Alembic.alter table _ (Alembic.tables s)) as [ts1 |] eqn:Halter;
    cbn [option_map]; [| discriminate].
  intros [= <-]. cbn [Alembic.tables]. now apply alter_add_holds.
Qed.

Lemma add_column_rejected (table : string) (column : Alembic.Column) (s : Alembic.Schema)
    (rest : list Alembic.operation) :
  holds_column table (Alembic.col_name column) (Alembic.tables s) ->
  Alembic.run (Alembic.add_column table column :: rest) s = None.
Proof.
  intros Hholds. cbn [Alembic.run Alembic.apply].
  now rewrite (alter_add_rejected _ _ _ Hholds).
Qed.

(** X20. No migration applies twice: once the upgrade of one of the three
    scripts has succeeded, running the same upgrade on the result is
    rejected (its first column is already there) and changes nothing. *)
Theorem migration_upgrade_not_repeatable
    (m : Alembic.Migration) (s s1 : Alembic.Schema) :
  In m Alembic.versions ->
  Alembic.run (Alembic.upgrade m) s = Some s1 ->
  Alembic.run (Alembic.upgrade m) s1 = None.
Proof.
  intros [<- | [<- | [<- | []]]] Hup.
  - cbn [Alembic.upgrade Alembic.email_and_auth_tokens] in *.
    apply add_column_rejected.
    do 7 invert_run Hup. cbn [Alembic.run] in Hup. injection Hup as <-.
    apply add_column_holds in Hstep. destruct Hstep as [Hemail _].
    apply create_table_inv in Hstep0. destruct Hstep0 as [_ ->].
    apply create_index_inv in Hstep1. subst s3.
    apply create_index_inv in Hstep2. subst s4.
    apply create_table_inv in Hstep3. destruct Hstep3 as [_ ->].
    apply create_index_inv in Hstep4. subst s6.
    apply create_index_inv in Hstep5. subst s7.
    cbn [Alembic.tables]. now do 2 apply holds_column_app.
  - cbn [Alembic.upgrade Alembic.note_templates] in *.
    apply add_column_rejected.
    do 2 invert_run Hup. cbn [Alembic.run] in Hup. injection Hup as <-.
    apply add_column_holds in Hstep, Hstep0.
    destruct Hstep as [Hdaily _], Hstep0 as [_ Hkeep]. now apply Hkeep.
  - cbn [Alembic.upgrade Alembic.week_start_monday_column] in *.
    apply add_column_rejected.
    invert_run Hup. cbn [Alembic.run] in Hup. injection Hup as <-.
    now apply add_column_holds in Hstep.
Qed.

Lemma migration_upgrade_not_repeatable_witness :
  exists s1 : Alembic.Schema,
    Alembic.run (Alembic.upgrade Alembic.note_templates) base_schema = Some s1
    /\ Alembic.run (Alembic.upgrade Alembic.note_templates) s1 = None.
Proof.
  destruct (Alembic.run (Alembic.upgrade Alembic.note_templates) base_schema)
    as [s1 |] eqn:Hup; [| vm_compute in Hup; discriminate Hup].
  exists s1. split; [reflexivity |].
  apply (migration_upgrade_not_repeatable Alembic.note_templates base_schema s1).
  - right. left. reflexivity.
  - exact Hup.
Defined.

Lemma revision_chain :
  find (fun m => String.eqb (Alembic.down_revision m) "f1803e0263f1") Alembic.versions
  = Some Alembic.week_start_monday_column
  /\ find (fun m => String.eqb (Alembic.down_revision m) "week_start_monday_001")
          Alembic.versions
     = Some Alembic.email_and_auth_tokens
  /\ find (fun m => String.eqb (Alembic.down_revision m) "email_auth_tokens_001")
          Alembic.versions
     = Some Alembic.note_templates
  /\ find (fun m => String.eqb (Alembic.down_revision m) "note_templates_001")
          Alembic.versions
     = None.
Proof. repeat split. Qed.

Lemma revision_lookup :
  find (fun m => String.eqb (Alembic.revision m) "note_templates_001") Alembic.versions
  = Some Alembic.note_templates
  /\ find (fun m => String.eqb (Alembic.revision m) "email_auth_tokens_001")
          Alembic.versions
     = Some Alembic.email_and_auth_tokens
  /\ find (fun m => String.eqb (Alembic.revision m) "week_start_monday_001")
          Alembic.versions
     = Some Alembic.week_start_monday_column.
Proof. repeat split. Qed.

(** X21. The three scripts form one chain.  Upgrading a schema at revision
    f1803e0263f1 to the head applies the week-start script, then the e-mail
    and token script, then the note-template script, and ends at revision
    note_templates_001, after which there is nothing left to apply;
    downgrading from there to f1803e0263f1 undoes the three in reverse order
    and gives the starting schema back. *)
Theorem migrations_chain (s s3 : Alembic.Schema) (head : string) :
  Forall (fun i => Alembic.ix_table i <> "auth_token" /\ Alembic.ix_table i <> "rate_limit")
         (Alembic.indexes s) ->
  Alembic.upgrade_head 3 "f1803e0263f1" s = Some (head, s3) ->
  head = "note_templates_001"
  /\ (exists s1 s2 : Alembic.Schema,
        Alembic.run (Alembic.upgrade Alembic.week_start_monday_column) s = Some s1
        /\ Alembic.run (Alembic.upgrade Alembic.email_and_auth_tokens) s1 = Some s2
        /\ Alembic.run (Alembic.upgrade Alembic.note_templates) s2 = Some s3)
  /\ (forall steps, Alembic.upgrade_head steps head s3 = Some (head, s3))
  /\ Alembic.downgrade_to 3 "f1803e0263f1" head s3 = Some ("f1803e0263f1", s).
Proof.
  intros Hix Hup.
  destruct revision_chain as (Hc0 & Hc1 & Hc2 & Hc3).
  destruct revision_lookup as (Hl3 & Hl2 & Hl1).
  cbn [Alembic.upgrade_head] in Hup. rewrite Hc0 in Hup.
  destruct (Alembic.run (Alembic.upgrade Alembic.week_start_monday_column) s)
    as [s1 |] eqn:Hup1; [| discriminate].
  change (Alembic.revision Alembic.week_start_monday_column)
    with "week_start_monday_001" in Hup.
  rewrite Hc1 in Hup.
  destruct (Alembic.run (Alembic.upgrade Alembic.email_and_auth_tokens) s1)
    as [s2 |] eqn:Hup2; [| discriminate].
  change (Alembic.revision Alembic.email_and_auth_tokens)
    with "email_auth_tokens_001" in Hup.
  rewrite Hc2 in Hup.
  destruct (Alembic.run (Alembic.upgrade Alembic.note_templates) s2)
    as [s3' |] eqn:Hup3; [| discriminate].
  injection Hup as <- <-.
  split; [reflexivity |].
  split; [exists s1, s2; auto |].
  split.
  { intros [| steps]; [reflexivity |].
    cbn [Alembic.upgrade_head Alembic.revision Alembic.note_templates]. now rewrite Hc3. }
  assert (Hix1 : Forall (fun i => Alembic.ix_table i <> "auth_token"
                                  /\ Alembic.ix_table i <> "rate_limit")
                        (Alembic.indexes s1)).
  { cbn [Alembic.upgrade Alembic.week_start_monday_column] in Hup1.
    invert_run Hup1. cbn [Alembic.run] in Hup1. injection Hup1 as <-.
    apply add_column_inv in Hstep. destruct Hstep as [-> _]. exact Hix. }
  cbn [Alembic.downgrade_to Alembic.revision Alembic.note_templates].
  change (String.eqb "note_templates_001" "f1803e0263f1") with false. cbv iota.
  rewrite Hl3.
  rewrite (proj2 (column_migrations_round_trip s2 s3') Hup3).
  change (Alembic.down_revision Alembic.note_templates) with "email_auth_tokens_001".
  change (String.eqb "email_auth_tokens_001" "f1803e0263f1") with false. cbv iota.
  rewrite Hl2.
  rewrite (email_and_auth_tokens_round_trip s1 s2 Hix1 Hup2).
  change (Alembic.down_revision Alembic.email_and_auth_tokens)
    with "week_start_monday_001".
  change (String.eqb "week_start_monday_001" "f1803e0263f1") with false. cbv iota.
  rewrite Hl1.
  rewrite (proj1 (column_migrations_round_trip s s1) Hup1).
  reflexivity.
Qed.

Lemma migrations_chain_witness :
  exists s3 : Alembic.Schema,
    Alembic.upgrade_head 3 "f1803e0263f1" base_schema = Some ("note_templates_001", s3)
    /\ Alembic.downgrade_to 3 "f1803e0263f1" "note_templates_001" s3
       = Some ("f1803e0263f1", base_schema).
Proof.
  destruct (Alembic.upgrade_head 3 "f1803e0263f1" base_schema) as [[head s3] |] eqn:Hup;
    [| vm_compute in Hup; discriminate Hup].
  assert (Hix : Forall (fun i => Alembic.ix_table i <> "auth_token"
                                 /\ Alembic.ix_table i <> "rate_limit")
                       (Alembic.indexes base_schema))
    by (repeat constructor; discriminate).
  destruct (migrations_chain base_schema s3 head Hix Hup) as (-> & _ & _ & Hdown).
  exists s3. split; [reflexivity | exact Hdown].
Defined.

(** ** The notifier's configuration *)

(** X22. An enabled service can always name its sender and its server: when
    the service built by [EmailService(app)] is enabled, an app was given,
    its host, user, password and "From" address are all set to true values,
    and the "From" address is the configured SMTP_FROM_EMAIL when that is
    present and the SMTP user otherwise.  Built without an app, the service
    is not enabled. *)
Theorem enabled_service_has_sender (app : option Email.Config) :
  let self := Notifier.EmailService_init app in
  Email.enabled self = true ->
  exists cfg : Email.Config,
    app = Some cfg
    /\ Email.truthy (Email.smtp_host self) = true
    /\ Email.truthy (Email.smtp_user self) = true
    /\ Email.truthy (Email.smtp_password self) = true
    /\ Email.truthy (Email.from_email self) = true
    /\ (present cfg "SMTP_FROM_EMAIL" ->
        Email.lookup cfg "SMTP_FROM_EMAIL" = Some (Email.from_email self))
    /\ (~ present cfg "SMTP_FROM_EMAIL" -> Email.from_email self = Email.smtp_user self).
Proof.
  destruct app as [cfg |]; cbn [Notifier.EmailService_init]; [| discriminate].
  unfold Email.init_app.
  cbn [Email.enabled Email.smtp_host Email.smtp_user Email.smtp_password Email.from_email].
  rewrite !truthy_py_and, !andb_true_iff. intros [[Hhost Huser] Hpass].
  exists cfg. split; [reflexivity |].
  split; [exact Hhost |]. split; [exact Huser |]. split; [exact Hpass |].
  unfold Email.py_or.
  destruct (Email.truthy (Email.config_get cfg "SMTP_FROM_EMAIL" Email.PNone)) eqn:Hfrom.
  - split; [exact Hfrom |]. split.
    + intros (v & Hv & _). unfold Email.config_get. now rewrite Hv.
    + intros Habsent. exfalso. apply Habsent. now apply truthy_config_get.
  - split; [exact Huser |]. split; [| reflexivity].
    intros Hpresent. apply truthy_config_get in Hpresent. congruence.
Qed.

Lemma enabled_service_has_sender_witness :
  Email.enabled (Notifier.EmailService_init (Some smtp_config)) = true
  /\ Email.from_email (Notifier.EmailService_init (Some smtp_config))
     = Email.PStr (Email.lit "notes")
  /\ Email.enabled Notifier.email_service = false.
Proof.
  assert (Hon : Email.enabled (Notifier.EmailService_init (Some smtp_config)) = true)
    by reflexivity.
  split; [exact Hon |]. split; [| reflexivity].
  destruct (enabled_service_has_sender (Some smtp_config) Hon)
    as (cfg & Hcfg & _ & _ & _ & _ & _ & Hfallback).
  injection Hcfg as <-. rewrite Hfallback; [reflexivity |].
  intros (v & Hv & Ht). injection Hv as <-. discriminate Ht.
Defined.

(** ** A token keeps the entropy of its bytes *)

Lemma below_cases (P : Z -> bool) (n : nat) :
  forallb P (map Z.of_nat (seq 0 n)) = true ->
  forall a, 0 <= a < Z.of_nat n -> P a = true.
Proof.
  intros Hall a Ha. rewrite forallb_forall in Hall. apply Hall.
  apply in_map_iff. exists (Z.to_nat a). split; [lia |].
  apply in_seq. lia.
Qed.

Lemma byte_split (a : Z) :
  is_byte a ->
  (a = 4 * Z.shiftr a 2 + Z.land a 3
   /\ 0 <= Z.shiftr a 2 < 64 /\ 0 <= Z.land a 3 < 4)
  /\ (a = 16 * Z.shiftr a 4 + Z.land a 15
      /\ 0 <= Z.shiftr a 4 < 16 /\ 0 <= Z.land a 15 < 16)
  /\ (a = 64 * Z.shiftr a 6 + Z.land a 63
      /\ 0 <= Z.shiftr a 6 < 4 /\ 0 <= Z.land a 63 < 64).
Proof.
  intros Ha.
  pose proof (below_cases
    (fun a => (a =? 4 * Z.shiftr a 2 + Z.land a 3)
              && (0 <=? Z.shiftr a 2) && (Z.shiftr a 2 <? 64)
              && (0 <=? Z.land a 3) && (Z.land a 3 <? 4)
              && (a =? 16 * Z.shiftr a 4 + Z.land a 15)
              && (0 <=? Z.shiftr a 4) && (Z.shiftr a 4 <? 16)
              && (0 <=? Z.land a 15) && (Z.land a 15 <? 16)
              && (a =? 64 * Z.shiftr a 6 + Z.land a 63)
              && (0 <=? Z.shiftr a 6) && (Z.shiftr a 6 <? 4)
              && (0 <=? Z.land a 63) && (Z.land a 63 <? 64))
    256 ltac:(vm_compute; reflexivity) a Ha) as H.
  cbn beta in H. rewrite !andb_true_iff in H.
  rewrite !Z.eqb_eq, !Z.leb_le, !Z.ltb_lt in H. intuition.
Qed.

Lemma lor_shift4 (x y : Z) :
  0 <= x < 4 -> 0 <= y < 16 -> Z.lor (Z.shiftl x 4) y = 16 * x + y.
Proof.
  intros Hx Hy.
  pose proof (below_cases
    (fun x => forallb (fun y => Z.lor (Z.shiftl x 4) y =? 16 * x + y)
                      (map Z.of_nat (seq 0 16)))
    4 ltac:(vm_compute; reflexivity) x Hx) as H.
  cbn beta in H.
  now apply Z.eqb_eq, (below_cases (fun y => Z.lor (Z.shiftl x 4) y =? 16 * x + y) 16 H).
Qed.

Lemma lor_shift2 (x y : Z) :
  0 <= x < 16 -> 0 <= y < 4 -> Z.lor (Z.shiftl x 2) y = 4 * x + y.
Proof.
  intros Hx Hy.
  pose proof (below_cases
    (fun x => forallb (fun y => Z.lor (Z.shiftl x 2) y =? 4 * x + y)
                      (map Z.of_nat (seq 0 4)))
    16 ltac:(vm_compute; reflexivity) x Hx) as H.
  cbn beta in H.
  now apply Z.eqb_eq, (below_cases (fun y => Z.lor (Z.shiftl x 2) y =? 4 * x + y) 4 H).
Qed.

Lemma sextet_inj (i j : Z) :
  0 <= i < 64 -> 0 <= j < 64 -> Base64.sextet i = Base64.sextet j -> i = j.
Proof.
  intros Hi Hj Heq.
  pose proof (below_cases
    (fun i => forallb (fun j => negb (Ascii.eqb (Base64.sextet i) (Base64.sextet j))
                                || (i =? j))
                      (map Z.of_nat (seq 0 64)))
    64 ltac:(vm_compute; reflexivity) i Hi) as H.
  cbn beta in H.
  pose proof (below_cases _ 64 H j Hj) as Hij. cbn beta in Hij.
  rewrite Heq, Ascii.eqb_refl in Hij. now apply Z.eqb_eq.
Qed.

Lemma shift4_alone (x : Z) : 0 <= x < 4 -> Z.shiftl x 4 = 16 * x.
Proof.
  intros Hx. rewrite <- (Z.lor_0_r (Z.shiftl x 4)). rewrite lor_shift4; lia.
Qed.

Lemma shift2_alone (x : Z) : 0 <= x < 16 -> Z.shiftl x 2 = 4 * x.
Proof.
  intros Hx. rewrite <- (Z.lor_0_r (Z.shiftl x 2)). rewrite lor_shift2; lia.
Qed.

Lemma first_two_inj (a b a' b' : Z) :
  is_byte a -> is_byte b -> is_byte a' -> is_byte b' ->
  Base64.sextet (Z.shiftr a 2) = Base64.sextet (Z.shiftr a' 2) ->
  Base64.sextet (Z.lor (Z.shiftl (Z.land a 3) 4) (Z.shiftr b 4))
  = Base64.sextet (Z.lor (Z.shiftl (Z.land a' 3) 4) (Z.shiftr b' 4)) ->
  a = a' /\ Z.shiftr b 4 = Z.shiftr b' 4.
Proof.
  intros Ha Hb Ha' Hb' H1 H2.
  destruct (byte_split a Ha) as ((Ea & ? & ?) & _ & _).
  destruct (byte_split a' Ha') as ((Ea' & ? & ?) & _ & _).
  destruct (byte_split b Hb) as (_ & (_ & ? & _) & _).
  destruct (byte_split b' Hb') as (_ & (_ & ? & _) & _).
  apply sextet_inj in H1; [| lia | lia].
  rewrite !lor_shift4 in H2 by lia.
  apply sextet_inj in H2; [| lia | lia]. lia.
Qed.

Lemma third_inj (b c b' c' : Z) :
  is_byte b -> is_byte c -> is_byte b' -> is_byte c' ->
  Z.shiftr b 4 = Z.shiftr b' 4 ->
  Base64.sextet (Z.lor (Z.shiftl (Z.land b 15) 2) (Z.shiftr c 6))
  = Base64.sextet (Z.lor (Z.shiftl (Z.land b' 15) 2) (Z.shiftr c' 6)) ->
  b = b' /\ Z.shiftr c 6 = Z.shiftr c' 6.
Proof.
  intros Hb Hc Hb' Hc' Hhigh H3.
  destruct (byte_split b Hb) as (_ & (Eb & ? & ?) & _).
  destruct (byte_split b' Hb') as (_ & (Eb' & ? & ?) & _).
  destruct (byte_split c Hc) as (_ & _ & (_ & ? & _)).
  destruct (byte_split c' Hc') as (_ & _ & (_ & ? & _)).
  rewrite !lor_shift2 in H3 by lia.
  apply sextet_inj in H3; [| lia | lia]. lia.
Qed.

Lemma fourth_inj (c c' : Z) :
  is_byte c -> is_byte c' ->
  Z.shiftr c 6 = Z.shiftr c' 6 ->
  Base64.sextet (Z.land c 63) = Base64.sextet (Z.land c' 63) ->
  c = c'.
Proof.
  intros Hc Hc' Hhigh H4.
  destruct (byte_split c Hc) as (_ & _ & (Ec & ? & ?)).
  destruct (byte_split c' Hc') as (_ & _ & (Ec' & ? & ?)).
  apply sextet_inj in H4; [| lia | lia]. lia.
Qed.

Lemma pad_is_no_sextet (n : Z) : Base64.sextet n <> "="%char.
Proof.
  intros H. pose proof (sextet_not_pad n) as Hn. rewrite H in Hn. discriminate Hn.
Qed.

Lemma string_cons_inj (c c' : ascii) (s s' : string) :
  String c s = String c' s' -> c = c' /\ s = s'.
Proof. intros H. now injection H. Qed.

Ltac peel H E := apply string_cons_inj in H; destruct H as [E H].

(** [urlsafe_b64encode] loses nothing: on bytes it is injective. *)
Lemma urlsafe_b64encode_inj (l1 l2 : list Z) :
  Forall is_byte l1 -> Forall is_byte l2 ->
  Base64.urlsafe_b64encode l1 = Base64.urlsafe_b64encode l2 -> l1 = l2.
Proof.
  revert l2. induction l1 as [| a | a b | a b c l1 IH] using list_ind3;
    intros [| a' [| b' [| c' l2]]] H1 H2 Henc;
    cbn [Base64.urlsafe_b64encode] in Henc;
    try reflexivity; try discriminate Henc;
    repeat match goal with
           | H : Forall is_byte (_ :: _) |- _ =>
               let Hb := fresh "Hbyte" in
               apply Forall_cons_iff in H; destruct H as [Hb H]
           end;
    peel Henc E1; peel Henc E2; peel Henc E3.
  - (* one byte against one byte *)
    destruct (byte_split a ltac:(assumption)) as ((Ea & ? & ?) & _).
    destruct (byte_split a' ltac:(assumption)) as ((Ea' & ? & ?) & _).
    apply sextet_inj in E1; [| lia | lia].
    rewrite !shift4_alone in E2 by lia.
    apply sextet_inj in E2; [| lia | lia].
    f_equal. lia.
  - symmetry in E3. now apply pad_is_no_sextet in E3.
  - symmetry in E3. now apply pad_is_no_sextet in E3.
  - now apply pad_is_no_sextet in E3.
  - (* two bytes against two bytes *)
    destruct (first_two_inj a b a' b' ltac:(assumption) ltac:(assumption)
                ltac:(assumption) ltac:(assumption) E1 E2) as [-> Hhigh].
    destruct (byte_split b ltac:(assumption)) as (_ & (Eb & ? & ?) & _).
    destruct (byte_split b' ltac:(assumption)) as (_ & (Eb' & ? & ?) & _).
    rewrite !shift2_alone in E3 by lia.
    apply sextet_inj in E3; [| lia | lia].
    f_equal. f_equal. lia.
  - peel Henc E4. symmetry in E4. now apply pad_is_no_sextet in E4.
  - now apply pad_is_no_sextet in E3.
  - peel Henc E4. now apply pad_is_no_sextet in E4.
  - (* a full group, then the rest *)
    peel Henc E4.
    destruct (first_two_inj a b a' b' ltac:(assumption) ltac:(assumption)
                ltac:(assumption) ltac:(assumption) E1 E2) as [-> Hb].
    destruct (third_inj b c b' c' ltac:(assumption) ltac:(assumption)
                ltac:(assumption) ltac:(assumption) Hb E3) as [-> Hc].
    rewrite (fourth_inj c c' ltac:(assumption) ltac:(assumption) Hc E4).
    now rewrite (IH l2 H1 H2 Henc).
Qed.

Lemma urlsafe_b64encode_padding (bs : list Z) :
  Base64.urlsafe_b64encode bs
  = (Base64.token_urlsafe bs ++ padding_of (List.length bs))%string.
Proof.
  unfold Base64.token_urlsafe.
  assert (H : exists body : string,
             Base64.urlsafe_b64encode bs = (body ++ padding_of (List.length bs))%string
             /\ string_forallb is_urlsafe body = true).
  { induction bs as [| a | a b | a b c l IH] using list_ind3.
    - exists "". split; reflexivity.
    - eexists (String _ (String _ "")). split; [reflexivity |].
      cbn [string_forallb]. now rewrite !sextet_urlsafe.
    - eexists (String _ (String _ (String _ ""))). split; [reflexivity |].
      cbn [string_forallb]. now rewrite !sextet_urlsafe.
    - destruct IH as (body & Henc & Hbody).
      eexists (String _ (String _ (String _ (String _ body)))).
      cbn [Base64.urlsafe_b64encode append string_forallb].
      rewrite !sextet_urlsafe, Henc. split; [| exact Hbody].
      do 4 f_equal. unfold padding_of. cbn [List.length].
      replace (S (S (S (List.length l)))) with (List.length l + 1 * 3)%nat by lia.
      now rewrite Nat.Div0.mod_add. }
  destruct H as (body & Henc & Hbody). rewrite Henc.
  rewrite rstrip_by_suffix; [reflexivity | |].
  - apply (string_forallb_impl is_urlsafe); [| exact Hbody].
    intros ch Hch. now rewrite (urlsafe_not_pad ch Hch).
  - unfold padding_of. now destruct (List.length bs mod 3)%nat as [| [| ?]].
Qed.

(** X23. A token keeps all the entropy of the bytes it is made from: two
    draws of 32 bytes that give the same token are the same bytes. *)
Theorem generate_token_injective (first_draw second_draw : nat -> list Z) :
  List.length (first_draw 32%nat) = 32%nat ->
  List.length (second_draw 32%nat) = 32%nat ->
  Forall is_byte (first_draw 32%nat) ->
  Forall is_byte (second_draw 32%nat) ->
  generate_token first_draw = generate_token second_draw ->
  first_draw 32%nat = second_draw 32%nat.
Proof.
  intros Hlen1 Hlen2 Hb1 Hb2 Htok. unfold generate_token in Htok.
  apply urlsafe_b64encode_inj; [exact Hb1 | exact Hb2 |].
  now rewrite !urlsafe_b64encode_padding, Htok, Hlen1, Hlen2.
Qed.

Lemma bytes_by_computation (l : list Z) :
  forallb (fun b => (0 <=? b) && (b <? 256)) l = true -> Forall is_byte l.
Proof.
  intros H. apply Forall_forall. intros b Hb.
  rewrite forallb_forall in H. specialize (H b Hb).
  apply andb_true_iff in H. destruct H as [H0 H1].
  apply Z.leb_le in H0. apply Z.ltb_lt in H1. unfold is_byte. lia.
Qed.

Lemma generate_token_injective_witness :
  generate_token Sample.counting_bytes
  = generate_token (fun n => firstn n (map Z.of_nat (seq 0 40)))
  /\ Sample.counting_bytes 32%nat = firstn 32 (map Z.of_nat (seq 0 40)).
Proof.
  assert (H : generate_token Sample.counting_bytes
              = generate_token (fun n => firstn n (map Z.of_nat (seq 0 40))))
    by (vm_compute; reflexivity).
  split; [exact H |].
  apply (generate_token_injective Sample.counting_bytes
           (fun n => firstn n (map Z.of_nat (seq 0 40)))).
  - reflexivity.
  - reflexivity.
  - apply bytes_by_computation. vm_compute. reflexivity.
  - apply bytes_by_computation. vm_compute. reflexivity.
  - exact H.
Defined.

(** ** What every sequence of calls keeps *)

Lemma perform_tokens (c : call) (s : Store) :
  (exists user token_type row,
      auth_tokens (perform c s)
      = filter (fun r => negb (unused_of (user_uuid user) token_type r)) (auth_tokens s)
        ++ [row]
      /\ unused_of (user_uuid user) token_type row = true
      /\ at_user_id row = user_uuid user /\ at_token_type row = token_type
      /\ is_digest (at_token_hash row))
  \/ (exists hit now,
        In hit (auth_tokens s)
        /\ auth_tokens (perform c s)
           = map (fun x => if N.eqb (at_uuid x) (at_uuid hit)
                           then set_used_at hit (Some now) else x) (auth_tokens s))
  \/ (exists keep : AuthToken -> bool, auth_tokens (perform c s) = filter keep (auth_tokens s)).
Proof.
  assert (Hsame : auth_tokens s = filter (fun _ => true) (auth_tokens s))
    by (symmetry; apply filter_all_kept, Forall_forall; reflexivity).
  destruct c; cbn [perform].
  - right. right. exists (fun _ => true). exact Hsame.
  - right. right. exists (fun _ => true). exact Hsame.
  - left. rewrite create_auth_token_run. cbn [snd auth_tokens].
    exists user, token_type, (issued_row now pk user token_type (generate_token token_bytes)).
    split; [reflexivity |]. split; [apply issued_row_unused |].
    split; [reflexivity |]. split; [reflexivity |].
    split; [apply hash_token_length | apply hex_lower].
  - right. right. exists (fun _ => true). rewrite validate_token_run. exact Hsame.
  - rewrite invalidate_token_run.
    destruct (find _ (auth_tokens s)) as [hit |] eqn:Hfind; cbn [snd].
    + right. left. exists hit, now. split; [| reflexivity].
      now apply find_some in Hfind.
    + right. right. exists (fun _ => true). exact Hsame.
  - right. right. rewrite cleanup_expired_tokens_run. eexists. reflexivity.
  - right. right. exists (fun _ => true).
    unfold get_user_by_email. destruct (negb _); exact Hsame.
Qed.

Lemma filter_of_filter_le {A : Type} (p q : A -> bool) (l : list A) :
  (List.length (filter p (filter q l)) <= List.length (filter p l))%nat.
Proof.
  induction l as [| a l IH]; [constructor |].
  cbn [filter]. destruct (q a); cbn [filter]; destruct (p a); cbn [List.length]; lia.
Qed.

Lemma filter_of_map_le {A : Type} (p : A -> bool) (g : A -> A) (l : list A) :
  (forall x, In x l -> p (g x) = true -> p x = true) ->
  (List.length (filter p (map g l)) <= List.length (filter p l))%nat.
Proof.
  induction l as [| a l IH]; intros Hg; [constructor |].
  cbn [map filter].
  assert (IH' := IH (fun x Hx => Hg x (or_intror Hx))).
  destruct (p (g a)) eqn:Hga.
  - rewrite (Hg a (or_introl eq_refl) Hga). cbn [List.length]. lia.
  - destruct (p a); cbn [List.length]; lia.
Qed.

Lemma perform_keeps_one_unused (c : call) (s : Store) :
  one_unused_per_pair s -> one_unused_per_pair (perform c s).
Proof.
  intros Hinv user_id token_type.
  destruct (perform_tokens c s)
    as [(user & tt & row & -> & Hrow & Hid & Htt & _) | [(hit & now & _ & ->) | (keep & ->)]].
  - rewrite filter_app. cbn [filter].
    destruct (unused_of user_id token_type row) eqn:Hmine.
    + assert (Hpair : unused_of user_id token_type = unused_of (user_uuid user) tt).
      { unfold unused_of in Hmine. rewrite Hid, Htt in Hmine.
        apply andb_true_iff in Hmine. destruct Hmine as [Hmine _].
        apply andb_true_iff in Hmine. destruct Hmine as [Hu Ht].
        apply N.eqb_eq in Hu. apply String.eqb_eq in Ht. now subst. }
      rewrite Hpair, filter_complement. cbn. lia.
    + rewrite app_nil_r.
      eapply Nat.le_trans; [apply filter_of_filter_le | apply Hinv].
  - eapply Nat.le_trans; [| apply (Hinv user_id token_type)].
    apply filter_of_map_le. intros x _.
    destruct (N.eqb (at_uuid x) (at_uuid hit)); [| trivial].
    unfold unused_of. cbn [at_used_at set_used_at is_null].
    now rewrite andb_false_r.
  - eapply Nat.le_trans; [apply filter_of_filter_le | apply Hinv].
Qed.

Lemma perform_keeps_users (c : call) (s : Store) : users (perform c s) = users s.
Proof.
  destruct c; cbn [perform]; try reflexivity.
  - now rewrite validate_token_run.
  - rewrite invalidate_token_run. now destruct (find _ (auth_tokens s)).
  - unfold get_user_by_email. now destruct (negb _).
Qed.

(** X24. The invariant of the token table.  If a store holds at most one
    unused token per user and token type, so does the store after any
    sequence of calls of the functions of this module, whatever their
    arguments; and no sequence of calls changes the user table. *)
Theorem calls_keep_one_unused_per_pair (calls : list call) (s : Store) :
  one_unused_per_pair s ->
  one_unused_per_pair (perform_all calls s)
  /\ users (perform_all calls s) = users s.
Proof.
  revert s. induction calls as [| c calls IH]; intros s Hinv; [split; [exact Hinv | reflexivity] |].
  cbn [perform_all fold_left]. fold (perform_all calls (perform c s)).
  destruct (IH (perform c s) (perform_keeps_one_unused c s Hinv)) as [Hone Husers].
  split; [exact Hone |]. now rewrite Husers, perform_keeps_users.
Qed.

Lemma calls_keep_one_unused_per_pair_witness :
  one_unused_per_pair (perform_all alice_session empty_store)
  /\ map at_uuid (auth_tokens (perform_all alice_session empty_store)) = [13%N]
  /\ users (perform_all alice_session empty_store) = users empty_store.
Proof.
  assert (Hempty : one_unused_per_pair empty_store) by (intros u t; cbn; lia).
  destruct (calls_keep_one_unused_per_pair alice_session empty_store Hempty) as [H1 H2].
  split; [exact H1 |]. split; [vm_compute; reflexivity | exact H2].
Defined.

Lemma hexdigest_is_digest (msg : list Z) : is_digest (SHA256.hexdigest msg).
Proof.
  split.
  - unfold SHA256.hexdigest. now rewrite hex_length, digest_length.
  - apply hex_lower.
Qed.

Lemma perform_keeps_digests (c : call) (s : Store) :
  digests_only s -> digests_only (perform c s).
Proof.
  intros [Htok Hrate]. split.
  - destruct (perform_tokens c s)
      as [(user & tt & row & -> & _ & _ & _ & Hrow) | [(hit & now & Hhit & ->) | (keep & ->)]].
    + apply Forall_app. split; [now apply Forall_filter | now constructor].
    + apply Forall_forall. intros x Hx. apply in_map_iff in Hx.
      destruct Hx as (y & <- & Hy). rewrite Forall_forall in Htok.
      destruct (N.eqb (at_uuid y) (at_uuid hit)); [| now apply Htok].
      cbn [at_token_hash set_used_at]. now apply Htok.
    + now apply Forall_filter.
  - destruct c; cbn [perform]; try exact Hrate.
    + unfold record_rate_limit. run_db. apply Forall_app. split; [exact Hrate |].
      constructor; [| constructor]. apply hexdigest_is_digest.
    + now rewrite validate_token_run.
    + rewrite invalidate_token_run. now destruct (find _ (auth_tokens s)).
    + rewrite cleanup_expired_tokens_run. cbn [rate_limits]. now apply Forall_filter.
    + unfold get_user_by_email. now destruct (negb _).
Qed.

(** X25. Only digests are stored.  If every stored token hash and every
    stored rate-limit identifier is a SHA-256 digest in hexadecimal (64
    lower-case hexadecimal digits), the same holds after any sequence of
    calls of the functions of this module: no call writes a raw secret or an
    e-mail address into these columns. *)
Theorem calls_store_digests_only (calls : list call) (s : Store) :
  digests_only s -> digests_only (perform_all calls s).
Proof.
  revert s. induction calls as [| c calls IH]; intros s Hinv; [exact Hinv |].
  cbn [perform_all fold_left]. fold (perform_all calls (perform c s)).
  apply IH. now apply perform_keeps_digests.
Qed.

Lemma calls_store_digests_only_witness :
  digests_only (perform_all alice_session empty_store)
  /\ map rl_identifier (rate_limits (perform_all alice_session empty_store))
     = [ "ff8d9819fc0e12bf0d24892e45987e249a28dce836a85cad60e28eaaa8c6d976";
         "ff8d9819fc0e12bf0d24892e45987e249a28dce836a85cad60e28eaaa8c6d976" ].
Proof.
  split; [| vm_compute; reflexivity].
  apply calls_store_digests_only. split; constructor.
Defined.
